(** * N-body gravity simulator: embedded Runge-Kutta engine, diagnostics,
      preset catalogue and trajectory trimming

    A shallow embedding of the Python sources
      - [gravity_sim/simulator.py]  (embedded RK driver, initial step
        estimator, total energy, Butcher tableaux, [initialize_problem]
        and [unload_value]),
      - [gravity_sim/grav_obj.py]   (the constant [Grav_obj.G],
        [create_star], [update]),
      - [gravity_plot/simulator.py] (constants, preset catalogue,
        [compute_energy]),
      - [gravity_sim/__main__.py], [gravity_plot/__main__.py] ([trim_data]
        and its prompts, the note that shows G, [_save_result] and
        [_read_simulation_data]),
    followed by the properties proved about them.

    Number domains.  The sources compute with IEEE binary64 numbers.
      - The constants of [Constants] are the decimal numerals of the
        source, read as exact rationals ([Q]).
      - The integrator ([RK], [Heap]) is embedded over the real numbers
        ([R]): rounding is idealised away, comparisons and control flow
        are kept as written.  What is proved of it is either a matter of
        control flow, or is stated as a property of exact arithmetic.
      - Where rounding, infinities or NaN decide the outcome, the
        embedding uses binary64 itself ([PrimFloat]): the step-size
        update ([RK64]), the preset catalogue ([Catalog]), the energy
        diagnostics, and the arrays that are only copied and compared
        (trimming, sprites, result files).  Python's [**], which
        PrimFloat lacks, is a parameter there.

    [rk_embedded] is embedded twice: as a function on values ([RK]) and
    as a computation on a store of array objects ([Heap]), where in-place
    updates and aliasing are visible; [HeapRefinement] shows that the two
    agree. *)

From Stdlib Require Import String Ascii Floats.
From stdpp Require Import base list strings gmap.
From Stdlib Require Import ZArith QArith Qround Qreals Reals Lra Lia List.
Import ListNotations.

#[global] Set Warnings "-inexact-float".
#[global] Set Warnings "-abstract-large-number".

(** ** Butcher tableaux ([rk_embedded_butcher_tableaus]) *)

Module Tableaus.
Local Open Scope Q_scope.

(** The five values returned by [rk_embedded_butcher_tableaus]. *)
Record tableau : Type := Tableau {
  power : Z;
  power_test : Z;
  coeff : list (list Q);
  weights : list Q;
  weights_test : list Q
}.

(** Python exceptions raised by the embedded functions. *)
Inductive exn : Type := ValueError.

Inductive result (A : Type) : Type :=
| Ok (a : A)
| Raise (e : exn).
Arguments Ok {A} a.
Arguments Raise {A} e.

(** [case 45]: Runge-Kutta-Fehlberg 4(5). *)
Definition rkf45 : tableau := {|
  power := 4;
  power_test := 5;
  coeff :=
    [ [1 / 4; 0; 0; 0; 0];
      [3 / 32; 9 / 32; 0; 0; 0];
      [1932 / 2197; -7200 / 2197; 7296 / 2197; 0; 0];
      [439 / 216; -8; 3680 / 513; -845 / 4104; 0];
      [-8 / 27; 2; -3544 / 2565; 1859 / 4104; -11 / 40] ];
  weights := [25 / 216; 0; 1408 / 2565; 2197 / 4104; -0.2; 0];
  weights_test :=
    [16 / 135; 0; 6656 / 12825; 28561 / 56430; -9 / 50; 2 / 55]
|}.

(** [case 54]: Dormand-Prince 5(4). *)
Definition dopri54 : tableau := {|
  power := 5;
  power_test := 4;
  coeff :=
    [ [1 / 5; 0; 0; 0; 0; 0];
      [3 / 40; 9 / 40; 0; 0; 0; 0];
      [44 / 45; -56 / 15; 32 / 9; 0; 0; 0];
      [19372 / 6561; -25360 / 2187; 64448 / 6561; -212 / 729; 0; 0];
      [9017 / 3168; -355 / 33; 46732 / 5247; 49 / 176; -5103 / 18656; 0];
      [35 / 384; 0; 500 / 1113; 125 / 192; -2187 / 6784; 11 / 84] ];
  weights :=
    [35 / 384; 0; 500 / 1113; 125 / 192; -2187 / 6784; 11 / 84; 0];
  weights_test :=
    [5179 / 57600; 0; 7571 / 16695; 393 / 640; -92097 / 339200;
     187 / 2100; 1 / 40]
|}.

(** [case 78]: Runge-Kutta-Fehlberg 7(8). *)
Definition rkf78 : tableau := {|
  power := 7;
  power_test := 8;
  coeff :=
    [ [2 / 27; 0; 0; 0; 0; 0; 0; 0; 0; 0; 0; 0];
      [1 / 36; 1 / 12; 0; 0; 0; 0; 0; 0; 0; 0; 0; 0];
      [1 / 24; 0; 1 / 8; 0; 0; 0; 0; 0; 0; 0; 0; 0];
      [5 / 12; 0; -25 / 16; 25 / 16; 0; 0; 0; 0; 0; 0; 0; 0];
      [1 / 20; 0; 0; 1 / 4; 1 / 5; 0; 0; 0; 0; 0; 0; 0];
      [-25 / 108; 0; 0; 125 / 108; -65 / 27; 125 / 54; 0; 0; 0; 0; 0; 0];
      [31 / 300; 0; 0; 0; 61 / 225; -2 / 9; 13 / 900; 0; 0; 0; 0; 0];
      [2; 0; 0; -53 / 6; 704 / 45; -107 / 9; 67 / 90; 3; 0; 0; 0; 0];
      [-91 / 108; 0; 0; 23 / 108; -976 / 135; 311 / 54; -19 / 60; 17 / 6;
       -1 / 12; 0; 0; 0];
      [2383 / 4100; 0; 0; -341 / 164; 4496 / 1025; -301 / 82; 2133 / 4100;
       45 / 82; 45 / 164; 18 / 41; 0; 0];
      [3 / 205; 0; 0; 0; 0; -6 / 41; -3 / 205; -3 / 41; 3 / 41; 6 / 41; 0; 0];
      [-1777 / 4100; 0; 0; -341 / 164; 4496 / 1025; -289 / 82; 2193 / 4100;
       51 / 82; 33 / 164; 19 / 41; 0; 1] ];
  weights :=
    [41 / 840; 0; 0; 0; 0; 34 / 105; 9 / 35; 9 / 35; 9 / 280; 9 / 280;
     41 / 840; 0; 0];
  weights_test :=
    [0; 0; 0; 0; 0; 34 / 105; 9 / 35; 9 / 35; 9 / 280; 9 / 280; 0;
     41 / 840; 41 / 840]
|}.

(** [case 65]: Verner 6(5), DVERK. *)
Definition dverk65 : tableau := {|
  power := 6;
  power_test := 7;
  coeff :=
    [ [1 / 6; 0; 0; 0; 0; 0; 0];
      [4 / 75; 16 / 75; 0; 0; 0; 0; 0];
      [5 / 6; -8 / 3; 5 / 2; 0; 0; 0; 0];
      [-165 / 64; 55 / 6; -425 / 64; 85 / 96; 0; 0; 0];
      [12 / 5; -8; 4015 / 612; -11 / 36; 88 / 255; 0; 0];
      [-8263 / 15000; 124 / 75; -643 / 680; -81 / 250; 2484 / 10625; 0; 0];
      [3501 / 1720; -300 / 43; 297275 / 52632; -319 / 2322; 24068 / 84065;
       0; 3850 / 26703] ];
  weights :=
    [3 / 40; 0; 875 / 2244; 23 / 72; 264 / 1955; 0; 125 / 11592; 43 / 616];
  weights_test :=
    [13 / 160; 0; 2375 / 5984; 5 / 16; 12 / 85; 3 / 44; 0; 0]
|}.

(** The [match order] of the source; [case _] raises [ValueError]. *)
Definition rk_embedded_butcher_tableaus (order : Z) : result tableau :=
  if (order =? 45)%Z then Ok rkf45
  else if (order =? 54)%Z then Ok dopri54
  else if (order =? 78)%Z then Ok rkf78
  else if (order =? 65)%Z then Ok dverk65
  else Raise ValueError.

(** The node arrays that the source keeps, commented out, next to each
    coefficient matrix ([# nodes = np.array([...])]). *)
Definition nodes (order : Z) : list Q :=
  if (order =? 45)%Z then [1 / 4; 3 / 8; 12 / 13; 1; 0.5]
  else if (order =? 54)%Z then [1 / 5; 3 / 10; 4 / 5; 8 / 9; 1; 1]
  else if (order =? 78)%Z then
    [2 / 27; 1 / 9; 1 / 6; 5 / 12; 1 / 2; 5 / 6; 1 / 6; 2 / 3; 1 / 3; 1; 0; 1]
  else if (order =? 65)%Z then
    [1 / 6; 4 / 15; 2 / 3; 5 / 6; 1; 1 / 15; 1]
  else [].

Definition Qsum (l : list Q) : Q := fold_right Qplus 0 l.

(** Row [i] of the stage matrix sums to node [i]. *)
Definition row_ok (t : tableau) (nd : list Q) (i : nat) : bool :=
  Qeq_bool (Qsum (nth i (coeff t) [])) (nth i nd 0).

Definition rows_ok (t : tableau) (nd : list Q) : bool :=
  forallb (row_ok t nd) (seq 0 (length (coeff t))).

Definition weights_ok (t : tableau) : bool :=
  Qeq_bool (Qsum (weights t)) 1 && Qeq_bool (Qsum (weights_test t)) 1.

(** Shape of a tableau with [s] stages: [s - 1] rows of equal length, at
    least [s - 1] long, and [s] weights of each kind. *)
Definition well_shaped (t : tableau) : bool :=
  let s := length (weights t) in
  (0 <? s)%nat
  && (length (weights_test t) =? s)%nat
  && (length (coeff t) =? s - 1)%nat
  && forallb (fun row => (s - 1 <=? length row)%nat) (coeff t).

Definition orders : list Z := [45; 54; 78; 65]%Z.

End Tableaus.

(** ** Physical constants *)

Module Constants.
Local Open Scope Q_scope.

(** Keys of the dictionaries [GM_SI], [SOLAR_SYSTEM_MASSES],
    [SOLAR_SYSTEM_POS] and [SOLAR_SYSTEM_VEL] of [gravity_plot]. *)
Inductive body : Type :=
| Sun | Mercury | Venus | Earth | Mars | Jupiter | Saturn | Uranus
| Neptune | Moon | Pluto | Ceres | Vesta.

(** Conversion factor from km^3 s^-2 to AU^3 d^-2. *)
Definition CONVERSION_FACTOR : Q := (86400 ^ 2) / (149597870.7 ^ 3).

(** GM values (km^3 s^-2), JPL DE440. *)
Definition GM_SI (b : body) : Q :=
  match b with
  | Sun => 132712440041.279419
  | Mercury => 22031.868551
  | Venus => 324858.592000
  | Earth => 398600.435507
  | Mars => 42828.375816
  | Jupiter => 126712764.100000
  | Saturn => 37940584.841800
  | Uranus => 5794556.400000
  | Neptune => 6836527.100580
  | Moon => 4902.800118
  | Pluto => 975.500000
  | Ceres => 62.62890
  | Vesta => 17.288245
  end.

(** GM values (AU^3 d^-2). *)
Definition GM (b : body) : Q := GM_SI b * CONVERSION_FACTOR.

(** Solar system masses (M_sun^-1). *)
Definition SOLAR_SYSTEM_MASSES (b : body) : Q :=
  match b with
  | Sun => 1.0
  | _ => GM_SI b / GM_SI Sun
  end.

(** Solar system positions and velocities (AU, AU/day), barycentric,
    dated A.D. 2024-Jan-01 00:00:00.0000 TDB (JPL Horizons). *)
Definition SOLAR_SYSTEM_POS (b : body) : list Q :=
  match b with
  | Sun =>
      [(-7.967955691533730e-03); (-2.906227441573178e-03); 2.103054301547123e-04]
  | Mercury =>
      [(-2.825983269538632e-01); 1.974559795958082e-01; 4.177433558063677e-02]
  | Venus =>
      [(-7.232103701666379e-01); (-7.948302026312400e-02); 4.042871428174315e-02]
  | Earth =>
      [(-1.738192017257054e-01); 9.663245550235138e-01; 1.553901854897183e-04]
  | Mars =>
      [(-3.013262392582653e-01); (-1.454029331393295e00); (-2.300531433991428e-02)]
  | Jupiter =>
      [3.485202469657674e00; 3.552136904413157e00; (-9.271035442798399e-02)]
  | Saturn =>
      [8.988104223143450e00; (-3.719064854634689e00); (-2.931937777323593e-01)]
  | Uranus =>
      [1.226302417897505e01; 1.529738792480545e01; (-1.020549026883563e-01)]
  | Neptune =>
      [2.983501460984741e01; (-1.793812957956852e00); (-6.506401132254588e-01)]
  | Moon =>
      [(-1.762788124769829e-01); 9.674377513177153e-01; 3.236901585768862e-04]
  | Pluto =>
      [1.720200478843485e01; (-3.034155683573043e01); (-1.729127607100611e00)]
  | Ceres =>
      [(-1.103880510367569e00); (-2.533340440444230e00); 1.220283937721780e-01]
  | Vesta =>
      [(-8.092549658731499e-02); 2.558381434460076e00; (-6.695836142398572e-02)]
  end.

Definition SOLAR_SYSTEM_VEL (b : body) : list Q :=
  match b with
  | Sun =>
      [4.875094764261564e-06; (-7.057133213976680e-06); (-4.573453713094512e-08)]
  | Mercury =>
      [(-2.232165900189702e-02); (-2.157207103176252e-02); 2.855193410495743e-04]
  | Venus =>
      [2.034068201002341e-03; (-2.020828626592994e-02); (-3.945639843855159e-04)]
  | Earth =>
      [(-1.723001232538228e-02); (-2.967721342618870e-03); 6.382125383116755e-07]
  | Mars =>
      [1.424832259345280e-02; (-1.579236181580905e-03); (-3.823722796161561e-04)]
  | Jupiter =>
      [(-5.470970658852281e-03); 5.642487338479145e-03; 9.896190602066252e-05]
  | Saturn =>
      [1.822013845554067e-03; 5.143470425888054e-03; (-1.617235904887937e-04)]
  | Uranus =>
      [(-3.097615358317413e-03); 2.276781932345769e-03; 4.860433222241686e-05]
  | Neptune =>
      [1.676536611817232e-04; 3.152098732861913e-03; (-6.877501095688201e-05)]
  | Moon =>
      [(-1.746667306153906e-02); (-3.473438277358121e-03); (-3.359028758606074e-05)]
  | Pluto =>
      [2.802810313667557e-03; 8.492056438614633e-04; (-9.060790113327894e-04)]
  | Ceres =>
      [8.978653480111301e-03; (-4.873256528198994e-03); (-1.807162046049230e-03)]
  | Vesta =>
      [(-1.017876585480054e-02); (-5.452367109338154e-04); 1.255870551153315e-03]
  end.

(** Gravitational constant (M_sun^-1 AU^3 d^-2) of [gravity_plot]:
    [CONSTANT_G = GM["Sun"]]. *)
Definition CONSTANT_G : Q := GM Sun.

(** [Grav_obj.G] of [gravity_sim/grav_obj.py]. *)
Definition Grav_obj_G : Q := 0.00029591220828559.

(** The note printed by [_get_user_simulation_input], and the value of G
    that it shows. *)
Definition G_note : string :=
  "Note: The default unit is M_sun, AU and day, G=0.00029591220828411.".

(** The rational that a decimal numeral denotes: digits with at most one
    point. *)
Definition digit (c : ascii) : option Z :=
  let n := nat_of_ascii c in
  if (48 <=? n)%nat && (n <=? 57)%nat then Some (Z.of_nat (n - 48)) else None.

Fixpoint read_decimal (s : string) (num : Z) (den : positive) (frac : bool)
    : option Q :=
  match s with
  | EmptyString => Some (num # den)
  | String c s' =>
      if Ascii.eqb c "." then
        if frac then None else read_decimal s' num den true
      else
        match digit c with
        | Some d =>
            read_decimal s' (10 * num + d)
              (if frac then 10 * den else den) frac
        | None => None
        end
  end.

(** The number between ["G="] and the full stop that ends the note. *)
Definition G_printed : option Q :=
  match index 0 "G=" G_note with
  | Some i =>
      read_decimal
        (substring (i + 2) (String.length G_note - (i + 2) - 1) G_note)
        0 1 false
  | None => None
  end.

(** [x] has the decimal expansion 0.00029591220828411..., that is the
    digits shown followed by any further digits. *)
Definition is_0_00029591220828411 (x : Q) : Prop :=
  0.00029591220828411 <= x /\ x < 0.00029591220828412.

End Constants.

(** ** numpy arrays of reals *)

Module Np.
Local Open Scope R_scope.

(** A numpy array of shape (N, 3) (or (N,)), flattened in row order. *)
Definition array : Type := list R.

Definition Rltb (a b : R) : bool := if Rlt_dec a b then true else false.
Definition Rleb (a b : R) : bool := if Rle_dec a b then true else false.
Definition Reqb (a b : R) : bool := if Req_dec_T a b then true else false.

Definition zeros (n : nat) : array := repeat 0 n.
Definition add (a b : array) : array := zip_with Rplus a b.
Definition sub (a b : array) : array := zip_with Rminus a b.
Definition div (a b : array) : array := zip_with Rdiv a b.
Definition maximum (a b : array) : array := zip_with Rmax a b.
(** [c * a] and [c + a] for a scalar [c]. *)
Definition scale (c : R) (a : array) : array := map (Rmult c) a.
Definition shift (c : R) (a : array) : array := map (Rplus c) a.
(** [a * c] for a scalar [c]. *)
Definition times (a : array) (c : R) : array := map (fun r => r * c) a.
Definition abs (a : array) : array := map Rabs a.
Definition square (a : array) : array := map (fun r => r * r) a.
Definition sum (a : array) : R := fold_right Rplus 0 a.

End Np.

(** ** The embedded Runge-Kutta integrator ([gravity_sim/simulator.py]) *)

Module RK.
Import Np.
Local Open Scope R_scope.

Section Embedded.

(** Modelled from the spec: [common.acceleration(objects_count, x, m, G)]
    is imported by the source and its definition is not part of it.  By
    section 4.A it is given N, the positions, the masses and G and
    returns the accelerations; no property of the returned values is
    used. *)
Variable acceleration : nat -> array -> array -> R -> array.

Definition _rk_embedded_initial_time_step
    (objects_count : nat) (power : Z) (x v a m : array) (G : R)
    (abs_tolerance rel_tolerance : R) : R :=
  let tolerance_scale_x := shift abs_tolerance (scale rel_tolerance (abs x)) in
  let tolerance_scale_v := shift abs_tolerance (scale rel_tolerance (abs v)) in
  let sum_0 :=
    sum (square (div x tolerance_scale_x))
    + sum (square (div v tolerance_scale_v)) in
  let sum_1 :=
    sum (square (div v tolerance_scale_x))
    + sum (square (div a tolerance_scale_v)) in
  let d_0 := sqrt (sum_0 / (INR objects_count * 3 * 2)) in
  let d_1 := sqrt (sum_1 / (INR objects_count * 3 * 2)) in
  let dt_0 := if Rltb d_0 1e-5 || Rltb d_1 1e-5 then 1e-4 else d_0 / d_1 in
  let x_1 := add x (scale (dt_0 / 100) v) in
  let v_1 := add v (scale (dt_0 / 100) a) in
  let a_1 := acceleration objects_count x_1 m G in
  let sum_2 :=
    sum (square (div (sub v_1 v) tolerance_scale_x))
    + sum (square (div (sub a_1 a) tolerance_scale_v)) in
  let d_2 := sqrt (sum_2 / (INR objects_count * 3 * 2)) / dt_0 in
  let dt_1 :=
    if Rleb (Rmax d_1 d_2) 1e-15 then Rmax 1e-6 (dt_0 * 1e-3)
    else Rpower (0.01 / Rmax d_1 d_2) (1.0 / (1.0 + IZR power)) in
  let dt := Rmin (100 * dt_0) dt_1 in
  dt * 1e-3.

(** The initial step as the specification words it (section 4.D,
    "Initial step estimator"), with one tolerance for both the absolute
    and the relative one; to be compared with
    [_rk_embedded_initial_time_step]. *)
Definition initial_time_step_spec
    (N : nat) (p : Z) (x v a m : array) (G tolerance : R) : R :=
  let sx := map (fun xi => tolerance + tolerance * Rabs xi) x in
  let sv := map (fun vi => tolerance + tolerance * Rabs vi) v in
  let sumsq (u s : array) := sum (map (fun r => r ^ 2) (div u s)) in
  let d_0 := sqrt (sumsq x sx + sumsq v sv) / sqrt (6 * INR N) in
  let d_1 := sqrt (sumsq v sx + sumsq a sv) / sqrt (6 * INR N) in
  let dt_0 := if Rltb (Rmin d_0 d_1) 1e-5 then 1e-4 else d_0 / d_1 in
  let probe := dt_0 / 100 in
  let x_1 := add x (scale probe v) in
  let v_1 := add v (scale probe a) in
  let a_1 := acceleration N x_1 m G in
  let d_2 :=
    sqrt (sumsq (sub v_1 v) sx + sumsq (sub a_1 a) sv) / sqrt (6 * INR N)
    / dt_0 in
  let dt_1 :=
    if Rleb (Rmax d_1 d_2) 1e-15 then Rmax 1e-6 (dt_0 * 1e-3)
    else Rpower (0.01 / Rmax d_1 d_2) (1 / (1 + IZR p)) in
  1e-3 * Rmin (100 * dt_0) dt_1.

(** *** [rk_embedded] *)

(** The arguments of [rk_embedded] that stay fixed during the call. *)
Record rk_params : Type := {
  objects_count : nat;
  m : array;
  G : R;
  expected_time_scale : R;
  simulation_time : R;
  power : Z;
  power_test : Z;
  coeff : list (list R);
  weights : list R;
  weights_test : list R;
  max_iteration : Z;
  min_iteration : Z;
  abs_tolerance : R;
  rel_tolerance : R
}.

(** The variables that the loop of [rk_embedded] updates: the locals
    [x], [v], [t], [actual_dt] and the stage arrays [vk], [xk] (allocated
    once, before the loop). *)
Record rk_state : Type := {
  x : array;
  v : array;
  t : R;
  actual_dt : R;
  vk : list array;
  xk : list array
}.

Section Loop.
Variable p : rk_params.

Definition stages : nat := length (weights p).
Definition min_power : Z := Z.min (power p) (power_test p).
Definition error_estimation_delta_weights : list R :=
  zip_with Rminus (weights p) (weights_test p).

(** Safety factors for step-size control. *)
Definition safety_fac_max : R := 6.0.
Definition safety_fac_min : R := 0.33.
Definition safety_fac : R := Rpower 0.38 (1.0 / (1.0 + IZR min_power)).

(** [coeff[i][j]], [vk[j]]: the tableaux are rectangular and the stage
    arrays have [stages] rows, so the indices used below are in range. *)
Definition coeff_at (i j : nat) : R := nth j (nth i (coeff p) []) 0.
Definition row (a : list array) (j : nat) : array := nth j a [].

(** The loop [for j in range(stage)] accumulating [temp_v], [temp_x]. *)
Definition stage_sums (stage : nat) (vk xk : list array) : array * array :=
  fold_left
    (fun '(temp_v, temp_x) j =>
       (add temp_v (scale (coeff_at (stage - 1) j) (row vk j)),
        add temp_x (scale (coeff_at (stage - 1) j) (row xk j))))
    (seq 0 stage)
    (zeros (objects_count p * 3), zeros (objects_count p * 3)).

(** One turn of [for stage in range(1, stages)]. *)
Definition stage_step (s : rk_state) (ks : list array * list array)
    (stage : nat) : list array * list array :=
  let '(vk, xk) := ks in
  let '(temp_v, temp_x) := stage_sums stage vk xk in
  (<[stage := acceleration (objects_count p)
                (add (x s) (scale (actual_dt s) temp_x)) (m p) (G p)]> vk,
   <[stage := add (v s) (scale (actual_dt s) temp_v)]> xk).

(** "Calculate xk and vk". *)
Definition compute_stages (s : rk_state) : list array * list array :=
  fold_left (stage_step s) (seq 1 (stages - 1))
    (<[0%nat := acceleration (objects_count p) (x s) (m p) (G p)]> (vk s),
     <[0%nat := v s]> (xk s)).

(** The loop [for stage in range(stages)] accumulating [temp_v],
    [temp_x] and the two error deltas. *)
Definition weighted_sums (vk xk : list array)
    : array * array * array * array :=
  fold_left
    (fun '(temp_v, temp_x, delta_v, delta_x) stage =>
       (add temp_v (scale (nth stage (weights p) 0) (row vk stage)),
        add temp_x (scale (nth stage (weights p) 0) (row xk stage)),
        add delta_v
          (scale (nth stage error_estimation_delta_weights 0) (row vk stage)),
        add delta_x
          (scale (nth stage error_estimation_delta_weights 0) (row xk stage))))
    (seq 0 stages)
    (zeros (objects_count p * 3), zeros (objects_count p * 3),
     zeros (objects_count p * 3), zeros (objects_count p * 3)).

(** What one attempt computes before it decides: the stage arrays, the
    candidate state [x_1], [v_1] and the error estimate. *)
Record attempt : Type := {
  vk' : list array;
  xk' : list array;
  x_1 : array;
  v_1 : array;
  error : R
}.

Definition rk_attempt (s : rk_state) : attempt :=
  let '(vk, xk) := compute_stages s in
  let '(temp_v, temp_x, delta_v, delta_x) := weighted_sums vk xk in
  let v_1 := add (v s) (scale (actual_dt s) temp_v) in
  let x_1 := add (x s) (scale (actual_dt s) temp_x) in
  let error_estimation_delta_v := times delta_v (actual_dt s) in
  let error_estimation_delta_x := times delta_x (actual_dt s) in
  let tolerance_scale_v :=
    shift (abs_tolerance p)
      (times (maximum (abs (v s)) (abs v_1)) (rel_tolerance p)) in
  let tolerance_scale_x :=
    shift (abs_tolerance p)
      (times (maximum (abs (x s)) (abs x_1)) (rel_tolerance p)) in
  let sum :=
    sum (square (div error_estimation_delta_x tolerance_scale_x))
    + sum (square (div error_estimation_delta_v tolerance_scale_v)) in
  {| vk' := vk; xk' := xk; x_1 := x_1; v_1 := v_1;
     error := sqrt (sum / (INR (objects_count p) * 3 * 2)) |}.

(** [if error <= 1 or actual_dt == expected_time_scale * 1e-12]. *)
Definition accepts (error actual_dt : R) : bool :=
  Rleb error 1 || Reqb actual_dt (expected_time_scale p * 1e-12).

(** The step proposal [dt_new]. *)
Definition dt_new (error actual_dt : R) : R :=
  if Reqb error 0.0 then actual_dt
  else actual_dt * safety_fac / Rpower error (1.0 / (1.0 + IZR min_power)).

(** "Prevent dt to be too small or too large relative to the last time
    step": the [if / elif / else] on [dt_new]. *)
Definition clamp_dt (dt_new actual_dt : R) : R :=
  if Rltb (safety_fac_max * actual_dt) dt_new then safety_fac_max * actual_dt
  else if Rltb dt_new (safety_fac_min * actual_dt)
       then safety_fac_min * actual_dt
  else dt_new.

(** The value of [actual_dt] at the end of an attempt. *)
Definition next_dt (error actual_dt : R) : R :=
  let dt_new := dt_new error actual_dt in
  let clamped := clamp_dt dt_new actual_dt in
  if Rltb (dt_new / expected_time_scale p) 1e-12
  then expected_time_scale p * 1e-12
  else clamped.

(** The body of [for i in range(max_iteration)], up to the return test. *)
Definition rk_iteration (s : rk_state) : rk_state :=
  let a := rk_attempt s in
  let '(t', x', v') :=
    if accepts (error a) (actual_dt s)
    then (t s + actual_dt s, x_1 a, v_1 a)
    else (t s, x s, v s) in
  {| x := x'; v := v'; t := t';
     actual_dt := next_dt (error a) (actual_dt s);
     vk := vk' a; xk := xk' a |}.

(** [if i >= min_iteration and t > simulation_time + expected_time_scale * 1e-5]. *)
Definition returns_early (i : Z) (s : rk_state) : bool :=
  (min_iteration p <=? i)%Z
  && Rltb (simulation_time p + expected_time_scale p * 1e-5) (t s).

(** The loop, with [n] iterations left and loop index [i]. *)
Fixpoint rk_loop (n : nat) (i : Z) (s : rk_state) : rk_state :=
  match n with
  | O => s
  | S n' =>
      let s' := rk_iteration s in
      if returns_early i s' then s' else rk_loop n' (i + 1)%Z s'
  end.

End Loop.

(** [return x, v, t, actual_dt]. *)
Definition returned (s : rk_state) : array * array * R * R :=
  (x s, v s, t s, actual_dt s).

(** [rk_embedded]: "Initializing", then the loop, then the return. *)
Definition rk_embedded (p : rk_params) (x v : array) (actual_dt : R)
    : array * array * R * R :=
  let s0 :=
    {| x := x; v := v; t := simulation_time p; actual_dt := actual_dt;
       vk := repeat (zeros (objects_count p * 3)) (stages p);
       xk := repeat (zeros (objects_count p * 3)) (stages p) |} in
  returned (rk_loop p (Z.to_nat (max_iteration p)) 0 s0).

End Embedded.

(** The call of [rk_embedded] with the five values that
    [rk_embedded_butcher_tableaus] returned, converted to floating
    point numbers (here: to reals). *)
Definition with_tableau (tb : Tableaus.tableau)
    (objects_count : nat) (m : array)
    (G expected_time_scale simulation_time : R)
    (max_iteration min_iteration : Z) (abs_tolerance rel_tolerance : R)
    : rk_params :=
  {| objects_count := objects_count; m := m; G := G;
     expected_time_scale := expected_time_scale;
     simulation_time := simulation_time;
     power := Tableaus.power tb;
     power_test := Tableaus.power_test tb;
     coeff := map (map Q2R) (Tableaus.coeff tb);
     weights := map Q2R (Tableaus.weights tb);
     weights_test := map Q2R (Tableaus.weights_test tb);
     max_iteration := max_iteration; min_iteration := min_iteration;
     abs_tolerance := abs_tolerance; rel_tolerance := rel_tolerance |}.

(** RKF4(5) for one body of mass 1, with [G = 1], ten iterations at
    most, one at least, and tolerances 1e-9. *)
Definition rkf45_params (expected_time_scale : R) : rk_params :=
  with_tableau Tableaus.rkf45 1 [1] 1 expected_time_scale 0 10 1 1e-9 1e-9.

End RK.

(** ** Step-size control of [rk_embedded], over binary64 *)

Module RK64.
Local Open Scope float_scope.

(** An [int] where Python converts it to a float ([1.0 + min_power]);
    for the non-negative orders of the tableaux. *)
Definition of_int (n : Z) : float := of_uint63 (Uint63.of_Z n).

(** [min_power = min([power, power_test])]. *)
Definition min_power (power power_test : Z) : Z := Z.min power power_test.

(** "Safety factors for step-size control". *)
Definition safety_fac_max : float := 6.0.
Definition safety_fac_min : float := 0.33.

Section Pow.
(** [x ** y] on binary64 numbers, that is libm's [pow]: PrimFloat has no
    power function, and no standard fixes how [pow] rounds. *)
Variable pow : float -> float -> float.

(** [safety_fac = 0.38 ** (1.0 / (1.0 + min_power))]. *)
Definition safety_fac (min_power : Z) : float :=
  pow 0.38 (1.0 / (1.0 + of_int min_power)).

(** The step proposal [dt_new]. *)
Definition dt_new (min_power : Z) (error actual_dt : float) : float :=
  if error =? 0.0 then actual_dt
  else actual_dt * safety_fac min_power
       / pow error (1.0 / (1.0 + of_int min_power)).

End Pow.

(** "Prevent dt to be too small or too large relative to the last time
    step": the [if / elif / else] on [dt_new]. *)
Definition clamp_dt (dt_new actual_dt : float) : float :=
  if safety_fac_max * actual_dt <? dt_new then safety_fac_max * actual_dt
  else if dt_new <? safety_fac_min * actual_dt
       then safety_fac_min * actual_dt
  else dt_new.

(** [if dt_new / expected_time_scale < 1e-12:
       actual_dt = expected_time_scale * 1e-12]. *)
Definition floor_dt (expected_time_scale dt_new actual_dt : float) : float :=
  if dt_new / expected_time_scale <? 1e-12 then expected_time_scale * 1e-12
  else actual_dt.

(** The value of [actual_dt] at the end of an iteration. *)
Definition next_dt (pow : float -> float -> float) (power power_test : Z)
    (expected_time_scale error actual_dt : float) : float :=
  let dt_new := dt_new pow (min_power power power_test) error actual_dt in
  floor_dt expected_time_scale dt_new (clamp_dt dt_new actual_dt).

End RK64.

(** ** The preset catalogue ([initialize_system_numpy], [gravity_plot]),
       over binary64 *)

Module Catalog.
Import Constants.
Local Open Scope float_scope.

(** What [initialize_system_numpy] assigns: [self.x], [self.v] (arrays of
    shape (N, 3), one row per body), [self.m] and [self.objects_count]. *)
Record system : Type := {
  x : list (list float);
  v : list (list float);
  m : list float;
  objects_count : nat
}.

(** [x ** 3] for a finite [x]: libm's [pow], taken as the cube rounded
    once to the nearest binary64 number. *)
Definition cube (x : float) : float :=
  match Prim2SF x with
  | S754_finite s m e =>
      SF2Prim (binary_normalize prec emax
                 (if s then Z.neg (m * m * m) else Z.pos (m * m * m))
                 (3 * e) false)
  | _ => x * x * x
  end.

(** [CONVERSION_FACTOR = (86400**2) / (149597870.7**3)]; the numerator
    is an [int], 7464960000. *)
Definition CONVERSION_FACTOR : float := 7464960000 / cube 149597870.7.

(** The binary64 numbers that the literals of [GM_SI] denote. *)
Definition GM_SI (b : body) : float :=
  match b with
  | Sun => 132712440041.279419
  | Mercury => 22031.868551
  | Venus => 324858.592000
  | Earth => 398600.435507
  | Mars => 42828.375816
  | Jupiter => 126712764.100000
  | Saturn => 37940584.841800
  | Uranus => 5794556.400000
  | Neptune => 6836527.100580
  | Moon => 4902.800118
  | Pluto => 975.500000
  | Ceres => 62.62890
  | Vesta => 17.288245
  end.

(** [SOLAR_SYSTEM_MASSES]. *)
Definition SOLAR_SYSTEM_MASSES (b : body) : float :=
  match b with
  | Sun => 1.0
  | _ => GM_SI b / GM_SI Sun
  end.

(** [SOLAR_SYSTEM_POS] and [SOLAR_SYSTEM_VEL]. *)
Definition SOLAR_SYSTEM_POS (b : body) : list float :=
  match b with
  | Sun =>
      [(-7.967955691533730e-03); (-2.906227441573178e-03); 2.103054301547123e-04]
  | Mercury =>
      [(-2.825983269538632e-01); 1.974559795958082e-01; 4.177433558063677e-02]
  | Venus =>
      [(-7.232103701666379e-01); (-7.948302026312400e-02); 4.042871428174315e-02]
  | Earth =>
      [(-1.738192017257054e-01); 9.663245550235138e-01; 1.553901854897183e-04]
  | Mars =>
      [(-3.013262392582653e-01); (-1.454029331393295e00); (-2.300531433991428e-02)]
  | Jupiter =>
      [3.485202469657674e00; 3.552136904413157e00; (-9.271035442798399e-02)]
  | Saturn =>
      [8.988104223143450e00; (-3.719064854634689e00); (-2.931937777323593e-01)]
  | Uranus =>
      [1.226302417897505e01; 1.529738792480545e01; (-1.020549026883563e-01)]
  | Neptune =>
      [2.983501460984741e01; (-1.793812957956852e00); (-6.506401132254588e-01)]
  | Moon =>
      [(-1.762788124769829e-01); 9.674377513177153e-01; 3.236901585768862e-04]
  | Pluto =>
      [1.720200478843485e01; (-3.034155683573043e01); (-1.729127607100611e00)]
  | Ceres =>
      [(-1.103880510367569e00); (-2.533340440444230e00); 1.220283937721780e-01]
  | Vesta =>
      [(-8.092549658731499e-02); 2.558381434460076e00; (-6.695836142398572e-02)]
  end.

Definition SOLAR_SYSTEM_VEL (b : body) : list float :=
  match b with
  | Sun =>
      [4.875094764261564e-06; (-7.057133213976680e-06); (-4.573453713094512e-08)]
  | Mercury =>
      [(-2.232165900189702e-02); (-2.157207103176252e-02); 2.855193410495743e-04]
  | Venus =>
      [2.034068201002341e-03; (-2.020828626592994e-02); (-3.945639843855159e-04)]
  | Earth =>
      [(-1.723001232538228e-02); (-2.967721342618870e-03); 6.382125383116755e-07]
  | Mars =>
      [1.424832259345280e-02; (-1.579236181580905e-03); (-3.823722796161561e-04)]
  | Jupiter =>
      [(-5.470970658852281e-03); 5.642487338479145e-03; 9.896190602066252e-05]
  | Saturn =>
      [1.822013845554067e-03; 5.143470425888054e-03; (-1.617235904887937e-04)]
  | Uranus =>
      [(-3.097615358317413e-03); 2.276781932345769e-03; 4.860433222241686e-05]
  | Neptune =>
      [1.676536611817232e-04; 3.152098732861913e-03; (-6.877501095688201e-05)]
  | Moon =>
      [(-1.746667306153906e-02); (-3.473438277358121e-03); (-3.359028758606074e-05)]
  | Pluto =>
      [2.802810313667557e-03; 8.492056438614633e-04; (-9.060790113327894e-04)]
  | Ceres =>
      [8.978653480111301e-03; (-4.873256528198994e-03); (-1.807162046049230e-03)]
  | Vesta =>
      [(-1.017876585480054e-02); (-5.452367109338154e-04); 1.255870551153315e-03]
  end.

(** [CONSTANT_G = GM["Sun"]], with
    [GM["Sun"] = 132712440041.279419 * CONVERSION_FACTOR]; and
    [self.G = self.CONSTANT_G]. *)
Definition CONSTANT_G : float := GM_SI Sun * CONVERSION_FACTOR.
Definition G : float := CONSTANT_G.

(** numpy's elementwise operations on rows. *)
Definition add (a b : list float) : list float := zip_with PrimFloat.add a b.
Definition sub (a b : list float) : list float := zip_with PrimFloat.sub a b.
Definition scale (c : float) (a : list float) : list float :=
  map (PrimFloat.mul c) a.

(** [np.sum] of a one-dimensional array, adding from the left. *)
Definition np_sum (a : list float) : float := fold_left PrimFloat.add a 0.

(** The order in which numpy adds eight to fifteen entries: the first
    eight in pairs, the others from the left.  The mass arrays of the
    catalogue have the same sum in both orders. *)
Definition np_sum_blocked (a : list float) : float :=
  match a with
  | a0 :: a1 :: a2 :: a3 :: a4 :: a5 :: a6 :: a7 :: rest =>
      fold_left PrimFloat.add rest
        (((a0 + a1) + (a2 + a3)) + ((a4 + a5) + (a6 + a7)))
  | _ => np_sum a
  end.

(** [m[0] * r0 + m[1] * r1 + ...], summed from the left. *)
Definition weighted (m : list float) (rows : list (list float))
    : list float :=
  match zip_with scale m rows with
  | [] => []
  | r :: rs => fold_left add rs r
  end.

(** The cases [sun_earth_moon], [solar_system] and [solar_system_plus]:
    each spells out, for its list of bodies, the masses, the centre of
    mass [R_CM], [V_CM], and the rows [POS[b] - R_CM], [VEL[b] - V_CM]. *)
Definition barycentric (bodies : list body) : system :=
  let m := map SOLAR_SYSTEM_MASSES bodies in
  let R_CM := scale (1 / np_sum m) (weighted m (map SOLAR_SYSTEM_POS bodies)) in
  let V_CM := scale (1 / np_sum m) (weighted m (map SOLAR_SYSTEM_VEL bodies)) in
  {| x := map (fun b => sub (SOLAR_SYSTEM_POS b) R_CM) bodies;
     v := map (fun b => sub (SOLAR_SYSTEM_VEL b) V_CM) bodies;
     m := m;
     objects_count := length bodies |}.

(** The pre-defined systems of [match self.system]. *)
Definition initialize_system_numpy (system_name : string) : option system :=
  if String.eqb system_name "circular_binary_orbit" then
    let R1 := [1.0; 0.0; 0.0] in
    let R2 := [-1.0; 0.0; 0.0] in
    let V1 := [0.0; 0.5; 0.0] in
    let V2 := [0.0; -0.5; 0.0] in
    Some {| x := [R1; R2]; v := [V1; V2];
            m := [1.0 / G; 1.0 / G]; objects_count := 2 |}
  else if String.eqb system_name "eccentric_binary_orbit" then
    let R1 := [1.0; 0.0; 0.0] in
    let R2 := [-1.25; 0.0; 0.0] in
    let V1 := [0.0; 0.5; 0.0] in
    let V2 := [0.0; -0.625; 0.0] in
    Some {| x := [R1; R2]; v := [V1; V2];
            m := [1.0 / G; 0.8 / G]; objects_count := 2 |}
  else if String.eqb system_name "3d_helix" then
    let R1 := [0.0; 0.0; -1.0] in
    let R2 := [(- PrimFloat.sqrt 3.0) / 2.0; 0.0; 0.5] in
    let R3 := [PrimFloat.sqrt 3.0 / 2.0; 0.0; 0.5] in
    let v0 := PrimFloat.sqrt (1.0 / PrimFloat.sqrt 3) in
    let V1 := [- v0; 0.5; 0.0] in
    let V2 := [0.5 * v0; 0.5; (PrimFloat.sqrt 3.0 / 2.0) * v0] in
    let V3 := [0.5 * v0; 0.5; (- (PrimFloat.sqrt 3.0 / 2.0)) * v0] in
    Some {| x := [R1; R2; R3]; v := [V1; V2; V3];
            m := [1.0 / G; 1.0 / G; 1.0 / G]; objects_count := 3 |}
  else if String.eqb system_name "sun_earth_moon" then
    Some (barycentric [Sun; Earth; Moon])
  else if String.eqb system_name "figure-8" then
    let R1 := [0.970043; -0.24308753; 0.0] in
    let R2 := [-0.970043; 0.24308753; 0.0] in
    let R3 := [0.0; 0.0; 0.0] in
    let V1 := [0.466203685; 0.43236573; 0.0] in
    let V2 := [0.466203685; 0.43236573; 0.0] in
    let V3 := [-0.93240737; -0.86473146; 0.0] in
    Some {| x := [R1; R2; R3]; v := [V1; V2; V3];
            m := [1.0 / G; 1.0 / G; 1.0 / G]; objects_count := 3 |}
  else if String.eqb system_name "pyth-3-body" then
    let R1 := [1.0; 3.0; 0.0] in
    let R2 := [-2.0; -1.0; 0.0] in
    let R3 := [1.0; -1.0; 0.0] in
    let V1 := [0.0; 0.0; 0.0] in
    let V2 := [0.0; 0.0; 0.0] in
    let V3 := [0.0; 0.0; 0.0] in
    Some {| x := [R1; R2; R3]; v := [V1; V2; V3];
            m := [3.0 / G; 4.0 / G; 5.0 / G]; objects_count := 3 |}
  else if String.eqb system_name "solar_system" then
    Some (barycentric
            [Sun; Mercury; Venus; Earth; Mars; Jupiter; Saturn; Uranus; Neptune])
  else if String.eqb system_name "solar_system_plus" then
    Some (barycentric
            [Sun; Mercury; Venus; Earth; Mars; Jupiter; Saturn; Uranus; Neptune;
             Pluto; Ceres; Vesta])
  else None.

(** The names of the preset systems. *)
Definition presets : list string :=
  ["circular_binary_orbit"; "eccentric_binary_orbit"; "3d_helix";
   "sun_earth_moon"; "figure-8"; "pyth-3-body"; "solar_system";
   "solar_system_plus"]%string.

(** The rational number that a finite binary64 number is. *)
Definition exact (f : float) : Q :=
  match Prim2SF f with
  | S754_finite s m e =>
      ((if s then Z.neg m else Z.pos m) # 1) * 2 ^ e
  | _ => 0
  end%Q.

(** Every entry of the arrays is a finite number. *)
Definition finite (s : system) : bool :=
  forallb (forallb is_finite) (x s) && forallb (forallb is_finite) (v s)
  && forallb is_finite (m s).

(** The mass-weighted sum of the rows, [sum_i m_i * r_i]: its three
    components, as the exact sums of the numbers in the arrays. *)
Definition moment (m : list float) (rows : list (list float)) : list Q :=
  map (fun j =>
         fold_right Qplus 0%Q
           (zip_with (fun mi r => (exact mi * exact (nth j r 0%float))%Q)
              m rows))
      [0%nat; 1%nat; 2%nat].

(** The total mass, [sum_i m_i]. *)
Definition total_mass (m : list float) : Q :=
  fold_right Qplus 0%Q (map exact m).

(** A moment that is zero up to rounding: divided by the total mass,
    that is as the centre of mass or its velocity, no component of it
    is above [1e-16] in magnitude. *)
Definition negligible (m : list float) (q : list Q) : Prop :=
  Forall (fun c => (- (1e-16 * total_mass m) <= c
                    /\ c <= 1e-16 * total_mass m)%Q) q.

(** A number of the catalogue against the decimal numeral [q] that the
    source writes for it: the nearest binary64 number is within
    [2^-53 * |q|] of [q]. *)
Definition denotes (f : float) (q : Q) : Prop :=
  ((exact f - q) * (exact f - q)
   <= (q * (1 # 2 ^ 53)) * (q * (1 # 2 ^ 53)))%Q.

End Catalog.

(** ** Total energy, over binary64 *)

Module Energy.
Local Open Scope float_scope.

(** A one-dimensional numpy array of binary64 numbers. *)
Definition farray : Type := list float.

Definition fsub (a b : farray) : farray := zip_with PrimFloat.sub a b.

(** [np.linalg.norm] of a one-dimensional array: the square root of the
    sum of the squares. *)
Definition norm (r : farray) : float :=
  PrimFloat.sqrt (fold_left PrimFloat.add (map (fun c => c * c) r) 0).

(** [a ** 2]. *)
Definition sq (a : float) : float := a * a.

Definition at_ (a : farray) (i : nat) : float := nth i a 0.
Definition row (a : list farray) (i : nat) : farray := nth i a [].

(** The slice [a[lo:hi]]. *)
Definition slice (a : farray) (lo hi : nat) : farray :=
  take (hi - lo) (drop lo a).

(** The distance that [total_energy] computes for the pair [(j, k)] of
    rows of [x] is exactly zero. *)
Definition coincide (x : list farray) (j k : nat) : Prop :=
  (norm (fsub (row x j) (row x k)) =? 0) = true.

(** *** [total_energy] of [gravity_sim/simulator.py] *)

(** A loop either goes on with its accumulator or has executed
    [return r]. *)
Inductive flow : Type :=
| Next (E : float)
| Return (r : float).

Section TotalEnergy.
Variables (objects_count : nat) (x v : list farray) (m : farray) (G : float).

(** One turn of [for k in range(0, objects_count)], for body [j]. *)
Definition pair_step (j : nat) (E : float) (k : nat) : flow :=
  if (j <? k)%nat then
    let R := fsub (row x j) (row x k) in
    let norm := norm R in
    if negb (norm =? 0) then Next (E - G * at_ m j * at_ m k / norm)
    else Return nan
  else Next E.

Fixpoint pairs_loop (j : nat) (ks : list nat) (E : float) : flow :=
  match ks with
  | [] => Next E
  | k :: ks' =>
      match pair_step j E k with
      | Next E' => pairs_loop j ks' E'
      | Return r => Return r
      end
  end.

(** [for j in range(0, objects_count)]. *)
Fixpoint bodies_loop (js : list nat) (E : float) : flow :=
  match js with
  | [] => Next E
  | j :: js' =>
      let E1 := E + 0.5 * at_ m j * sq (norm (row v j)) in
      match pairs_loop j (seq 0 objects_count) E1 with
      | Next E2 => bodies_loop js' E2
      | Return r => Return r
      end
  end.

Definition total_energy : float :=
  match bodies_loop (seq 0 objects_count) 0 with
  | Next E => E
  | Return r => r
  end.

End TotalEnergy.

(** *** [Simulator.compute_energy] of [gravity_plot/simulator.py], the
    branch [self.is_c_lib == False] *)

Section ComputeEnergy.
Variables (objects_count : nat) (m : farray) (G : float).

(** [for j in range(i + 1, self.objects_count)], on the flattened state
    [x = self.sol_state[count]]. *)
Definition potential_loop (x : farray) (i : nat) (E : float) : float :=
  fold_left
    (fun E j =>
       E - G * at_ m i * at_ m j
           / norm (fsub (slice x (i * 3) ((i + 1) * 3))
                        (slice x (j * 3) ((j + 1) * 3))))
    (seq (i + 1) (objects_count - (i + 1))) E.

(** [for i in range(self.objects_count)]: the value of
    [self.energy[count]], which starts at zero. *)
Definition sample_energy (x : farray) : float :=
  fold_left
    (fun E i =>
       let E1 :=
         E + 0.5 * at_ m i
             * sq (norm (slice x ((objects_count + i) * 3)
                                 ((objects_count + 1 + i) * 3))) in
       potential_loop x i E1)
    (seq 0 objects_count) 0.

(** The array [self.energy] after the loop over the samples. *)
Definition compute_energy (sol_state : list farray) : farray :=
  map sample_energy sol_state.

End ComputeEnergy.

End Energy.

(** ** Trimming the stored trajectory ([trim_data]) *)

Module Trim.
Local Open Scope float_scope.
Import Energy.

(** The arrays that [trim_data] reads and replaces; [energy] is present
    when [self.computed_energy] holds. *)
Record buffers : Type := {
  sol_time : farray;
  sol_dt : farray;
  sol_state : list farray;
  energy : option farray
}.

(** [a[-1]]. *)
Definition last_f (a : farray) : float := nth (length a - 1) a 0.
Definition last_row (a : list farray) : farray := nth (length a - 1) a [].
(** [a[-1] = y]. *)
Definition set_last {A : Type} (a : list A) (y : A) : list A :=
  <[(length a - 1)%nat := y]> a.

(** [math.ceil(self.data_size / desired_trim_size)]. *)
Definition divide_factor (data_size desired_trim_size : Z) : Z :=
  Qceiling (inject_Z data_size / inject_Z desired_trim_size).

(** [math.floor(self.data_size / divide_factor) + 1]. *)
Definition trim_size (data_size divide_factor : Z) : Z :=
  (Qfloor (inject_Z data_size / inject_Z divide_factor) + 1)%Z.

Section TrimData.
Variables (objects_count : nat) (b : buffers).

(** The zero-filled arrays of length [trim_size]. *)
Definition trimmed_init (trim_size : nat) : buffers :=
  {| sol_time := repeat 0 trim_size;
     sol_dt := repeat 0 trim_size;
     sol_state := repeat (repeat 0 (objects_count * 3 * 2)) trim_size;
     energy :=
       match energy b with
       | Some _ => Some (repeat 0 trim_size)
       | None => None
       end |}.

(** One turn of [for i in range(self.data_size)]: a sample whose index
    is a multiple of [divide_factor] is copied to slot [j]. *)
Definition copy_step (divide_factor : Z) (acc : nat * buffers) (i : nat)
    : nat * buffers :=
  let '(j, t) := acc in
  if (Z.of_nat i mod divide_factor =? 0)%Z then
    (S j,
     {| sol_time := <[j := at_ (sol_time b) i]> (sol_time t);
        sol_dt := <[j := at_ (sol_dt b) i]> (sol_dt t);
        sol_state := <[j := row (sol_state b) i]> (sol_state t);
        energy :=
          match energy b, energy t with
          | Some e, Some te => Some (<[j := at_ e i]> te)
          | _, _ => energy t
          end |})
  else acc.

Definition copy_loop (data_size : nat) (divide_factor : Z) (trim_size : nat)
    : nat * buffers :=
  fold_left (copy_step divide_factor) (seq 0 data_size)
    (0%nat, trimmed_init trim_size).

(** [if trimmed_sol_time[-1] != self.simulator.sol_time[-1]]: overwrite
    the last slot with the last sample. *)
Definition force_last (t : buffers) : buffers :=
  if negb (last_f (sol_time t) =? last_f (sol_time b)) then
    {| sol_time := set_last (sol_time t) (last_f (sol_time b));
       sol_dt := set_last (sol_dt t) (last_f (sol_dt b));
       sol_state := set_last (sol_state t) (last_row (sol_state b));
       energy :=
         match energy b, energy t with
         | Some e, Some te => Some (set_last te (last_f e))
         | _, _ => energy t
         end |}
  else t.

(** [trim_data] once the user has confirmed [desired_trim_size]: the
    buffers that replace the old ones; the new [self.data_size] is the
    length of their [sol_time]. *)
Definition trim_data (data_size desired_trim_size : Z) : buffers :=
  let divide_factor := divide_factor data_size desired_trim_size in
  let trim_size := trim_size data_size divide_factor in
  force_last
    (snd (copy_loop (Z.to_nat data_size) divide_factor (Z.to_nat trim_size))).

End TrimData.

(** *** One column of the copy loop, and whole samples *)

Section Column.
Context {A : Type}.
Variables (get : nat -> A) (zero : A) (D : nat).

(** What [copy_step] does to the slot counter and to one of the
    arrays. *)
Definition col_step (acc : nat * list A) (i : nat) : nat * list A :=
  let '(j, l) := acc in
  if (Z.of_nat i mod Z.of_nat D =? 0)%Z then (S j, <[j := get i]> l) else acc.

Definition col_loop (data_size n : nat) : nat * list A :=
  fold_left col_step (seq 0 data_size) (0%nat, repeat zero n).

(** After [k] turns: slot [q] is below the counter exactly when sample
    [q * D] has been visited; the slots below the counter hold these
    samples, the others still hold zero. *)
Definition col_inv (k n : nat) (acc : nat * list A) : Prop :=
  let '(j, l) := acc in
  (forall q, q < j <-> q * D < k)%nat
  /\ length l = n
  /\ (forall q, (q < j)%nat -> (q < n)%nat -> l !! q = Some (get (q * D)%nat))
  /\ (forall q, (j <= q)%nat -> (q < n)%nat -> l !! q = Some zero).

End Column.

(** Entry [i] of the buffers, across the arrays. *)
Definition sample (b : buffers) (i : nat)
    : float * float * farray * option float :=
  (at_ (sol_time b) i, at_ (sol_dt b) i, row (sol_state b) i,
   option_map (fun e => at_ e i) (energy b)).

(** All arrays of the buffers have [size] entries. *)
Definition well_formed (b : buffers) (size : nat) : Prop :=
  length (sol_time b) = size
  /\ length (sol_dt b) = size
  /\ length (sol_state b) = size
  /\ (forall e, energy b = Some e -> length e = size).

(** The time of the last sample compares unequal ([!=]) to zero and to
    the time of every earlier sample. *)
Definition terminal_time_distinct (b : buffers) (size : nat) : Prop :=
  (0 =? at_ (sol_time b) (size - 1))%float = false
  /\ (forall i, (i < size - 1)%nat ->
        (at_ (sol_time b) i =? at_ (sol_time b) (size - 1))%float = false).

End Trim.

(** ** [rk_embedded] on a store of numpy arrays

    The second embedding of [rk_embedded] keeps the arrays where Python
    keeps them: in objects that variables refer to and that statements
    such as [temp_v += ...], [vk[stage] = ...] and [a *= c] update in
    place.  The scalar decisions ([accepts], [next_dt]) are those of
    [RK]. *)

Module Heap.
Import Np.
Local Open Scope R_scope.

(** An array object: a flattened (N, 3) or (N,) array, or an array of
    shape (stages, N, 3) kept as its [stages] rows. *)
Inductive obj : Type :=
| Arr (a : array)
| Stack (rows : list array).

Definition loc : Type := nat.
Definition heap : Type := list obj.

(** Computations that read and update the store. *)
Definition M (A : Type) : Type := heap -> A * heap.

#[global] Instance M_ret : MRet M := fun A a h => (a, h).
#[global] Instance M_bind : MBind M :=
  fun A B k c h => let '(a, h') := c h in k a h'.

(** A new object; its reference is returned. *)
Definition alloc (o : obj) : M loc := fun h => (length h, h ++ [o]).

(** The value of the array that [l] refers to. *)
Definition read (l : loc) : M array :=
  fun h => (match h !! l with Some (Arr a) => a | _ => [] end, h).

(** The value of [a[j]] for the stage array that [l] refers to. *)
Definition read_row (l : loc) (j : nat) : M array :=
  fun h => (match h !! l with Some (Stack rs) => nth j rs [] | _ => [] end, h).

(** Overwrite the data of the array that [l] refers to. *)
Definition write (l : loc) (a : array) : M unit :=
  fun h => (tt, match h !! l with
                | Some (Arr _) => <[l := Arr a]> h
                | _ => h
                end).

(** [a[j] = r] for the stage array that [l] refers to. *)
Definition write_row (l : loc) (j : nat) (r : array) : M unit :=
  fun h => (tt, match h !! l with
                | Some (Stack rs) => <[l := Stack (<[j := r]> rs)]> h
                | _ => h
                end).

(** [np.zeros((n, 3))] and [np.zeros((stages, n, 3))]. *)
Definition np_zeros (n : nat) : M loc := alloc (Arr (zeros (n * 3))).
Definition np_zeros_stack (stages n : nat) : M loc :=
  alloc (Stack (repeat (zeros (n * 3)) stages)).

(** [a += r] and [a *= c]. *)
Definition iadd (a : loc) (r : array) : M unit :=
  av ← read a; write a (add av r).
Definition imul (a : loc) (c : R) : M unit :=
  av ← read a; write a (times av c).

(** [for i in l: body(i)]. *)
Fixpoint for_each {A : Type} (l : list A) (body : A -> M unit) : M unit :=
  match l with
  | [] => mret tt
  | i :: l' => body i;; for_each l' body
  end.

Section Embedded.

(** Modelled from the spec: [common.acceleration], whose definition is
    not part of the source, is by section 4.A a function that is given
    N, the positions, the masses and G and returns the accelerations: it
    reads the arrays [x] and [m] and returns a new array. *)
Variable acceleration : nat -> array -> array -> R -> array.
Variable p : RK.rk_params.

Local Abbreviation N := (RK.objects_count p).
Local Abbreviation stages := (RK.stages p).

(** The local variables [x], [v], [t], [actual_dt]. *)
Definition locals : Type := loc * loc * R * R.

(** The body of [for stage in range(1, stages)]. *)
Definition stage_body (vk xk m x v : loc) (actual_dt : R) (stage : nat)
    : M unit :=
  temp_v ← np_zeros N;
  temp_x ← np_zeros N;
  for_each (seq 0 stage) (fun j =>
    vkj ← read_row vk j;
    iadd temp_v (scale (RK.coeff_at p (stage - 1) j) vkj);;
    xkj ← read_row xk j;
    iadd temp_x (scale (RK.coeff_at p (stage - 1) j) xkj));;
  xv ← read x; tx ← read temp_x; mv ← read m;
  write_row vk stage
    (acceleration N (add xv (scale actual_dt tx)) mv (RK.G p));;
  vv ← read v; tv ← read temp_v;
  write_row xk stage (add vv (scale actual_dt tv)).

(** The body of [for i in range(max_iteration)], up to the return test. *)
Definition iteration (vk xk m : loc) (s : locals) : M locals :=
  let '(x, v, t, actual_dt) := s in
  (* Calculate xk and vk *)
  xv ← read x; mv ← read m;
  write_row vk 0 (acceleration N xv mv (RK.G p));;
  vv ← read v;
  write_row xk 0 vv;;
  for_each (seq 1 (stages - 1)) (stage_body vk xk m x v actual_dt);;
  (* Calculate x_1, v_1 and also delta x, delta v for error estimation *)
  temp_v ← np_zeros N;
  temp_x ← np_zeros N;
  error_estimation_delta_x ← np_zeros N;
  error_estimation_delta_v ← np_zeros N;
  for_each (seq 0 stages) (fun stage =>
    vks ← read_row vk stage;
    xks ← read_row xk stage;
    iadd temp_v (scale (nth stage (RK.weights p) 0) vks);;
    iadd temp_x (scale (nth stage (RK.weights p) 0) xks);;
    iadd error_estimation_delta_v
      (scale (nth stage (RK.error_estimation_delta_weights p) 0) vks);;
    iadd error_estimation_delta_x
      (scale (nth stage (RK.error_estimation_delta_weights p) 0) xks));;
  vv ← read v; tv ← read temp_v;
  v_1 ← alloc (Arr (add vv (scale actual_dt tv)));
  xv ← read x; tx ← read temp_x;
  x_1 ← alloc (Arr (add xv (scale actual_dt tx)));
  imul error_estimation_delta_v actual_dt;;
  imul error_estimation_delta_x actual_dt;;
  (* Error calculation *)
  v1v ← read v_1; x1v ← read x_1;
  dx ← read error_estimation_delta_x;
  dv ← read error_estimation_delta_v;
  let tolerance_scale_v :=
    shift (RK.abs_tolerance p)
      (times (maximum (abs vv) (abs v1v)) (RK.rel_tolerance p)) in
  let tolerance_scale_x :=
    shift (RK.abs_tolerance p)
      (times (maximum (abs xv) (abs x1v)) (RK.rel_tolerance p)) in
  let sum :=
    sum (square (div dx tolerance_scale_x))
    + sum (square (div dv tolerance_scale_v)) in
  let error := sqrt (sum / (INR N * 3 * 2)) in
  let '(t', x', v') :=
    if RK.accepts p error actual_dt
    then (t + actual_dt, x_1, v_1)
    else (t, x, v) in
  mret (x', v', t', RK.next_dt p error actual_dt).

(** [if i >= min_iteration and t > simulation_time + expected_time_scale * 1e-5]. *)
Definition returns_early (i : Z) (s : locals) : bool :=
  let '(_, _, t, _) := s in
  (RK.min_iteration p <=? i)%Z
  && Rltb (RK.simulation_time p + RK.expected_time_scale p * 1e-5) t.

Fixpoint loop (vk xk m : loc) (n : nat) (i : Z) (s : locals) : M locals :=
  match n with
  | O => mret s
  | S n' =>
      s' ← iteration vk xk m s;
      if returns_early i s' then mret s' else loop vk xk m n' (i + 1)%Z s'
  end.

(** [rk_embedded], called with references [x], [v], [m] to the caller's
    arrays; it returns [x, v, t, actual_dt]. *)
Definition rk_embedded (x v m : loc) (actual_dt : R) : M locals :=
  vk ← np_zeros_stack stages N;
  xk ← np_zeros_stack stages N;
  loop vk xk m (Z.to_nat (RK.max_iteration p)) 0
    (x, v, RK.simulation_time p, actual_dt).

End Embedded.

(** The store [h'] keeps every object of the store [h] as it was. *)
Definition unchanged (h h' : heap) : Prop :=
  forall l : loc, (l < length h)%nat -> h' !! l = h !! l.

(** *** Auxiliary notions: frames, weakest preconditions *)

(** Run from a store with at least [n0] objects, the computation [c]
    only adds objects, keeps the first [n0] as they are, and returns a
    value that satisfies [Q]. *)
Definition frames {A : Type} (n0 : nat) (c : M A) (Q : A -> Prop) : Prop :=
  forall h : heap,
    (n0 <= length h)%nat ->
    (length h <= length (snd (c h)))%nat
    /\ (forall l : loc, (l < n0)%nat -> snd (c h) !! l = h !! l)
    /\ Q (fst (c h)).

Definition any {A : Type} : A -> Prop := fun _ => True.
Definition fresh (n0 : nat) : loc -> Prop := fun l => (n0 <= l)%nat.

(** [c], run from [h], ends with a value and a store that satisfy [Q]. *)
Definition wp {A : Type} (c : M A) (Q : A -> heap -> Prop) (h : heap) : Prop :=
  Q (fst (c h)) (snd (c h)).

(** The store [h'] is [h] with the object at [l] replaced by [o]. *)
Definition updated (h : heap) (l : loc) (o : obj) (h' : heap) : Prop :=
  length h' = length h
  /\ h' !! l = Some o
  /\ (forall l', l' <> l -> h' !! l' = h !! l').

(** The store [h'] is [h] with the new object [o] at [l]. *)
Definition extended (h : heap) (l : loc) (o : obj) (h' : heap) : Prop :=
  l = length h
  /\ length h' = S (length h)
  /\ h' !! l = Some o
  /\ (forall l', (l' < length h)%nat -> h' !! l' = h !! l').

(** The turn of the inner loop of [RK.stage_sums]. *)
Definition sums_step (p : RK.rk_params) (stage : nat) (vks xks : list array)
    (acc : array * array) (j : nat) : array * array :=
  (add (fst acc) (scale (RK.coeff_at p (stage - 1) j) (RK.row vks j)),
   add (snd acc) (scale (RK.coeff_at p (stage - 1) j) (RK.row xks j))).

(** The turn of the loop of [RK.weighted_sums]. *)
Definition weights_step (p : RK.rk_params) (vks xks : list array)
    (acc : array * array * array * array) (stage : nat)
    : array * array * array * array :=
  (add (fst (fst (fst acc)))
     (scale (nth stage (RK.weights p) 0%R) (RK.row vks stage)),
   add (snd (fst (fst acc)))
     (scale (nth stage (RK.weights p) 0%R) (RK.row xks stage)),
   add (snd (fst acc))
     (scale (nth stage (RK.error_estimation_delta_weights p) 0%R)
        (RK.row vks stage)),
   add (snd acc)
     (scale (nth stage (RK.error_estimation_delta_weights p) 0%R)
        (RK.row xks stage))).

(** What the references of an iteration refer to, in terms of the state
    [s] of the loop of [RK.rk_embedded]. *)
Definition arrays_at (p : RK.rk_params) (h : heap) (x v m : loc)
    (s : RK.rk_state) : Prop :=
  h !! x = Some (Arr (RK.x s))
  /\ h !! v = Some (Arr (RK.v s))
  /\ h !! m = Some (Arr (RK.m p)).

End Heap.

(** ** Reference motions for the integrator

    What the stage arrays and the state of [rk_embedded] are compared
    with, in exact arithmetic: a system without forces and a system in a
    uniform field. *)

Module Motion.
Import Np RK.
Local Open Scope R_scope.

(** The same call with another [max_iteration]. *)
Definition with_max_iteration (p : rk_params) (n : Z) : rk_params :=
  {| objects_count := objects_count p; m := m p; G := G p;
     expected_time_scale := expected_time_scale p;
     simulation_time := simulation_time p;
     power := power p; power_test := power_test p;
     coeff := coeff p; weights := weights p;
     weights_test := weights_test p;
     max_iteration := n; min_iteration := min_iteration p;
     abs_tolerance := abs_tolerance p; rel_tolerance := rel_tolerance p |}.

(** The stage arrays of a system without forces: the first [k] rows of
    [vk] are zero and the first [k] rows of [xk] are the velocities
    [v]. *)
Definition free_rows (p : rk_params) (v : array) (k : nat)
    (ks : list array * list array) : Prop :=
  length (fst ks) = stages p /\ length (snd ks) = stages p
  /\ forall j, (j < k)%nat ->
       fst ks !! j = Some (zeros (objects_count p * 3)) /\ snd ks !! j = Some v.

(** The state of a system that left [(x0, v0)] at [simulation_time] and
    moved freely since, the step being [h]. *)
Definition on_the_line (p : rk_params) (x0 v0 : array) (h : R)
    (s : rk_state) : Prop :=
  x s = add x0 (scale (t s - simulation_time p) v0)
  /\ v s = v0
  /\ actual_dt s = h
  /\ length (vk s) = stages p /\ length (xk s) = stages p.

(** The sum of the coefficients that [rk_embedded] uses for a stage:
    [coeff[stage - 1][j]] for [j] in [range(stage)]. *)
Definition stage_node (p : rk_params) (stage : nat) : R :=
  sum (map (coeff_at p (stage - 1)) (seq 0 stage)).

(** [sum_s w[s] * stage_node(s)] over the stages. *)
Definition moment (p : rk_params) (w : list R) : R :=
  sum (map (fun s => nth s w 0 * stage_node p s) (seq 0 (stages p))).

(** The same two sums over the rationals of a tableau. *)
Definition stage_node_Q (tb : Tableaus.tableau) (stage : nat) : Q :=
  Tableaus.Qsum
    (map (fun j => nth j (nth (stage - 1) (Tableaus.coeff tb) []) 0%Q)
       (seq 0 stage)).

Definition moment_Q (tb : Tableaus.tableau) (w : list Q) : Q :=
  Tableaus.Qsum
    (map (fun s => (nth s w 0 * stage_node_Q tb s)%Q)
       (seq 0 (length (Tableaus.weights tb)))).

(** The stage arrays of a system in a uniform field [a0]: with the step
    [h] and the velocities [v], the first [k] rows of [vk] are [a0] and
    row [j] of [xk] is [v + h * stage_node(j) * a0]. *)
Definition uniform_rows (p : rk_params) (a0 v : array) (h : R) (k : nat)
    (ks : list array * list array) : Prop :=
  length (fst ks) = stages p /\ length (snd ks) = stages p
  /\ forall j, (j < k)%nat ->
       fst ks !! j = Some a0
       /\ snd ks !! j = Some (add v (scale (h * stage_node p j) a0)).

End Motion.

(** ** The shape of the arrays of a state *)

Module States.
Import Energy.

(** A state of [n] bodies: [n] rows of three coordinates. *)
Definition rows3 (n : nat) (a : list farray) : Prop :=
  length a = n /\ Forall (fun r => length r = 3%nat) a.

End States.

(** ** The prompts of [trim_data] ([gravity_plot/__main__.py]) *)

Module TrimUI.
Import Energy Trim.

(** What the user types at the prompt
    [Enter desired data size (Enter "cancel" to cancel)], after
    [.strip().lower()]: the word "cancel", the text of an integer, or a
    text that [int] rejects with [ValueError]. *)
Inductive typed : Type :=
| Cancel
| Number (desired_trim_size : Z)
| Invalid.

(** How the first part of [trim_data] ("Get user input") ends. *)
Inductive request : Type :=
| Keep                                  (* is_trim_data = False *)
| Cut (divide_factor trim_size : Z).    (* is_trim_data = True *)

(** The loop [while True] of [Plotter.trim_data] ([gravity_plot]).
    [lines] are the texts typed at the size prompt and [answers] the
    answers that [ask_user_permission] returns, in the order in which
    the program asks for them.  [None]: the input has ended before the
    loop has. *)
Fixpoint get_user_input (data_size : Z) (lines : list typed)
    (answers : list bool) : option request :=
  match lines with
  | [] => None
  | Cancel :: _ => Some Keep
  | Invalid :: lines' => get_user_input data_size lines' answers
  | Number desired_trim_size :: lines' =>
      if (desired_trim_size >? data_size)%Z then
        get_user_input data_size lines' answers
      else if (desired_trim_size =? data_size)%Z then
        match answers with
        | [] => None
        | true :: _ => Some Keep
        | false :: answers' => get_user_input data_size lines' answers'
        end
      else if (desired_trim_size <? 2)%Z then
        get_user_input data_size lines' answers
      else
        let divide_factor := divide_factor data_size desired_trim_size in
        let trim_size := trim_size data_size divide_factor in
        match answers with
        | [] => None
        | true :: _ => Some (Cut divide_factor trim_size)
        | false :: answers' => get_user_input data_size lines' answers'
        end
  end.

(** [Plotter.trim_data]: the buffers and [self.data_size] when it
    returns. *)
Definition Plotter_trim_data (objects_count : nat) (b : buffers)
    (data_size : Z) (lines : list typed) (answers : list bool)
    : option (buffers * Z) :=
  match get_user_input data_size lines answers with
  | None => None
  | Some Keep => Some (b, data_size)
  | Some (Cut divide_factor trim_size) =>
      let t :=
        force_last b
          (snd (copy_loop objects_count b (Z.to_nat data_size) divide_factor
                  (Z.to_nat trim_size))) in
      Some (t, Z.of_nat (length (sol_time t)))
  end.

End TrimUI.

(** ** Loops that can raise *)

Module Control.

(** A [for] loop whose body can raise: the statements after the one
    that raises are not executed. *)
Fixpoint foldM {S A : Type} (body : S -> A -> option S) (l : list A) (s : S)
    : option S :=
  match l with
  | [] => Some s
  | a :: l' => s' ← body s a; foldM body l' s'
  end.

End Control.

(** ** The sprites and the arrays of the simulator
       ([gravity_sim/simulator.py]) *)

Module Sprites.
Import Energy Control.
Local Open Scope float_scope.

(** The dictionary [params] of a [Grav_obj]: the entries ["r1"], ["r2"],
    ["r3"], ["v1"], ["v2"], ["v3"], ["m"], ["R"] and whatever else it
    holds. *)
Definition params : Type := gmap string float.

(** [grav_sim.grav_objs.sprites()[j].params[key]]; [None] when the list
    has no sprite [j] (IndexError) or the dictionary no such key
    (KeyError). *)
Definition param (sprites : list params) (j : nat) (key : string)
    : option float :=
  sprite ← sprites !! j; sprite !! key.

(** The arrays [self.x], [self.v] (shape (N, 3)) and [self.m]. *)
Definition arrays : Type := (list farray * list farray * farray)%type.

(** One turn of the loop of [initialize_problem]. *)
Definition initialize_body (sprites : list params) (a : arrays) (j : nat)
    : option arrays :=
  let '(x, v, m) := a in
  r1 ← param sprites j "r1";
  r2 ← param sprites j "r2";
  r3 ← param sprites j "r3";
  v1 ← param sprites j "v1";
  v2 ← param sprites j "v2";
  v3 ← param sprites j "v3";
  mj ← param sprites j "m";
  Some (<[j := [r1; r2; r3]]> x, <[j := [v1; v2; v3]]> v, <[j := mj]> m).

(** [Simulator.initialize_problem]: "Initialize x, v and m". *)
Definition initialize_problem (objects_count : nat) (sprites : list params)
    : option arrays :=
  foldM (initialize_body sprites) (seq 0 objects_count)
    (repeat [0; 0; 0] objects_count, repeat [0; 0; 0] objects_count,
     repeat 0 objects_count).

(** [a[j][i]] for an array of shape (N, 3); [None] when an index is out
    of range. *)
Definition entry (a : list farray) (j i : nat) : option float :=
  r ← a !! j; r !! i.

(** One turn of the loop of [unload_value]: six assignments to entries
    of [sprites()[j].params]. *)
Definition unload_body (x v : list farray) (sprites : list params) (j : nat)
    : option (list params) :=
  x0 ← entry x j 0; sprite ← sprites !! j;
  let sprites := <[j := <["r1" := x0]> sprite]> sprites in
  x1 ← entry x j 1; sprite ← sprites !! j;
  let sprites := <[j := <["r2" := x1]> sprite]> sprites in
  x2 ← entry x j 2; sprite ← sprites !! j;
  let sprites := <[j := <["r3" := x2]> sprite]> sprites in
  v0 ← entry v j 0; sprite ← sprites !! j;
  let sprites := <[j := <["v1" := v0]> sprite]> sprites in
  v1 ← entry v j 1; sprite ← sprites !! j;
  let sprites := <[j := <["v2" := v1]> sprite]> sprites in
  v2 ← entry v j 2; sprite ← sprites !! j;
  Some (<[j := <["v3" := v2]> sprite]> sprites).

(** [Simulator.unload_value]: "Unload the position and velocity values
    back the to main system". *)
Definition unload_value (objects_count : nat) (x v : list farray)
    (sprites : list params) : option (list params) :=
  foldM (unload_body x v) (seq 0 objects_count) sprites.

(** Sprite [j] holds row [j] of [x] and of [v] and entry [j] of [m]. *)
Definition loaded (sprites : list params) (a : arrays) (j : nat) : Prop :=
  let '(x, v, m) := a in
  exists r1 r2 r3 v1 v2 v3 mj,
    x !! j = Some [r1; r2; r3] /\ v !! j = Some [v1; v2; v3]
    /\ m !! j = Some mj
    /\ param sprites j "r1" = Some r1 /\ param sprites j "r2" = Some r2
    /\ param sprites j "r3" = Some r3 /\ param sprites j "v1" = Some v1
    /\ param sprites j "v2" = Some v2 /\ param sprites j "v3" = Some v3
    /\ param sprites j "m" = Some mj.

(** After [k] turns of the loop of [initialize_problem] the arrays
    still have [n] rows and the first [k] bodies are loaded. *)
Definition loaded_upto (sprites : list params) (n k : nat) (a : arrays)
    : Prop :=
  let '(x, v, m) := a in
  length x = n /\ length v = n /\ length m = n
  /\ forall j, (j < k)%nat -> loaded sprites a j.

(** The dictionary of body [j] after [unload_value]. *)
Definition unloaded (x v : list farray) (j : nat) (sprite : params)
    : option params :=
  x0 ← entry x j 0; x1 ← entry x j 1; x2 ← entry x j 2;
  v0 ← entry v j 0; v1 ← entry v j 1; v2 ← entry v j 2;
  Some (<["v3" := v2]> (<["v2" := v1]> (<["v1" := v0]>
         (<["r3" := x2]> (<["r2" := x1]> (<["r1" := x0]> sprite)))))).

(** After [k] turns of the loop of [unload_value]: the first [k]
    dictionaries are updated, the others are as they were. *)
Definition unloaded_upto (x v : list farray) (sprites : list params)
    (k : nat) (s : list params) : Prop :=
  length s = length sprites
  /\ (forall j, (j < k)%nat ->
        exists sprite, sprites !! j = Some sprite
                       /\ unloaded x v j sprite = s !! j)
  /\ (forall j, (k <= j)%nat -> s !! j = sprites !! j).

End Sprites.

(** ** The rows of a result file ([gravity_sim/__main__.py]) *)

Module Results.
Import Energy Control.
Local Open Scope float_scope.

(** The arrays [sol_time], [sol_dt], [energy] (one number per stored
    point) and [sol_state] (one row of [objects_count * 3 * 2] numbers
    per stored point) of the simulator. *)
Record table : Type := {
  sol_time : farray;
  sol_dt : farray;
  energy : farray;
  sol_state : list farray
}.

(** A row of the result file.  A cell is modelled by the number it
    holds: the decimal text that [csv] writes and that numpy parses
    back is not modelled. *)
Definition csv_row : Type := list float.

(** [np.insert(a, 0, c)]. *)
Definition np_insert_0 (a : farray) (c : float) : farray := c :: a.

(** The body of the loop of [_save_result] that writes the data rows;
    [None]: an index is out of range. *)
Definition save_row (b : table) (count : nat) : option csv_row :=
  s ← sol_state b !! count;
  e ← energy b !! count;
  let row := np_insert_0 s e in
  d ← sol_dt b !! count;
  let row := np_insert_0 row d in
  t ← sol_time b !! count;
  let row := np_insert_0 row t in
  Some row.

(** The data rows that [_save_result] writes, for
    [count in range(self.data_size)]. *)
Definition save_rows (data_size : nat) (b : table) : option (list csv_row) :=
  mapM (save_row b) (seq 0 data_size).

(** [a[i] = c]; [None]: the index is out of range. *)
Definition set (a : farray) (i : nat) (c : float) : option farray :=
  if (i <? length a)%nat then Some (<[i := c]> a) else None.

Section Read.
(** [chunk]: the number of rows by which the buffers grow (50000). *)
Variables (chunk objects_count : nat).

(** "Allocate memory". *)
Definition allocate : table :=
  {| sol_time := repeat 0 chunk;
     sol_dt := repeat 0 chunk;
     energy := repeat 0 chunk;
     sol_state := repeat (repeat 0 (objects_count * 3 * 2)) chunk |}.

(** "Extending memory buffer". *)
Definition extend (b : table) : table :=
  {| sol_time := sol_time b ++ repeat 0 chunk;
     sol_dt := sol_dt b ++ repeat 0 chunk;
     energy := energy b ++ repeat 0 chunk;
     sol_state :=
       sol_state b ++ repeat (repeat 0 (objects_count * 3 * 2)) chunk |}.

(** The four slices [[:i]] after the loop. *)
Definition truncate (i : nat) (b : table) : table :=
  {| sol_time := take i (sol_time b);
     sol_dt := take i (sol_dt b);
     energy := take i (energy b);
     sol_state := take i (sol_state b) |}.

(** One turn of [for j in range(self.simulator.objects_count)]: six
    cells of [row] are stored in [sol_state[i]]. *)
Definition read_body (row : csv_row) (st : farray) (j : nat)
    : option farray :=
  c ← row !! (3 + j * 3 + 0)%nat; st ← set st (j * 3 + 0) c;
  c ← row !! (3 + j * 3 + 1)%nat; st ← set st (j * 3 + 1) c;
  c ← row !! (3 + j * 3 + 2)%nat; st ← set st (j * 3 + 2) c;
  c ← row !! (3 + objects_count * 3 + j * 3 + 0)%nat;
  st ← set st (objects_count * 3 + j * 3 + 0) c;
  c ← row !! (3 + objects_count * 3 + j * 3 + 1)%nat;
  st ← set st (objects_count * 3 + j * 3 + 1) c;
  c ← row !! (3 + objects_count * 3 + j * 3 + 2)%nat;
  set st (objects_count * 3 + j * 3 + 2) c.

(** One turn of [for row in reader]. *)
Definition read_row (acc : nat * table) (row : csv_row)
    : option (nat * table) :=
  let '(i, b) := acc in
  c ← row !! 0%nat; time ← set (sol_time b) i c;
  c ← row !! 1%nat; dt ← set (sol_dt b) i c;
  c ← row !! 2%nat; en ← set (energy b) i c;
  st ← sol_state b !! i;
  st ← foldM (read_body row) (seq 0 objects_count) st;
  let b :=
    {| sol_time := time; sol_dt := dt; energy := en;
       sol_state := <[i := st]> (sol_state b) |} in
  let i := (i + 1)%nat in
  Some (i, if (i mod chunk =? 0)%nat then extend b else b).

(** "Reading data...": the loop over the rows, then the slices. *)
Definition read_rows (rows : list csv_row) : option table :=
  '(i, b) ← foldM read_row rows (0%nat, allocate);
  Some (truncate i b).

End Read.

(** The data part of [_read_simulation_data], for a file whose
    metadata gave [objects_count]. *)
Definition read_data (objects_count : nat) (rows : list csv_row)
    : option table :=
  read_rows 50000 objects_count rows.

(** All arrays have [size] entries, and the rows of [sol_state] have
    [objects_count * 3 * 2]. *)
Definition shaped (objects_count size : nat) (b : table) : Prop :=
  length (sol_time b) = size /\ length (sol_dt b) = size
  /\ length (energy b) = size /\ length (sol_state b) = size
  /\ Forall (fun s => length s = (objects_count * 3 * 2)%nat) (sol_state b).

(** After [k] bodies of the loop of [read_body] on the row that holds
    the state [s]: their six cells are in place. *)
Definition stored (N : nat) (s : farray) (k : nat) (st : farray) : Prop :=
  length st = (N * 3 * 2)%nat
  /\ forall q, (q < k * 3 \/ N * 3 <= q < N * 3 + k * 3)%nat ->
       st !! q = s !! q.

(** After [k] rows of the table [b]: the buffers have room for the next
    row and hold the first [k] rows. *)
Definition filled (chunk N : nat) (b : table) (k : nat) (acc : nat * table)
    : Prop :=
  let '(i, tb) := acc in
  i = k
  /\ (exists L, (k < L)%nat /\ (L mod chunk = 0)%nat
        /\ length (sol_time tb) = L /\ length (sol_dt tb) = L
        /\ length (energy tb) = L /\ length (sol_state tb) = L)
  /\ Forall (fun s => length s = (N * 3 * 2)%nat) (sol_state tb)
  /\ take k (sol_time tb) = take k (sol_time b)
  /\ take k (sol_dt tb) = take k (sol_dt b)
  /\ take k (energy tb) = take k (energy b)
  /\ take k (sol_state tb) = take k (sol_state b).

End Results.

(** ** Texts *)
Module Str.

(** [s.startswith(prefix)]. *)
Definition startswith (s prefix : string) : bool := String.prefix prefix s.

(** [s[n:]]. *)
Fixpoint drop (n : nat) (s : string) : string :=
  match n, s with
  | O, _ => s
  | S n', String _ s' => drop n' s'
  | S _, EmptyString => EmptyString
  end.

(** [s.replace(old, "")] for a text [old] that is not empty: the
    occurrences of [old] are removed from the left to the right.
    [fuel] bounds the number of steps; the length of [s] and one more
    is enough. *)
Fixpoint remove_fuel (fuel : nat) (s old : string) : string :=
  match fuel with
  | O => s
  | S fuel' =>
      if String.prefix old s
      then remove_fuel fuel' (drop (String.length old) s) old
      else match s with
           | EmptyString => EmptyString
           | String c s' => String c (remove_fuel fuel' s' old)
           end
  end.

Definition remove (s old : string) : string :=
  remove_fuel (S (String.length s)) s old.

Definition mem (c : ascii) (chars : string) : bool :=
  existsb (Ascii.eqb c) (list_ascii_of_string chars).

Fixpoint lstrip (keep : ascii -> bool) (s : string) : string :=
  match s with
  | EmptyString => EmptyString
  | String c s' => if keep c then s else lstrip keep s'
  end.

Definition rev (s : string) : string :=
  string_of_list_ascii (List.rev (list_ascii_of_string s)).

(** [s.strip(chars)]: the characters of [chars] are removed from both
    ends. *)
Definition strip_chars (s chars : string) : string :=
  let keep c := negb (mem c chars) in
  rev (lstrip keep (rev (lstrip keep s))).

(** White space, for texts in ASCII: the characters 9 to 13, 28 to 32. *)
Definition is_space (c : ascii) : bool :=
  let n := nat_of_ascii c in
  ((9 <=? n) && (n <=? 13) || (28 <=? n) && (n <=? 32))%nat.

(** [s.strip()]. *)
Definition strip (s : string) : string :=
  let keep c := negb (is_space c) in
  rev (lstrip keep (rev (lstrip keep s))).

(** [s.split(" ")]. *)
Fixpoint split_space (s : string) : list string :=
  match s with
  | EmptyString => [EmptyString]
  | String c s' =>
      if Ascii.eqb c " " then EmptyString :: split_space s'
      else match split_space s' with
           | h :: t => String c h :: t
           | [] => [String c EmptyString]
           end
  end.

(** [" ".join(l)]. *)
Fixpoint join_space (l : list string) : string :=
  match l with
  | [] => EmptyString
  | [a] => a
  | a :: l' => a ++ " " ++ join_space l'
  end.

End Str.

(** ** The metadata of a result file ([gravity_sim/__main__.py]) *)

Module Metadata.
Import Energy Tableaus.
Local Open Scope string_scope.

(** [self.available_integrators_to_printable_names], in the order of
    the dictionary. *)
Definition available_integrators_to_printable_names
    : list (string * string) :=
  [("euler", "Euler"); ("euler_cromer", "Euler_Cromer"); ("rk4", "RK4");
   ("leapfrog", "LeapFrog"); ("rkf45", "RKF45"); ("dopri", "DOPRI");
   ("dverk", "DVERK"); ("rkf78", "RKF78"); ("ias15", "IAS15")].

(** [d[key]]; [None]: KeyError. *)
Fixpoint getitem (d : list (string * string)) (key : string)
    : option string :=
  match d with
  | [] => None
  | (k, v) :: d' => if String.eqb k key then Some v else getitem d' key
  end.

(** [l.index(v)]; [None]: ValueError. *)
Fixpoint index (l : list string) (v : string) : option nat :=
  match l with
  | [] => None
  | a :: l' => if String.eqb a v then Some O else option_map S (index l' v)
  end.

(** What the metadata part of [_read_simulation_data] assigns:
    attributes of [self.simulator], [self.store_every_n], and the three
    entries of [has_proper_metadata].  [None] stands for Python's [None]
    and for an attribute that has no value yet. *)
Record metadata : Type := {
  system : option string;
  integrator : option string;
  objects_count : option Z;
  tf : option float;
  dt : option float;
  tolerance : option float;
  data_size : option Z;
  store_every_n : option Z;
  run_time : option float;
  m : option farray;
  has_objects_count : bool;
  has_tf : bool;
  has_data_size : bool
}.

Definition set_system (s : metadata) (v : option string) : metadata :=
  {| system := v;
     integrator := integrator s;
     objects_count := objects_count s;
     tf := tf s;
     dt := dt s;
     tolerance := tolerance s;
     data_size := data_size s;
     store_every_n := store_every_n s;
     run_time := run_time s;
     m := m s;
     has_objects_count := has_objects_count s;
     has_tf := has_tf s;
     has_data_size := has_data_size s |}.
Definition set_integrator (s : metadata) (v : option string) : metadata :=
  {| system := system s;
     integrator := v;
     objects_count := objects_count s;
     tf := tf s;
     dt := dt s;
     tolerance := tolerance s;
     data_size := data_size s;
     store_every_n := store_every_n s;
     run_time := run_time s;
     m := m s;
     has_objects_count := has_objects_count s;
     has_tf := has_tf s;
     has_data_size := has_data_size s |}.
Definition set_objects_count (s : metadata) (v : Z) : metadata :=
  {| system := system s;
     integrator := integrator s;
     objects_count := Some v;
     tf := tf s;
     dt := dt s;
     tolerance := tolerance s;
     data_size := data_size s;
     store_every_n := store_every_n s;
     run_time := run_time s;
     m := m s;
     has_objects_count := true;
     has_tf := has_tf s;
     has_data_size := has_data_size s |}.
Definition set_tf (s : metadata) (v : float) : metadata :=
  {| system := system s;
     integrator := integrator s;
     objects_count := objects_count s;
     tf := Some v;
     dt := dt s;
     tolerance := tolerance s;
     data_size := data_size s;
     store_every_n := store_every_n s;
     run_time := run_time s;
     m := m s;
     has_objects_count := has_objects_count s;
     has_tf := true;
     has_data_size := has_data_size s |}.
Definition set_dt (s : metadata) (v : option float) : metadata :=
  {| system := system s;
     integrator := integrator s;
     objects_count := objects_count s;
     tf := tf s;
     dt := v;
     tolerance := tolerance s;
     data_size := data_size s;
     store_every_n := store_every_n s;
     run_time := run_time s;
     m := m s;
     has_objects_count := has_objects_count s;
     has_tf := has_tf s;
     has_data_size := has_data_size s |}.
Definition set_tolerance (s : metadata) (v : option float) : metadata :=
  {| system := system s;
     integrator := integrator s;
     objects_count := objects_count s;
     tf := tf s;
     dt := dt s;
     tolerance := v;
     data_size := data_size s;
     store_every_n := store_every_n s;
     run_time := run_time s;
     m := m s;
     has_objects_count := has_objects_count s;
     has_tf := has_tf s;
     has_data_size := has_data_size s |}.
Definition set_data_size (s : metadata) (v : Z) : metadata :=
  {| system := system s;
     integrator := integrator s;
     objects_count := objects_count s;
     tf := tf s;
     dt := dt s;
     tolerance := tolerance s;
     data_size := Some v;
     store_every_n := store_every_n s;
     run_time := run_time s;
     m := m s;
     has_objects_count := has_objects_count s;
     has_tf := has_tf s;
     has_data_size := true |}.
Definition set_store_every_n (s : metadata) (v : option Z) : metadata :=
  {| system := system s;
     integrator := integrator s;
     objects_count := objects_count s;
     tf := tf s;
     dt := dt s;
     tolerance := tolerance s;
     data_size := data_size s;
     store_every_n := v;
     run_time := run_time s;
     m := m s;
     has_objects_count := has_objects_count s;
     has_tf := has_tf s;
     has_data_size := has_data_size s |}.
Definition set_run_time (s : metadata) (v : float) : metadata :=
  {| system := system s;
     integrator := integrator s;
     objects_count := objects_count s;
     tf := tf s;
     dt := dt s;
     tolerance := tolerance s;
     data_size := data_size s;
     store_every_n := store_every_n s;
     run_time := Some v;
     m := m s;
     has_objects_count := has_objects_count s;
     has_tf := has_tf s;
     has_data_size := has_data_size s |}.
Definition set_m (s : metadata) (v : farray) : metadata :=
  {| system := system s;
     integrator := integrator s;
     objects_count := objects_count s;
     tf := tf s;
     dt := dt s;
     tolerance := tolerance s;
     data_size := data_size s;
     store_every_n := store_every_n s;
     run_time := run_time s;
     m := Some v;
     has_objects_count := has_objects_count s;
     has_tf := has_tf s;
     has_data_size := has_data_size s |}.

Section Files.
(** Python's conversions between numbers and texts: [int(s)] and
    [float(s)] ([None]: ValueError), [np.array(l, dtype=float)] for a
    list of texts, and [str(x)]. *)
Variable int : string -> option Z.
Variable float_ : string -> option float.
Variable np_array_float : list string -> option farray.
Variable str_int : Z -> string.
Variable str_float : float -> string.

(** [f"{x}"] for a value that can be [None]. *)
Definition fmt {A : Type} (str : A -> string) (x : option A) : string :=
  match x with
  | Some a => str a
  | None => "None"
  end.

(** "Storing metadata": the lines that [_save_result] writes before the
    data, [date] being the text of today's date.  Each line is one cell,
    written with [csv.QUOTE_NONE].  [None]: [self.simulator.m] is
    [None], which [map] rejects with TypeError. *)
Definition save_metadata (date : string) (s : metadata) (data_size : Z)
    : option (list string) :=
  let integrator_name :=
    match integrator s with
    | Some key => getitem available_integrators_to_printable_names key
    | None => None
    end in
  match m s with
  | None => None
  | Some masses =>
      let masses_str := Str.join_space (map str_float masses) in
      Some
        ["# Data saved on (YYYY-MM-DD): " ++ date;
         "# System Name: " ++ fmt (fun name => name) (system s);
         "# Integrator: " ++ fmt (fun name => name) integrator_name;
         "# Number of objects: " ++ fmt str_int (objects_count s);
         "# Simulation time (days): " ++ fmt str_float (tf s);
         "# dt (days): " ++ fmt str_float (dt s);
         "# Tolerance: " ++ fmt str_float (tolerance s);
         "# Data size: " ++ str_int data_size;
         "# Store every nth point: " ++ fmt str_int (store_every_n s);
         "# Run time (s): " ++ fmt str_float (run_time s);
         "# masses: " ++ masses_str]
  end.

(** The pattern [if row[0].startswith(label): try: x = conv(text)
    except ValueError: pass], [assign] being the assignment to [x]. *)
Definition try_assign {A : Type} (row0 label : string)
    (conv : string -> option A) (text : string)
    (assign : metadata -> A -> metadata) (s : metadata) : metadata :=
  if Str.startswith row0 label then
    match conv text with
    | Some a => assign s a
    | None => s
    end
  else s.

(** One turn of the loop "Read metadata" of [_read_simulation_data],
    [row0] being [row[0]]. *)
Definition read_metadata_row (s : metadata) (row0 : string)
    : result metadata :=
  let s :=
    if Str.startswith row0 "# System Name: "
    then set_system s (Some (Str.remove row0 "# System Name: "))
    else s in
  let r :=
    if Str.startswith row0 "# Integrator: " then
      let integrator := Str.remove row0 "# Integrator: " in
      (* list(d.keys())[list(d.values()).index(integrator)] *)
      match index (map snd available_integrators_to_printable_names)
              integrator with
      | Some i =>
          Ok (set_integrator s
                (nth_error (map fst available_integrators_to_printable_names)
                   i))
      | None => Raise ValueError     (* not caught by [except KeyError] *)
      end
    else Ok s in
  match r with
  | Raise e => Raise e
  | Ok s =>
      let s :=
        try_assign row0 "# Number of objects: " int
          (Str.remove row0 "# Number of objects: ") set_objects_count s in
      let s :=
        try_assign row0 "# Simulation time (days): " float_
          (Str.remove row0 "# Simulation time (days): ") set_tf s in
      let s :=
        try_assign row0 "# dt (seconds): " float_
          (Str.remove row0 "# dt (seconds): ")
          (fun s x => set_dt s (Some x)) s in
      let s :=
        try_assign row0 "# Tolerance: " float_
          (Str.remove row0 "# Tolerance: ")
          (fun s x => set_tolerance s (Some x)) s in
      let s :=
        try_assign row0 "# Data size: " int
          (Str.remove row0 "# Data size: ") set_data_size s in
      let s :=
        try_assign row0 "# Store every nth point: " int
          (Str.remove row0 "# Store every nth point: ")
          (fun s n => set_store_every_n s (Some n)) s in
      let s :=
        try_assign row0 "# Run time (s): " float_
          (Str.strip_chars row0 "# Run time (s): ") set_run_time s in
      let s :=
        try_assign row0 "# masses: "
          (fun masses_str => np_array_float (Str.split_space masses_str))
          (Str.strip (Str.strip_chars row0 "# masses: ")) set_m s in
      Ok s
  end.

Fixpoint read_rows (rows : list string) (s : metadata) : result metadata :=
  match rows with
  | [] => Ok s
  | row0 :: rows' =>
      match read_metadata_row s row0 with
      | Ok s' => read_rows rows' s'
      | Raise e => Raise e
      end
  end.

(** The first statements of [_read_simulation_data] and its loop "Read
    metadata", on the first cells of the lines that start with [#]. *)
Definition read_metadata (rows : list string) (s : metadata)
    : result metadata :=
  let s :=
    {| system := None; integrator := None;
       objects_count := objects_count s; tf := tf s;
       dt := None; tolerance := None;
       data_size := data_size s; store_every_n := None;
       run_time := run_time s; m := m s;
       has_objects_count := false; has_tf := false;
       has_data_size := false |} in
  read_rows rows s.

End Files.

End Metadata.

(** ** New stars ([gravity_sim/grav_obj.py]) *)

Module GravObj.
Local Open Scope R_scope.

(** [Grav_obj.SOLAR_RADIUS]: "Solar radius in AU". *)
Definition SOLAR_RADIUS : R := 0.004650467261.

(** What [create_star] and [update] read of [grav_sim]: the centre of
    [grav_sim.screen.get_rect()], [grav_sim.settings.distance_scale],
    [grav_sim.settings.new_star_mass_scale] and
    [grav_sim.stats.holding_rclick_time]. *)
Record grav_sim : Type := {
  centerx : R;
  centery : R;
  distance_scale : R;
  new_star_mass_scale : R;
  holding_rclick_time : R
}.

(** The dictionary [params] of a new [Grav_obj], over the reals. *)
Record params : Type := {
  r1 : R; r2 : R; r3 : R;
  v1 : R; v2 : R; v3 : R;
  m : R;
  R_ : R          (* the entry ["R"] *)
}.

Section Star.
(** [Settings.DEFAULT_NEW_STAR_VELOCITY_SCALE] and
    [Settings.DEFAULT_DISTANCE_SCALE]: constants of the class
    [Settings], which is imported from a module that is not part of the
    source. *)
Variables DEFAULT_NEW_STAR_VELOCITY_SCALE DEFAULT_DISTANCE_SCALE : R.

(** [Grav_obj.create_star]: the dictionary [params] of the star.  The
    mass is a holding time times a scale, both positive, and its cube
    root is taken as the power of a positive base. *)
Definition create_star (g : grav_sim)
    (mouse_pos camera_pos drag_mouse_pos drag_camera_pos : R * R) : params :=
  let m := 1 * 0.5 * holding_rclick_time g * new_star_mass_scale g in
  let R := SOLAR_RADIUS * Rpower m (1.0 / 3.0) in
  {| r1 := (fst mouse_pos - centerx g + fst camera_pos) / distance_scale g;
     r2 := - (snd mouse_pos - centery g + snd camera_pos) / distance_scale g;
     r3 := 0.0;
     v1 := - ((fst drag_mouse_pos - fst mouse_pos)
              + (fst drag_camera_pos - fst camera_pos))
           * DEFAULT_NEW_STAR_VELOCITY_SCALE
           / (distance_scale g / DEFAULT_DISTANCE_SCALE);
     v2 := ((snd drag_mouse_pos - snd mouse_pos)
            + (snd drag_camera_pos - snd camera_pos))
           * DEFAULT_NEW_STAR_VELOCITY_SCALE
           / (distance_scale g / DEFAULT_DISTANCE_SCALE);
     v3 := 0.0;
     m := m;
     R_ := R |}.

End Star.

(** [Grav_obj.update]: the pair that is assigned to [self.rect.center],
    [camera_pos] being [self.camera.pos]. *)
Definition update (g : grav_sim) (camera_pos : R * R) (p : params) : R * R :=
  (r1 p * distance_scale g + centerx g - fst camera_pos,
   - r2 p * distance_scale g + centery g - snd camera_pos).

End GravObj.

(** * Properties *)

(** ** Butcher tableaux *)

Module TableausFacts.
Import Tableaus.
Local Open Scope Q_scope.

Lemma tableaus_well_shaped :
  forall order t,
    rk_embedded_butcher_tableaus order = Ok t -> well_shaped t = true.
Proof.
  intros order t. unfold rk_embedded_butcher_tableaus.
  repeat (case (Z.eqb_spec order _); [intros _ [= <-]; reflexivity | intros _]).
  discriminate.
Qed.

(** C10.  [rk_embedded_butcher_tableaus] raises [ValueError] exactly when
    [order] is none of 45, 54, 78, 65; for each of these four it returns
    the tuple of a tableau (power, power_test, coeff, weights,
    weights_test) and raises nothing. *)
Theorem butcher_tableaus_raise_iff (order : Z) :
  (rk_embedded_butcher_tableaus order = Raise ValueError
   <-> ~ In order orders)
  /\ (In order orders
      -> exists t : tableau, rk_embedded_butcher_tableaus order = Ok t).
Proof.
  unfold rk_embedded_butcher_tableaus, orders.
  destruct (Z.eqb_spec order 45) as [-> | H45]; simpl.
  { split; [split; [discriminate | intros H; exfalso; apply H; auto] | eauto]. }
  destruct (Z.eqb_spec order 54) as [-> | H54]; simpl.
  { split; [split; [discriminate | intros H; exfalso; apply H; auto] | eauto]. }
  destruct (Z.eqb_spec order 78) as [-> | H78]; simpl.
  { split; [split; [discriminate | intros H; exfalso; apply H; auto] | eauto]. }
  destruct (Z.eqb_spec order 65) as [-> | H65]; simpl.
  { split; [split; [discriminate | intros H; exfalso; apply H; auto 6] | eauto]. }
  split.
  - split; [intros _ | reflexivity].
    intros [E | [E | [E | [E | []]]]]; congruence.
  - intros [E | [E | [E | [E | []]]]]; congruence.
Qed.

(** The advance and the companion weights of all four pairs sum to 1. *)
Lemma weights_sum_to_one :
  forall order t,
    rk_embedded_butcher_tableaus order = Ok t ->
    Qsum (weights t) == 1 /\ Qsum (weights_test t) == 1.
Proof.
  intros order t. unfold rk_embedded_butcher_tableaus.
  repeat (case (Z.eqb_spec order _);
          [intros _ [= <-]; split; apply Qeq_bool_iff; vm_compute; reflexivity
          | intros _]).
  discriminate.
Qed.

(** The rows of RKF4(5), Dormand-Prince 5(4) and Verner 6(5) sum to their
    nodes. *)
Lemma rows_sum_to_nodes_45_54_65 :
  rows_ok rkf45 (nodes 45) = true
  /\ rows_ok dopri54 (nodes 54) = true
  /\ rows_ok dverk65 (nodes 65) = true.
Proof. repeat split; vm_compute; reflexivity. Qed.

(** So do the first eleven rows of RKF7(8). *)
Lemma rows_sum_to_nodes_78_but_last :
  forallb (row_ok rkf78 (nodes 78)) (seq 0 11) = true.
Proof. vm_compute. reflexivity. Qed.

(** C4, at the last row of RKF7(8).  The twelfth row of the stage matrix
    returned for [order = 78] sums to 48/41, whereas the node that the
    source records for this row is 1: the entry [19/41] stands where
    Fehlberg's tableau has [12/41]. *)
Theorem rkf78_last_row_sum :
  rk_embedded_butcher_tableaus 78 = Ok rkf78
  /\ nth 9 (nth 11 (coeff rkf78) []) 0 == 19 / 41
  /\ Qsum (nth 11 (coeff rkf78) []) == 48 / 41
  /\ nth 11 (nodes 78) 0 == 1
  /\ ~ Qsum (nth 11 (coeff rkf78) []) == nth 11 (nodes 78) 0
  /\ rows_ok rkf78 (nodes 78) = false.
Proof.
  repeat split; try (apply Qeq_bool_iff; vm_compute; reflexivity).
  intros H. apply Qeq_bool_iff in H. vm_compute in H. discriminate H.
Qed.

End TableausFacts.

(** ** The gravitational constant *)

Module ConstantsFacts.
Import Constants.
Local Open Scope Q_scope.

Lemma CONSTANT_G_value :
  CONSTANT_G == 36692335422612933765120 # 123997369474472183860717009.
Proof. apply Qeq_bool_iff. vm_compute. reflexivity. Qed.

(** C7, as stated, fails: [Grav_obj.G] is not 0.00029591220828411... *)
Lemma Grav_obj_G_is_another_value : ~ is_0_00029591220828411 Grav_obj_G.
Proof.
  intros [_ H]. unfold Grav_obj_G, Qlt in H. vm_compute in H. discriminate H.
Qed.

(** C7, amended.  [Simulator.CONSTANT_G] (the DE440 GM of the Sun times
    the conversion factor) and the value of G printed to the user are
    0.00029591220828411...; [Grav_obj.G] is the literal
    0.00029591220828559, which exceeds [CONSTANT_G] by between 1.47e-15
    and 1.48e-15 and so agrees with it in the digits 0.00029591220828
    only. *)
Theorem G_definitions :
  is_0_00029591220828411 CONSTANT_G
  /\ G_printed = Some 0.00029591220828411
  /\ is_0_00029591220828411 0.00029591220828411
  /\ Grav_obj_G == 0.00029591220828559
  /\ 1.47e-15 < Grav_obj_G - CONSTANT_G < 1.48e-15
  /\ (0.00029591220828 <= CONSTANT_G < 0.00029591220829
      /\ 0.00029591220828 <= Grav_obj_G < 0.00029591220829).
Proof.
  unfold is_0_00029591220828411.
  repeat split;
    try (apply Qeq_bool_iff; vm_compute; reflexivity);
    try (apply Qle_bool_iff; vm_compute; reflexivity);
    try (vm_compute; reflexivity).
Qed.

End ConstantsFacts.

(** ** The embedded Runge-Kutta step loop *)

Module RKFacts.
Import Np RK.
Local Open Scope R_scope.

Lemma Rltb_true_iff (a b : R) : Rltb a b = true <-> a < b.
Proof. unfold Rltb. destruct (Rlt_dec a b); split; auto; discriminate. Qed.

Lemma Rltb_false_iff (a b : R) : Rltb a b = false <-> b <= a.
Proof.
  unfold Rltb. destruct (Rlt_dec a b); split; auto; try discriminate; lra.
Qed.

Lemma Rleb_true_iff (a b : R) : Rleb a b = true <-> a <= b.
Proof. unfold Rleb. destruct (Rle_dec a b); split; auto; discriminate. Qed.

Lemma Rleb_false_iff (a b : R) : Rleb a b = false <-> b < a.
Proof.
  unfold Rleb. destruct (Rle_dec a b); split; auto; try discriminate; lra.
Qed.

Lemma Reqb_true_iff (a b : R) : Reqb a b = true <-> a = b.
Proof. unfold Reqb. destruct (Req_dec_T a b); split; auto; discriminate. Qed.

Lemma Reqb_false_iff (a b : R) : Reqb a b = false <-> a <> b.
Proof.
  unfold Reqb. destruct (Req_dec_T a b); split; auto; try discriminate.
  intros H; contradiction.
Qed.

Lemma Rdiv_lt_iff (a b c : R) : 0 < c -> a / c < b <-> a < c * b.
Proof.
  intros Hc. assert (E : a = a / c * c) by (field; lra).
  split; intros H.
  - rewrite E. nra.
  - apply Rmult_lt_reg_r with c; [lra |]. rewrite <- E. lra.
Qed.

Lemma accepts_iff (p : rk_params) (error actual_dt : R) :
  accepts p error actual_dt = true
  <-> error <= 1 \/ actual_dt = expected_time_scale p * 1e-12.
Proof.
  unfold accepts. rewrite orb_true_iff, Rleb_true_iff, Reqb_true_iff.
  reflexivity.
Qed.

Section Iteration.
Variable acceleration : nat -> array -> array -> R -> array.
Variable p : rk_params.

(** C1.  In an iteration of the loop of [rk_embedded] that starts in
    state [s], with [x_1], [v_1] and [error] the candidate state and the
    error estimate of this attempt: if [error <= 1] or the step
    [actual_dt] equals the floor [expected_time_scale * 1e-12], the
    iteration ends with [t + actual_dt], [x_1], [v_1]; otherwise it ends
    with [t], [x], [v] as they were. *)
Theorem rk_iteration_advances_iff (s : rk_state) :
  let a := rk_attempt acceleration p s in
  let s' := rk_iteration acceleration p s in
  let accepted :=
    error a <= 1 \/ actual_dt s = expected_time_scale p * 1e-12 in
  (accepted ->
   t s' = t s + actual_dt s /\ x s' = x_1 a /\ v s' = v_1 a)
  /\ (~ accepted -> t s' = t s /\ x s' = x s /\ v s' = v s).
Proof.
  intros a s' accepted. subst s'. unfold rk_iteration. fold a.
  destruct (accepts p (error a) (actual_dt s)) eqn:Hacc; simpl.
  - apply accepts_iff in Hacc. split; [auto | intros Hn; contradiction].
  - split; [| auto].
    intros Ha. apply accepts_iff in Ha. congruence.
Qed.

(** Every turn of the loop is one such iteration, followed by the test
    for the early return. *)
Lemma rk_loop_turn (n : nat) (i : Z) (s : rk_state) :
  rk_loop acceleration p (S n) i s =
  let s' := rk_iteration acceleration p s in
  if returns_early p i s' then s' else rk_loop acceleration p n (i + 1) s'.
Proof. reflexivity. Qed.

(** The step size at the end of an iteration is [next_dt] of the error
    and the step size of its attempt. *)
Lemma rk_iteration_dt (s : rk_state) :
  actual_dt (rk_iteration acceleration p s)
  = next_dt p (error (rk_attempt acceleration p s)) (actual_dt s).
Proof.
  unfold rk_iteration.
  destruct (accepts p _ _); reflexivity.
Qed.

End Iteration.

(** *** The initial step *)

Lemma tolerance_scale_eq (tol_a tol_r : R) (u : array) :
  shift tol_a (scale tol_r (abs u))
  = map (fun ui => tol_a + tol_r * Rabs ui) u.
Proof.
  unfold shift, scale, abs. rewrite !map_map. reflexivity.
Qed.

Lemma sum_square_eq (u : array) :
  sum (square u) = sum (map (fun r => r ^ 2) u).
Proof.
  unfold square. f_equal. apply map_ext. intros r. ring.
Qed.

Lemma rms_eq (N : nat) (s : R) :
  (0 < N)%nat ->
  sqrt (s / (INR N * 3 * 2)) = sqrt s / sqrt (6 * INR N).
Proof.
  intros HN. replace (INR N * 3 * 2) with (6 * INR N) by ring.
  apply sqrt_div_alt.
  apply lt_INR in HN. simpl in HN. lra.
Qed.

Lemma lt_either_as_min (a b c : R) :
  Rltb a c || Rltb b c = Rltb (Rmin a b) c.
Proof.
  unfold Rmin. destruct (Rle_dec a b) as [Hab | Hab].
  - destruct (Rltb a c) eqn:Ha; [reflexivity |]. simpl.
    apply Rltb_false_iff in Ha. apply Rltb_false_iff. lra.
  - destruct (Rltb b c) eqn:Hb; [apply orb_true_r |].
    rewrite orb_false_r.
    apply Rltb_false_iff in Hb. apply Rltb_false_iff. lra.
Qed.

Section InitialStep.
Variable acceleration : nat -> array -> array -> R -> array.

(** C3.  With one tolerance for the absolute and the relative one and
    at least one body, [_rk_embedded_initial_time_step] returns
    [1e-3 * min(100 * dt_0, dt_1)] with [d_0], [d_1], [dt_0], the Euler
    probe of size [dt_0 / 100], [d_2] and [dt_1] as the specification
    defines them ([initial_time_step_spec]). *)
Theorem initial_time_step_as_specified
    (N : nat) (power : Z) (x v a m : array) (G tolerance : R) :
  (0 < N)%nat ->
  _rk_embedded_initial_time_step acceleration N power x v a m G
    tolerance tolerance
  = initial_time_step_spec acceleration N power x v a m G tolerance.
Proof.
  intros HN.
  unfold _rk_embedded_initial_time_step, initial_time_step_spec.
  cbv zeta.
  rewrite !tolerance_scale_eq, !sum_square_eq, !(rms_eq N _ HN).
  rewrite lt_either_as_min.
  replace 1.0 with 1 by lra.
  apply Rmult_comm.
Qed.

End InitialStep.

(** The theorem applies to one body at (1, 0, 0) moving with velocity
    (0, 1, 0), free of forces. *)
Lemma initial_time_step_as_specified_witness :
  let free : nat -> array -> array -> R -> array := fun _ _ _ _ => [0; 0; 0] in
  (0 < 1)%nat
  /\ _rk_embedded_initial_time_step free 1 4 [1; 0; 0] [0; 1; 0] [0; 0; 0]
       [1] 1 1e-9 1e-9
     = initial_time_step_spec free 1 4 [1; 0; 0] [0; 1; 0] [0; 0; 0]
         [1] 1 1e-9.
Proof.
  intros free. split; [lia |].
  apply (initial_time_step_as_specified free 1 4); lia.
Defined.

End RKFacts.

(** ** The step-size update, over binary64 *)

Module RK64Facts.
Import RK64.
Local Open Scope float_scope.

(** *** The order of binary64 *)

Lemma is_nan_spec (x : float) :
  is_nan x = true <-> Prim2SF x = S754_nan.
Proof.
  unfold is_nan. rewrite FloatAxioms.eqb_spec. unfold SFeqb.
  destruct (Prim2SF x) as [s | s | | s m e]; simpl.
  - split; discriminate.
  - destruct s; split; discriminate.
  - split; reflexivity.
  - destruct s; rewrite Z.compare_refl, Pcompare_refl; split; discriminate.
Qed.

Lemma not_nan_spec (x : float) :
  is_nan x = false <-> Prim2SF x <> S754_nan.
Proof.
  rewrite <- is_nan_spec. destruct (is_nan x); split; congruence.
Qed.

Lemma SFcompare_swap (a b : spec_float) :
  SFcompare b a = option_map CompOpp (SFcompare a b).
Proof.
  destruct a as [s | s | | s m e], b as [s' | s' | | s' m' e'];
    try reflexivity;
    try (destruct s; reflexivity);
    try (destruct s'; reflexivity);
    try (destruct s, s'; reflexivity).
  destruct s, s'; simpl; try reflexivity;
    rewrite (Z.compare_antisym e e'); destruct (e ?= e')%Z; simpl;
    try reflexivity;
    rewrite (ZC4 m' m); try reflexivity.
Qed.

Lemma SFcompare_None (a b : spec_float) :
  SFcompare a b = None <-> a = S754_nan \/ b = S754_nan.
Proof.
  destruct a as [s | s | | s m e], b as [s' | s' | | s' m' e']; simpl;
    split; try discriminate; try (intros [H | H]; discriminate);
    try (intros _; auto); try reflexivity.
Qed.

(** An operand that is NaN makes a comparison false. *)
Lemma ltb_nan (x y : float) :
  is_nan x = true \/ is_nan y = true -> (x <? y) = false.
Proof.
  rewrite !is_nan_spec, FloatAxioms.ltb_spec. intros H.
  apply SFcompare_None in H. unfold SFltb. rewrite H. reflexivity.
Qed.

Lemma leb_not_nan (x y : float) :
  (x <=? y) = true -> is_nan x = false /\ is_nan y = false.
Proof.
  rewrite FloatAxioms.leb_spec, !not_nan_spec. unfold SFleb.
  destruct (SFcompare (Prim2SF x) (Prim2SF y)) eqn:E; [| discriminate].
  intros _. split; intros H; rewrite H in E;
    [| destruct (Prim2SF x)]; discriminate.
Qed.

Lemma leb_refl (x : float) : is_nan x = false -> (x <=? x) = true.
Proof.
  rewrite not_nan_spec, FloatAxioms.leb_spec. unfold SFleb.
  destruct (Prim2SF x) as [s | s | | s m e]; simpl; intros H;
    try reflexivity; try congruence.
  - destruct s; reflexivity.
  - destruct s; rewrite Z.compare_refl, Pcompare_refl; reflexivity.
Qed.

(** Where neither number is NaN, "not below" is "at least". *)
Lemma ltb_false_leb (x y : float) :
  (x <? y) = false -> is_nan x = false -> is_nan y = false ->
  (y <=? x) = true.
Proof.
  rewrite FloatAxioms.ltb_spec, FloatAxioms.leb_spec, !not_nan_spec. unfold SFltb, SFleb.
  intros Hlt Hx Hy. rewrite SFcompare_swap.
  destruct (SFcompare (Prim2SF x) (Prim2SF y)) as [[| |] |] eqn:E;
    try reflexivity; try discriminate.
  apply SFcompare_None in E. tauto.
Qed.

Lemma ltb_leb (x y : float) : (x <? y) = true -> (x <=? y) = true.
Proof.
  rewrite FloatAxioms.ltb_spec, FloatAxioms.leb_spec. unfold SFltb, SFleb.
  destruct (SFcompare (Prim2SF x) (Prim2SF y)) as [[| |] |];
    try reflexivity; discriminate.
Qed.

Lemma div_nan (x y : float) : is_nan x = true -> is_nan (x / y) = true.
Proof.
  rewrite !is_nan_spec, FloatAxioms.div_spec. intros ->. reflexivity.
Qed.

(** *** The new step *)

Lemma clamp_dt_range (h_new h : float) :
  (0.33 * h <=? 6.0 * h) = true -> is_nan h_new = false ->
  (0.33 * h <=? clamp_dt h_new h) = true
  /\ (clamp_dt h_new h <=? 6.0 * h) = true.
Proof.
  intros Hh Hn. destruct (leb_not_nan _ _ Hh) as [Hlo Hhi].
  unfold clamp_dt, safety_fac_max, safety_fac_min.
  destruct (6.0 * h <? h_new) eqn:H1.
  - split; [exact Hh | apply leb_refl; exact Hhi].
  - destruct (h_new <? 0.33 * h) eqn:H2.
    + split; [apply leb_refl; exact Hlo | exact Hh].
    + split; apply ltb_false_leb; assumption.
Qed.

Lemma next_dt_nan (ets h_new h : float) :
  is_nan h_new = true -> floor_dt ets h_new (clamp_dt h_new h) = h_new.
Proof.
  intros Hn. unfold floor_dt, clamp_dt.
  rewrite (ltb_nan (h_new / ets) 1e-12) by (left; apply div_nan; exact Hn).
  rewrite (ltb_nan (safety_fac_max * h) h_new) by (right; exact Hn).
  rewrite (ltb_nan h_new (safety_fac_min * h)) by (left; exact Hn).
  reflexivity.
Qed.

(** C2, amended.  In binary64, with [e = 1.0 / (1.0 + min_power)]: the
    proposal is [h_new = h * 0.38 ** e / err ** e] ([h_new = h] when
    [err == 0.0]); the clamped value is [6.0 * h] where [h_new] is above
    it, [0.33 * h] where [h_new] is below it and [h_new] otherwise, so
    that it lies between [0.33 * h] and [6.0 * h] when the proposal is
    not NaN and [0.33 * h <= 6.0 * h] (a step that is not negative);
    the new step is the product [expected_time_scale * 1e-12] exactly
    when the quotient [h_new / expected_time_scale] of the proposal, not
    of the clamped value, compares below [1e-12], and it is the clamped
    value otherwise; and a proposal that is NaN is itself the new
    step. *)
Theorem next_dt_spec (pow : float -> float -> float) (power power_test : Z)
    (ets err h : float) :
  let p_min := Z.min power power_test in
  let e := 1.0 / (1.0 + of_int p_min) in
  let h_new := if err =? 0 then h else h * pow 0.38 e / pow err e in
  let clamped := clamp_dt h_new h in
  dt_new pow (min_power power power_test) err h = h_new
  /\ (clamped = 6.0 * h /\ (6.0 * h <? h_new) = true
      \/ clamped = 0.33 * h /\ (h_new <? 0.33 * h) = true
      \/ clamped = h_new)
  /\ ((0.33 * h <=? 6.0 * h) = true -> is_nan h_new = false ->
      (0.33 * h <=? clamped) = true /\ (clamped <=? 6.0 * h) = true)
  /\ next_dt pow power power_test ets err h
     = (if h_new / ets <? 1e-12 then ets * 1e-12 else clamped)
  /\ (is_nan h_new = true -> next_dt pow power power_test ets err h = h_new).
Proof.
  intros p_min e h_new clamped.
  assert (Hnew : dt_new pow (min_power power power_test) err h = h_new)
    by reflexivity.
  split; [exact Hnew |]. split.
  { unfold clamped, clamp_dt, safety_fac_max, safety_fac_min.
    destruct (6.0 * h <? h_new); [left; auto |].
    destruct (h_new <? 0.33 * h); [right; left; auto | right; right; auto]. }
  split; [apply clamp_dt_range |].
  split; [reflexivity |].
  intros Hn. unfold next_dt. rewrite Hnew. apply next_dt_nan. exact Hn.
Qed.

(** The proposal for the error 1024 with RKF4(5) and the step 4e-12,
    for a power function that gives the two powers as they round:
    [0.38 ** 0.2 = 0.8240559876099317] and [1024 ** 0.2 = 4]. *)
Lemma next_dt_at_error_1024 (pow : float -> float -> float) :
  pow 0.38 0.2 = 0.8240559876099317 -> pow 1024 0.2 = 4 ->
  dt_new pow (min_power 4 5) 1024 4e-12 = 8.240559876099316e-13
  /\ next_dt pow 4 5 1 1024 4e-12 = 1e-12.
Proof.
  intros H1 H2. unfold next_dt, dt_new, safety_fac.
  change (1.0 / (1.0 + of_int (min_power 4 5))) with 0.2.
  rewrite H1, H2. split; vm_compute; reflexivity.
Qed.

(** C2, as stated, fails: flooring can reduce the clamped step.  With
    the step 4e-12 and the time scale 1, the proposal
    8.240559876099316e-13 (that of the error 1024 with RKF4(5),
    [next_dt_at_error_1024]) is clamped to 1.32e-12, and the new step is
    1e-12: the test for the floor reads the proposal. *)
Lemma next_dt_below_the_clamped_step :
  let h := 4e-12 in
  let h_new := 8.240559876099316e-13 in
  clamp_dt h_new h = 1.32e-12
  /\ floor_dt 1 h_new (clamp_dt h_new h) = 1e-12
  /\ (1e-12 <? 1.32e-12) = true.
Proof. vm_compute. auto. Qed.

(** Nor is the new step always at least the product
    [expected_time_scale * 1e-12]: the test divides and the floor
    multiplies.  Here the quotient rounds to [1e-12], so the proposal is
    kept, and it is below the product. *)
Lemma next_dt_below_the_floor :
  let ets := 0.42857142857142855 in
  let h := 8.571428571428571e-13 in
  let h_new := 4.285714285714285e-13 in
  floor_dt ets h_new (clamp_dt h_new h) = h_new
  /\ (h_new <? ets * 1e-12) = true.
Proof. vm_compute. auto. Qed.

End RK64Facts.

(** ** The preset catalogue *)

Module CatalogFacts.
Import Constants Catalog.
Local Open Scope Q_scope.

(** Decide an inequality of rationals by computing both sides. *)
Ltac by_computation := apply Qle_bool_iff; vm_compute; reflexivity.

(** The tables of [Catalog] hold the binary64 numbers of the decimal
    numerals that [Constants] holds, and its G is the number whose
    digits the note of [_get_user_simulation_input] shows. *)
Lemma tables_as_written (b : body) :
  denotes (Catalog.GM_SI b) (Constants.GM_SI b)
  /\ Forall2 denotes (Catalog.SOLAR_SYSTEM_POS b) (Constants.SOLAR_SYSTEM_POS b)
  /\ Forall2 denotes (Catalog.SOLAR_SYSTEM_VEL b) (Constants.SOLAR_SYSTEM_VEL b).
Proof.
  destruct b;
    (split; [by_computation |]);
    split; repeat constructor; by_computation.
Qed.

Lemma G_as_printed : is_0_00029591220828411 (exact Catalog.G).
Proof.
  split; [by_computation |].
  apply Qlt_alt. vm_compute. reflexivity.
Qed.

(** The cube in [CONVERSION_FACTOR] is also what two multiplications
    give. *)
Lemma cube_as_product :
  cube 149597870.7 = (149597870.7 * 149597870.7 * 149597870.7)%float.
Proof. vm_compute. reflexivity. Qed.

(** The mass arrays of the catalogue have the same sum in numpy's order
    of additions. *)
Lemma np_sum_any_order (bodies : list body) :
  In bodies
    [[Sun; Earth; Moon];
     [Sun; Mercury; Venus; Earth; Mars; Jupiter; Saturn; Uranus; Neptune];
     [Sun; Mercury; Venus; Earth; Mars; Jupiter; Saturn; Uranus; Neptune;
      Pluto; Ceres; Vesta]] ->
  np_sum_blocked (map SOLAR_SYSTEM_MASSES bodies)
  = np_sum (map SOLAR_SYSTEM_MASSES bodies).
Proof.
  intros [<- | [<- | [<- | []]]]; vm_compute; reflexivity.
Qed.

(** A moment that is zero is negligible. *)
Ltac negligible_by_computation :=
  unfold negligible; cbn [moment map];
  repeat constructor; by_computation.

(** C5, as stated, fails at [3d_helix]: the three equal masses all move
    with the velocity component 0.5 along y, so the second component of
    the sum of [m_i * v_i] is three times [0.5 * (1.0 / G)], more than
    5069. *)
Lemma helix_has_momentum :
  exists s : system,
    initialize_system_numpy "3d_helix" = Some s
    /\ Forall2 Qeq (moment (m s) (v s))
         [0; (3 # 2) * exact (1 / Catalog.G); 0]
    /\ 5069 <= nth 1 (moment (m s) (v s)) 0.
Proof.
  eexists. split; [reflexivity |]. split.
  - repeat constructor; apply Qeq_bool_iff; vm_compute; reflexivity.
  - by_computation.
Qed.

(** C5, amended.  For every preset the arrays are finite and the sum of
    [m_i * x_i], taken exactly over the binary64 numbers in them, is
    zero up to rounding: divided by the total mass, each component is at
    most 1e-16 in magnitude.  The same holds of the sum of [m_i * v_i]
    for every preset except [3d_helix], where it is
    (0, 1.5 * (1.0 / G), 0).  Both sums are exactly zero for
    [circular_binary_orbit], [eccentric_binary_orbit] and [figure-8];
    not so for [pyth-3-body], whose sum of [m_i * y_i] is [- 2^-38]. *)
Theorem presets_barycentre :
  Forall
    (fun name =>
       exists s : system,
         initialize_system_numpy name = Some s
         /\ finite s = true
         /\ negligible (m s) (moment (m s) (x s))
         /\ (if String.eqb name "3d_helix"
             then Forall2 Qeq (moment (m s) (v s))
                    [0; (3 # 2) * exact (1 / Catalog.G); 0]
             else negligible (m s) (moment (m s) (v s)))
         /\ (In name ["circular_binary_orbit"; "eccentric_binary_orbit";
                      "figure-8"]%string ->
             Forall2 Qeq (moment (m s) (x s)) [0; 0; 0]
             /\ Forall2 Qeq (moment (m s) (v s)) [0; 0; 0])
         /\ (name = "pyth-3-body"%string ->
             Forall2 Qeq (moment (m s) (x s))
               [0; - (1 # 274877906944); 0]))
    presets.
Proof.
  unfold presets. repeat apply Forall_cons; try apply Forall_nil;
    (eexists; split; [reflexivity |]);
    (split; [vm_compute; reflexivity |]);
    (split; [negligible_by_computation |]);
    (split; [first [negligible_by_computation
                   | repeat constructor; apply Qeq_bool_iff;
                     vm_compute; reflexivity] |]);
    (split;
     [intros Hin;
      first [split; repeat constructor; apply Qeq_bool_iff;
             vm_compute; reflexivity
            | exfalso; simpl in Hin; intuition discriminate]
     | intros Hname;
       first [repeat constructor; apply Qeq_bool_iff; vm_compute; reflexivity
             | discriminate Hname]]).
Qed.

End CatalogFacts.

(** ** Total energy at coincident bodies *)

Module EnergyFacts.
Import Energy.
Local Open Scope float_scope.

Section TotalEnergyNaN.
Variables (objects_count : nat) (x v : list farray) (m : farray) (G : float).

Lemma pair_step_return (j k : nat) (E r : float) :
  pair_step x m G j E k = Return r -> r = nan.
Proof.
  unfold pair_step. destruct (j <? k)%nat; [| discriminate].
  destruct (negb _); [discriminate | intros [= <-]; reflexivity].
Qed.

Lemma pair_step_coincide (j k : nat) (E : float) :
  (j < k)%nat -> coincide x j k -> pair_step x m G j E k = Return nan.
Proof.
  intros Hjk Hc. unfold pair_step.
  apply Nat.ltb_lt in Hjk. rewrite Hjk.
  unfold coincide in Hc. rewrite Hc. reflexivity.
Qed.

Lemma pairs_loop_return (j : nat) (ks : list nat) :
  forall E r, pairs_loop x m G j ks E = Return r -> r = nan.
Proof.
  induction ks as [| k ks IH]; intros E r; simpl; [discriminate |].
  destruct (pair_step x m G j E k) eqn:Hs.
  - apply IH.
  - intros [= <-]. exact (pair_step_return _ _ _ _ Hs).
Qed.

Lemma pairs_loop_coincide (j k : nat) (ks : list nat) :
  (j < k)%nat -> coincide x j k -> In k ks ->
  forall E, pairs_loop x m G j ks E = Return nan.
Proof.
  intros Hjk Hc. induction ks as [| k' ks IH]; intros Hin E; [destruct Hin |].
  simpl. destruct (pair_step x m G j E k') eqn:Hs.
  - destruct Hin as [-> | Hin]; [| apply IH; exact Hin].
    rewrite pair_step_coincide in Hs by assumption. discriminate.
  - f_equal. exact (pair_step_return _ _ _ _ Hs).
Qed.

Lemma bodies_loop_return (js : list nat) :
  forall E r, bodies_loop objects_count x v m G js E = Return r -> r = nan.
Proof.
  induction js as [| j js IH]; intros E r; simpl; [discriminate |].
  destruct (pairs_loop x m G j (seq 0 objects_count) _) eqn:Hp.
  - apply IH.
  - intros [= <-]. exact (pairs_loop_return _ _ _ _ Hp).
Qed.

Lemma bodies_loop_coincide (j k : nat) (js : list nat) :
  (j < k < objects_count)%nat -> coincide x j k -> In j js ->
  forall E, bodies_loop objects_count x v m G js E = Return nan.
Proof.
  intros [Hjk Hk] Hc. induction js as [| j' js IH]; intros Hin E;
    [destruct Hin |].
  simpl. destruct (pairs_loop x m G j' (seq 0 objects_count) _) eqn:Hp.
  - destruct Hin as [-> | Hin]; [| apply IH; exact Hin].
    rewrite (pairs_loop_coincide j k) in Hp; try assumption; [discriminate |].
    apply in_seq. lia.
  - f_equal. exact (pairs_loop_return _ _ _ _ Hp).
Qed.

(** [total_energy] of [gravity_sim]: when the distance of some pair
    [j < k] of the [objects_count] bodies is exactly zero, the result is
    NaN. *)
Lemma total_energy_coincide (j k : nat) :
  (j < k < objects_count)%nat -> coincide x j k ->
  total_energy objects_count x v m G = nan.
Proof.
  intros Hjk Hc. unfold total_energy.
  rewrite (bodies_loop_coincide j k); try assumption; [reflexivity |].
  apply in_seq. lia.
Qed.

End TotalEnergyNaN.

(** C6, at two bodies of mass 1 at rest at the origin, with the value
    of [CONSTANT_G] for [G].  [total_energy]
    of [gravity_sim] returns NaN; [compute_energy] of [gravity_plot]
    (numpy branch) still emits one entry for the sample, but the entry is
    minus infinity, the result of subtracting [G * 1 * 1 / 0.0], and not
    NaN. *)
Theorem compute_energy_at_coincident_bodies :
  let G := 0.00029591220828411956 in
  let m := [1; 1] in
  let zero3 := [0; 0; 0] in
  let state := [0; 0; 0; 0; 0; 0; 0; 0; 0; 0; 0; 0] in
  (norm (fsub (slice state 0 3) (slice state 3 6)) =? 0) = true
  /\ total_energy 2 [zero3; zero3] [zero3; zero3] m G = nan
  /\ compute_energy 2 m G [state] = [neg_infinity]
  /\ PrimFloat.is_nan neg_infinity = false.
Proof. vm_compute. repeat split; reflexivity. Qed.

End EnergyFacts.

(** ** Trimming the stored trajectory *)

Module TrimFacts.
Import Energy Trim.
Local Open Scope nat_scope.

Lemma lookup_repeat {A : Type} (x : A) (n q : nat) :
  q < n -> repeat x n !! q = Some x.
Proof.
  revert q. induction n as [| n IH]; intros q Hq; [lia |].
  destruct q as [| q]; simpl; [reflexivity | apply IH; lia].
Qed.

(** *** One column of the copy loop *)

Section Column.
Context {A : Type}.
Variables (get : nat -> A) (zero : A) (D : nat).
Hypothesis D_pos : 0 < D.

Lemma multiple_iff (i : nat) :
  (Z.of_nat i mod Z.of_nat D =? 0)%Z = true <-> exists q, i = q * D.
Proof.
  rewrite Z.eqb_eq. split.
  - intros H. exists (i / D).
    assert (HD : (0 < Z.of_nat D)%Z) by lia.
    pose proof (Z.div_mod (Z.of_nat i) (Z.of_nat D) ltac:(lia)) as E.
    rewrite H, Z.add_0_r in E.
    rewrite <- Nat2Z.inj_div in E. nia.
  - intros [q ->]. rewrite Nat2Z.inj_mul. apply Z.mod_mul. lia.
Qed.

Lemma col_step_inv (k n : nat) (acc : nat * list A) :
  col_inv get zero D k n acc ->
  col_inv get zero D (S k) n (col_step get D acc k).
Proof.
  destruct acc as [j l]. intros (Hj & Hlen & Hlow & Hhigh).
  unfold col_step.
  destruct (Z.of_nat k mod Z.of_nat D =? 0)%Z eqn:Hm.
  - apply multiple_iff in Hm. destruct Hm as [q0 ->].
    assert (Hq0 : q0 = j).
    { destruct (Nat.lt_trichotomy q0 j) as [H | [H | H]]; [| exact H |].
      - apply Hj in H. lia.
      - assert (~ j < j) as Hn by lia. rewrite Hj in Hn. nia. }
    subst q0. unfold col_inv. repeat split.
    + intros H. destruct (Nat.eq_dec q j) as [-> | Hne]; [lia |].
      assert (q < j) as Hq by lia. apply Hj in Hq. lia.
    + intros H. destruct (Nat.eq_dec q j) as [-> | Hne]; [lia |].
      assert (q * D < j * D) as Hq by nia. apply Hj in Hq. lia.
    + rewrite length_insert. exact Hlen.
    + intros q Hq Hn. destruct (Nat.eq_dec q j) as [-> | Hne].
      * apply list_lookup_insert_eq. lia.
      * rewrite list_lookup_insert_ne by lia. apply Hlow; lia.
    + intros q Hq Hn. rewrite list_lookup_insert_ne by lia.
      apply Hhigh; lia.
  - assert (Hno : forall q, k <> q * D).
    { intros q E. assert (Ht : (Z.of_nat k mod Z.of_nat D =? 0)%Z = true)
        by (apply multiple_iff; eauto).
      congruence. }
    unfold col_inv. repeat split; try assumption.
    + intros H. apply Hj in H. lia.
    + intros H. apply Hj. specialize (Hno q). lia.
Qed.

Lemma col_loop_inv (data_size n : nat) :
  col_inv get zero D data_size n (col_loop get zero D data_size n).
Proof.
  unfold col_loop. induction data_size as [| k IH].
  - simpl. repeat split; try lia.
    + apply repeat_length.
    + intros q _ Hq. apply lookup_repeat. exact Hq.
  - rewrite seq_S, fold_left_app. simpl. apply col_step_inv. exact IH.
Qed.

End Column.

(** *** The four arrays are copied column by column *)

Section Projections.
Variables (b : buffers) (D : nat).

Lemma copy_fold_time (l : list nat) :
  forall j t,
    let r := fold_left (copy_step b (Z.of_nat D)) l (j, t) in
    (fst r, sol_time (snd r))
    = fold_left (col_step (at_ (sol_time b)) D) l (j, sol_time t).
Proof.
  induction l as [| i l IH]; intros j t; [reflexivity |].
  simpl. destruct (Z.of_nat i mod Z.of_nat D =? 0)%Z; apply IH.
Qed.

Lemma copy_fold_dt (l : list nat) :
  forall j t,
    let r := fold_left (copy_step b (Z.of_nat D)) l (j, t) in
    (fst r, sol_dt (snd r))
    = fold_left (col_step (at_ (sol_dt b)) D) l (j, sol_dt t).
Proof.
  induction l as [| i l IH]; intros j t; [reflexivity |].
  simpl. destruct (Z.of_nat i mod Z.of_nat D =? 0)%Z; apply IH.
Qed.

Lemma copy_fold_state (l : list nat) :
  forall j t,
    let r := fold_left (copy_step b (Z.of_nat D)) l (j, t) in
    (fst r, sol_state (snd r))
    = fold_left (col_step (row (sol_state b)) D) l (j, sol_state t).
Proof.
  induction l as [| i l IH]; intros j t; [reflexivity |].
  simpl. destruct (Z.of_nat i mod Z.of_nat D =? 0)%Z; apply IH.
Qed.

Lemma copy_fold_energy (e : farray) (l : list nat) :
  energy b = Some e ->
  forall j t te,
    energy t = Some te ->
    let r := fold_left (copy_step b (Z.of_nat D)) l (j, t) in
    energy (snd r) = Some (snd (fold_left (col_step (at_ e) D) l (j, te))).
Proof.
  intros He. induction l as [| i l IH]; intros j t te Ht; [exact Ht |].
  simpl. destruct (Z.of_nat i mod Z.of_nat D =? 0)%Z.
  - apply IH. simpl. rewrite He, Ht. reflexivity.
  - apply IH. exact Ht.
Qed.

Lemma copy_fold_no_energy (l : list nat) :
  forall j t,
    energy t = None ->
    energy (snd (fold_left (copy_step b (Z.of_nat D)) l (j, t))) = None.
Proof.
  induction l as [| i l IH]; intros j t Ht; [exact Ht |].
  simpl. destruct (Z.of_nat i mod Z.of_nat D =? 0)%Z.
  - apply IH. simpl. rewrite Ht. destruct (energy b); reflexivity.
  - apply IH. exact Ht.
Qed.

End Projections.

(** *** The divide factor and the trimmed size *)

Lemma divide_factor_eq (data_size desired : Z) :
  divide_factor data_size desired = (- (- data_size / desired))%Z.
Proof.
  unfold divide_factor, Qceiling. f_equal.
  rewrite Zdiv_Qdiv. apply Qfloor_comp.
  rewrite inject_Z_opp. unfold Qdiv. ring.
Qed.

Lemma trim_size_eq (data_size d : Z) :
  trim_size data_size d = (data_size / d + 1)%Z.
Proof. unfold trim_size. rewrite <- Zdiv_Qdiv. reflexivity. Qed.

Lemma divide_factor_bounds (data_size desired : Z) :
  (1 < desired < data_size)%Z ->
  (2 <= divide_factor data_size desired <= data_size)%Z.
Proof.
  intros H. rewrite divide_factor_eq.
  pose proof (Z.div_mod (- data_size) desired ltac:(lia)) as E.
  pose proof (Z.mod_pos_bound (- data_size) desired ltac:(lia)) as Hm.
  nia.
Qed.

(** *** The trimmed buffers *)

Section FinalColumn.
Context {A : Type}.
Variables (get : nat -> A) (zero : A) (D size n : nat).
Hypotheses (D_pos : 0 < D) (size_pos : 0 < size) (n_eq : n = size / D + 1).

Lemma slots_below (q : nat) : q < n - 1 -> q * D < size.
Proof.
  intros Hq. pose proof (Nat.Div0.mul_div_le size D) as H.
  assert (S q <= size / D) as Hle by lia. nia.
Qed.

Lemma last_slot_le : (n - 1) * D <= size.
Proof.
  pose proof (Nat.Div0.mul_div_le size D) as H.
  replace (n - 1) with (size / D) by lia. lia.
Qed.

(** The column after the loop, then [force_last] with test [forced] and
    the last original entry [get (size - 1)]. *)
Lemma final_column (j : nat) (c : list A) (forced : bool) :
  col_inv get zero D size n (j, c) ->
  let c' := if forced then set_last c (get (size - 1)) else c in
  length c' = n
  /\ (forall q, q < n - 1 -> c' !! q = Some (get (q * D)))
  /\ (forced = true \/ (n - 1) * D = size - 1 ->
      c' !! (n - 1) = Some (get (size - 1))).
Proof using D_pos size_pos n_eq.
  intros (Hj & Hlen & Hlow & Hhigh) c'. subst c'. unfold set_last.
  repeat split.
  - destruct forced; [rewrite length_insert |]; exact Hlen.
  - intros q Hq. pose proof (slots_below q Hq) as Hs.
    assert (Hc : c !! q = Some (get (q * D))).
    { apply Hlow; [apply Hj; exact Hs | lia]. }
    destruct forced; [| exact Hc].
    rewrite list_lookup_insert_ne by lia. exact Hc.
  - intros [-> | Hlast].
    + rewrite Hlen. apply list_lookup_insert_eq. lia.
    + assert (Hc : c !! (n - 1) = Some (get (size - 1))).
      { rewrite <- Hlast. apply Hlow; [apply Hj |]; lia. }
      destruct forced; [| exact Hc].
      rewrite Hlen. apply list_lookup_insert_eq. lia.
Qed.

(** What the last slot holds after the loop. *)
Lemma last_slot_after_loop (j : nat) (c : list A) :
  col_inv get zero D size n (j, c) ->
  c !! (n - 1)
  = Some (if (n - 1) * D <? size then get ((n - 1) * D) else zero).
Proof using D_pos size_pos n_eq.
  intros (Hj & Hlen & Hlow & Hhigh).
  destruct ((n - 1) * D <? size) eqn:Hlt.
  - apply Nat.ltb_lt in Hlt. apply Hlow; [apply Hj; exact Hlt | lia].
  - apply Nat.ltb_ge in Hlt. apply Hhigh; [| lia].
    destruct (Nat.le_gt_cases j (n - 1)) as [H | H]; [exact H |].
    apply Hj in H. lia.
Qed.

End FinalColumn.

Section TrimData.
Variables (objects_count : nat) (b : buffers) (D size n : nat).
Hypotheses (D_pos : 0 < D) (size_pos : 0 < size) (n_eq : n = size / D + 1).
Hypothesis b_wf : well_formed b size.

Let loop := copy_loop objects_count b size (Z.of_nat D) n.
Let forced : bool :=
  negb (last_f (sol_time (snd loop)) =? last_f (sol_time b))%float.
Let t := force_last b (snd loop).

Lemma loop_time :
  col_inv (at_ (sol_time b)) 0%float D size n
    (fst loop, sol_time (snd loop)).
Proof.
  unfold loop, copy_loop.
  rewrite (copy_fold_time b D (seq 0 size) 0 (trimmed_init objects_count b n)).
  apply col_loop_inv. exact D_pos.
Qed.

Lemma loop_dt :
  col_inv (at_ (sol_dt b)) 0%float D size n (fst loop, sol_dt (snd loop)).
Proof.
  unfold loop, copy_loop.
  rewrite (copy_fold_dt b D (seq 0 size) 0 (trimmed_init objects_count b n)).
  apply col_loop_inv. exact D_pos.
Qed.

Lemma loop_state :
  col_inv (row (sol_state b)) (repeat 0%float (objects_count * 3 * 2))
    D size n (fst loop, sol_state (snd loop)).
Proof.
  unfold loop, copy_loop.
  rewrite (copy_fold_state b D (seq 0 size) 0
             (trimmed_init objects_count b n)).
  apply col_loop_inv. exact D_pos.
Qed.

Lemma loop_energy (e : farray) :
  energy b = Some e ->
  exists j te,
    energy (snd loop) = Some te /\ col_inv (at_ e) 0%float D size n (j, te).
Proof.
  intros He. unfold loop, copy_loop.
  rewrite (copy_fold_energy b D e (seq 0 size) He 0
             (trimmed_init objects_count b n) (repeat 0%float n))
    by (simpl; rewrite He; reflexivity).
  pose proof (col_loop_inv (at_ e) 0%float D D_pos size n) as H.
  unfold col_loop in H.
  destruct (fold_left _ _ _) as [j te]. exists j, te. split; [reflexivity | exact H].
Qed.

Lemma last_original_time :
  last_f (sol_time b) = at_ (sol_time b) (size - 1).
Proof. destruct b_wf as (H & _). unfold last_f, at_. rewrite H. reflexivity. Qed.

(** The test of [force_last] succeeds when the terminal time is
    distinct, unless the last slot already holds the terminal sample. *)
Lemma forced_when_distinct :
  terminal_time_distinct b size -> (n - 1) * D <> size - 1 -> forced = true.
Proof.
  intros [H0 Hd] Hne. unfold forced.
  pose proof loop_time as Hinv.
  pose proof (last_slot_after_loop _ _ D size n D_pos size_pos n_eq _ _ Hinv) as Hl.
  destruct Hinv as (_ & Hlen & _).
  unfold last_f at 1. rewrite Hlen.
  rewrite (nth_lookup_Some _ _ _ _ Hl), last_original_time.
  destruct ((n - 1) * D <? size) eqn:Hlt.
  - apply Nat.ltb_lt in Hlt. rewrite Hd by lia. reflexivity.
  - rewrite H0. reflexivity.
Qed.

Lemma trimmed_columns :
  (length (sol_time t) = n
   /\ (forall q, q < n - 1 -> at_ (sol_time t) q = at_ (sol_time b) (q * D))
   /\ (forced = true \/ (n - 1) * D = size - 1 ->
       at_ (sol_time t) (n - 1) = at_ (sol_time b) (size - 1)))
  /\ (length (sol_dt t) = n
      /\ (forall q, q < n - 1 -> at_ (sol_dt t) q = at_ (sol_dt b) (q * D))
      /\ (forced = true \/ (n - 1) * D = size - 1 ->
          at_ (sol_dt t) (n - 1) = at_ (sol_dt b) (size - 1)))
  /\ (length (sol_state t) = n
      /\ (forall q, q < n - 1 ->
            row (sol_state t) q = row (sol_state b) (q * D))
      /\ (forced = true \/ (n - 1) * D = size - 1 ->
          row (sol_state t) (n - 1) = row (sol_state b) (size - 1)))
  /\ (forall e, energy b = Some e ->
        exists te, energy t = Some te
          /\ length te = n
          /\ (forall q, q < n - 1 -> at_ te q = at_ e (q * D))
          /\ (forced = true \/ (n - 1) * D = size - 1 ->
              at_ te (n - 1) = at_ e (size - 1)))
  /\ (energy b = None -> energy t = None).
Proof.
  destruct b_wf as (Wt & Wd & Ws & We).
  assert (Et : sol_time t
               = if forced
                 then set_last (sol_time (snd loop))
                        (at_ (sol_time b) (size - 1))
                 else sol_time (snd loop)).
  { unfold t, force_last. fold forced. rewrite <- last_original_time.
    destruct forced; reflexivity. }
  assert (Ed : sol_dt t
               = if forced
                 then set_last (sol_dt (snd loop)) (at_ (sol_dt b) (size - 1))
                 else sol_dt (snd loop)).
  { unfold t, force_last. fold forced.
    destruct forced; [| reflexivity]. simpl.
    unfold last_f, at_. rewrite Wd. reflexivity. }
  assert (Es : sol_state t
               = if forced
                 then set_last (sol_state (snd loop))
                        (row (sol_state b) (size - 1))
                 else sol_state (snd loop)).
  { unfold t, force_last. fold forced.
    destruct forced; [| reflexivity]. simpl.
    unfold last_row, row. rewrite Ws. reflexivity. }
  repeat apply conj.
  - rewrite Et.
    apply (final_column _ _ D size n D_pos size_pos n_eq _ _ forced loop_time).
  - intros q Hq. rewrite Et.
    apply nth_lookup_Some.
    apply (final_column _ _ D size n D_pos size_pos n_eq _ _ forced loop_time).
    exact Hq.
  - intros H. rewrite Et. apply nth_lookup_Some.
    apply (final_column _ _ D size n D_pos size_pos n_eq _ _ forced loop_time).
    exact H.
  - rewrite Ed.
    apply (final_column _ _ D size n D_pos size_pos n_eq _ _ forced loop_dt).
  - intros q Hq. rewrite Ed. apply nth_lookup_Some.
    apply (final_column _ _ D size n D_pos size_pos n_eq _ _ forced loop_dt).
    exact Hq.
  - intros H. rewrite Ed. apply nth_lookup_Some.
    apply (final_column _ _ D size n D_pos size_pos n_eq _ _ forced loop_dt).
    exact H.
  - rewrite Es.
    apply (final_column _ _ D size n D_pos size_pos n_eq _ _ forced loop_state).
  - intros q Hq. rewrite Es. apply nth_lookup_Some.
    apply (final_column _ _ D size n D_pos size_pos n_eq _ _ forced loop_state).
    exact Hq.
  - intros H. rewrite Es. apply nth_lookup_Some.
    apply (final_column _ _ D size n D_pos size_pos n_eq _ _ forced loop_state).
    exact H.
  - intros e He. destruct (loop_energy e He) as (j & te & Hte & Hinv).
    pose proof (final_column _ _ D size n D_pos size_pos n_eq _ _ forced Hinv)
      as (Hlen & Hlow & Hlast).
    exists (if forced then set_last te (at_ e (size - 1)) else te).
    split.
    { unfold t, force_last. fold forced.
      destruct forced; [| exact Hte]. simpl. rewrite He, Hte.
      unfold last_f at 1, at_. rewrite (We e He). reflexivity. }
    split; [exact Hlen |]. split.
    + intros q Hq. apply nth_lookup_Some, Hlow, Hq.
    + intros H. apply nth_lookup_Some, Hlast, H.
  - intros He. unfold t, force_last.
    assert (Hl : energy (snd loop) = None).
    { unfold loop, copy_loop. apply copy_fold_no_energy.
      simpl. rewrite He. reflexivity. }
    destruct (negb _); [simpl; rewrite He |]; exact Hl.
Qed.

Lemma last_time :
  last_f (sol_time t) = last_f (sol_time b)
  \/ (last_f (sol_time t) =? last_f (sol_time b))%float = true.
Proof.
  pose proof loop_time as (_ & Hlen & _).
  unfold t, force_last.
  destruct (negb _) eqn:Hf.
  - left. simpl. unfold last_f at 1, set_last.
    rewrite length_insert. apply nth_lookup_Some.
    apply list_lookup_insert_eq. lia.
  - right. apply negb_false_iff in Hf. exact Hf.
Qed.

(** The entries of the trimmed buffers, sample by sample. *)
Lemma trimmed_samples :
  well_formed t n
  /\ (energy t = None <-> energy b = None)
  /\ (forall q, q < n - 1 -> sample t q = sample b (q * D))
  /\ (terminal_time_distinct b size ->
      sample t (n - 1) = sample b (size - 1)).
Proof.
  pose proof trimmed_columns
    as ((Lt & Bt & Ft) & (Ld & Bd & Fd) & (Ls & Bs & Fs) & He & Hn).
  assert (Hsome : forall e, energy b = Some e -> exists te, energy t = Some te).
  { intros e E. destruct (He e E) as (te & Hte & _). eauto. }
  repeat apply conj.
  - exact Lt.
  - exact Ld.
  - exact Ls.
  - intros te Hte. destruct (energy b) as [e |] eqn:E.
    + destruct (He e eq_refl) as (te' & Hte' & Hlen & _). congruence.
    + rewrite Hn in Hte by reflexivity. discriminate.
  - intros H. destruct (energy b) as [e |] eqn:E; [| reflexivity].
    destruct (Hsome e eq_refl) as (te & Hte). congruence.
  - exact Hn.
  - intros q Hq. unfold sample.
    rewrite (Bt q Hq), (Bd q Hq), (Bs q Hq).
    destruct (energy b) as [e |] eqn:E.
    + destruct (He e eq_refl) as (te & -> & _ & Hlow & _). simpl.
      rewrite (Hlow q Hq). reflexivity.
    + rewrite Hn by reflexivity. reflexivity.
  - intros Hdist.
    assert (Hf : forced = true \/ (n - 1) * D = size - 1).
    { destruct (Nat.eq_dec ((n - 1) * D) (size - 1)) as [E | E];
        [right; exact E | left; apply forced_when_distinct; assumption]. }
    unfold sample. rewrite (Ft Hf), (Fd Hf), (Fs Hf).
    destruct (energy b) as [e |] eqn:E.
    + destruct (He e eq_refl) as (te & -> & _ & _ & Hlast). simpl.
      rewrite (Hlast Hf). reflexivity.
    + rewrite Hn by reflexivity. reflexivity.
Qed.

End TrimData.

(** C8, as stated, fails.  Five samples of one body trimmed to the
    desired size 2: the divide factor is 3 and samples 0 and 3 are kept.
    Sample 4 was reached from sample 3 (at time 1e5) by a step of 1e-12,
    which does not change the time in binary64.  The two times compare
    equal, the last entry is not forced, and the trimmed buffers end with
    sample 3 and not with the last sample. *)
Lemma trim_keeps_a_sample_before_the_last :
  let t3 := 1e5%float in
  let t4 := (t3 + 1e-12)%float in
  let b :=
    {| sol_time := [0; 5e4; 7e4; t3; t4]%float;
       sol_dt := [0.5; 0.5; 0.5; 0.25; 1e-12]%float;
       sol_state :=
         [[1; 0; 0; 0; 1; 0]; [2; 0; 0; 0; 1; 0]; [3; 0; 0; 0; 1; 0];
          [4; 0; 0; 0; 1; 0]; [5; 0; 0; 0; 1; 0]]%float;
       energy := Some [0.5; 0.5; 0.5; 0.5; 0.75]%float |} in
  let t := trim_data 1 b 5 2 in
  divide_factor 5 2 = 3%Z
  /\ length (sol_time t) = 2
  /\ sample t 1 = sample b 3
  /\ sample t 1 <> sample b 4.
Proof.
  vm_compute. repeat split. intros H. discriminate H.
Qed.

(** C8, amended.  For [1 < desired_trim_size < data_size], with
    [d = ceil(data_size / desired_trim_size)] and
    [n = floor(data_size / d) + 1]: the four trimmed arrays ([energy]
    when it was computed) have length [n]; entry [j] of each, for every
    [j] before the last, is entry [j * d] of the original; the last
    trimmed time is the last original time or compares equal to it;
    and the whole last trimmed entry is the last original entry provided
    the last original time compares unequal to zero and to the time of
    every earlier sample (the test that forces the last entry compares
    times). *)
Theorem trim_data_spec (objects_count : nat) (b : buffers)
    (data_size desired_trim_size : Z) :
  (1 < desired_trim_size < data_size)%Z ->
  well_formed b (Z.to_nat data_size) ->
  let d := divide_factor data_size desired_trim_size in
  let n := Z.to_nat (data_size / d + 1) in
  let t := trim_data objects_count b data_size desired_trim_size in
  well_formed t n
  /\ (energy t = None <-> energy b = None)
  /\ (forall j, j < n - 1 -> sample t j = sample b (j * Z.to_nat d))
  /\ (last_f (sol_time t) = last_f (sol_time b)
      \/ (last_f (sol_time t) =? last_f (sol_time b))%float = true)
  /\ (terminal_time_distinct b (Z.to_nat data_size) ->
      sample t (n - 1) = sample b (Z.to_nat data_size - 1)).
Proof.
  intros Hd Hwf d n t.
  pose proof (divide_factor_bounds data_size desired_trim_size Hd) as Hb.
  fold d in Hb.
  assert (Ed : d = Z.of_nat (Z.to_nat d)) by lia.
  assert (En : n = Z.to_nat data_size / Z.to_nat d + 1).
  { unfold n. rewrite Z2Nat.inj_add by (try apply Z.div_pos; lia).
    rewrite Z2Nat.inj_div by lia. reflexivity. }
  assert (Et : t = force_last b
                     (snd (copy_loop objects_count b (Z.to_nat data_size)
                             (Z.of_nat (Z.to_nat d)) n))).
  { unfold t, trim_data. fold d. rewrite trim_size_eq. fold n.
    rewrite <- Ed. reflexivity. }
  clearbody t. subst t.
  pose proof (trimmed_samples objects_count b (Z.to_nat d)
                (Z.to_nat data_size) n ltac:(lia) ltac:(lia) En Hwf)
    as (H1 & H2 & H3 & H4).
  pose proof (last_time objects_count b (Z.to_nat d)
                (Z.to_nat data_size) n ltac:(lia) ltac:(lia) En) as H5.
  split; [exact H1 |]. split; [exact H2 |]. split; [exact H3 |].
  split; [exact H5 | exact H4].
Qed.

(** The amended statement applies to five samples of one body at the
    times 0, 1, 2, 3, 4, trimmed to the desired size 2: samples 0 and 3
    are kept and the last entry is forced to sample 4. *)
Lemma trim_data_spec_witness :
  let b :=
    {| sol_time := [0; 1; 2; 3; 4]%float;
       sol_dt := [0.5; 1; 1; 1; 1]%float;
       sol_state :=
         [[1; 0; 0; 0; 1; 0]; [2; 0; 0; 0; 1; 0]; [3; 0; 0; 0; 1; 0];
          [4; 0; 0; 0; 1; 0]; [5; 0; 0; 0; 1; 0]]%float;
       energy := Some [0.5; 0.5; 0.5; 0.5; 0.5]%float |} in
  (1 < 2 < 5)%Z
  /\ well_formed b (Z.to_nat 5)
  /\ terminal_time_distinct b (Z.to_nat 5)
  /\ sample (trim_data 1 b 5 2) 1 = sample b 4.
Proof.
  intros b.
  assert (H1 : (1 < 2 < 5)%Z) by lia.
  assert (H2 : well_formed b (Z.to_nat 5)).
  { repeat split. intros e [= <-]. reflexivity. }
  assert (H3 : terminal_time_distinct b (Z.to_nat 5)).
  { split; [reflexivity |].
    intros i Hi. change (Z.to_nat 5 - 1) with 4 in Hi |- *.
    destruct i as [| [| [| [| i]]]]; try reflexivity. lia. }
  split; [exact H1 |]. split; [exact H2 |]. split; [exact H3 |].
  apply (trim_data_spec 1 b 5 2 H1 H2). exact H3.
Defined.

End TrimFacts.

(** ** [rk_embedded] leaves the caller's arrays as they are *)

Module HeapFacts.
Import Np Heap.
Local Open Scope nat_scope.

Section Rules.
Context {A B : Type}.
Variable n0 : nat.

Lemma frames_ret (a : A) (Q : A -> Prop) : Q a -> frames n0 (mret a) Q.
Proof. intros HQ h Hh. simpl. auto. Qed.

Lemma frames_bind (c : M A) (k : A -> M B) (Q1 : A -> Prop) (Q : B -> Prop) :
  frames n0 c Q1 ->
  (forall a, Q1 a -> frames n0 (k a) Q) ->
  frames n0 (c ≫= k) Q.
Proof.
  intros Hc Hk h Hh. unfold mbind, M_bind.
  destruct (Hc h Hh) as (Hlen & Hkeep & HQ1).
  destruct (c h) as [a h1]. simpl in *.
  destruct (Hk a HQ1 h1 ltac:(lia)) as (Hlen' & Hkeep' & HQ).
  split; [lia |]. split; [| exact HQ].
  intros l Hl. rewrite Hkeep' by exact Hl. apply Hkeep, Hl.
Qed.

Lemma frames_weaken (c : M A) (Q Q' : A -> Prop) :
  frames n0 c Q -> (forall a, Q a -> Q' a) -> frames n0 c Q'.
Proof.
  intros Hc HQ h Hh. destruct (Hc h Hh) as (H1 & H2 & H3). auto.
Qed.

End Rules.

Section Primitives.
Variable n0 : nat.

Lemma frames_alloc (o : obj) : frames n0 (alloc o) (fresh n0).
Proof.
  intros h Hh. unfold alloc, fresh, heap in *. simpl.
  rewrite length_app. simpl. split; [lia |]. split; [| exact Hh].
  intros l Hl. apply lookup_app_l. lia.
Qed.

Lemma frames_read (l : loc) : frames n0 (read l) any.
Proof. intros h Hh. unfold read, any. simpl. auto. Qed.

Lemma frames_read_row (l : loc) (j : nat) : frames n0 (read_row l j) any.
Proof. intros h Hh. unfold read_row, any. simpl. auto. Qed.

Lemma frames_write (l : loc) (a : array) :
  fresh n0 l -> frames n0 (write l a) any.
Proof.
  intros Hl h Hh. unfold write, any, fresh, heap in *.
  destruct (h !! l) as [[b | rs] |]; simpl; auto.
  rewrite length_insert. split; [lia |]. split; [| exact I].
  intros l' Hl'. apply list_lookup_insert_ne. lia.
Qed.

Lemma frames_write_row (l : loc) (j : nat) (r : array) :
  fresh n0 l -> frames n0 (write_row l j r) any.
Proof.
  intros Hl h Hh. unfold write_row, any, fresh, heap in *.
  destruct (h !! l) as [[b | rs] |]; simpl; auto.
  rewrite length_insert. split; [lia |]. split; [| exact I].
  intros l' Hl'. apply list_lookup_insert_ne. lia.
Qed.

Lemma frames_np_zeros (n : nat) : frames n0 (np_zeros n) (fresh n0).
Proof. apply frames_alloc. Qed.

Lemma frames_np_zeros_stack (s n : nat) :
  frames n0 (np_zeros_stack s n) (fresh n0).
Proof. apply frames_alloc. Qed.

Lemma frames_iadd (a : loc) (r : array) :
  fresh n0 a -> frames n0 (iadd a r) any.
Proof.
  intros Ha. unfold iadd.
  eapply frames_bind; [apply frames_read |].
  intros av _. apply frames_write, Ha.
Qed.

Lemma frames_imul (a : loc) (c : R) :
  fresh n0 a -> frames n0 (imul a c) any.
Proof.
  intros Ha. unfold imul.
  eapply frames_bind; [apply frames_read |].
  intros av _. apply frames_write, Ha.
Qed.

Lemma frames_for_each {J : Type} (l : list J) (body : J -> M unit) :
  (forall i, frames n0 (body i) any) -> frames n0 (for_each l body) any.
Proof.
  intros Hbody. induction l as [| i l IH]; simpl.
  - apply frames_ret. exact I.
  - eapply frames_bind; [apply Hbody |]. intros _ _. exact IH.
Qed.

End Primitives.

(** One step through a computation: a primitive, then the rest. *)
Ltac frame_step :=
  lazymatch goal with
  | |- frames _ (mret _) _ => apply frames_ret; exact I
  | |- frames _ (_ ≫= _) _ =>
      eapply frames_bind;
      [ first [ apply frames_np_zeros | apply frames_np_zeros_stack
              | apply frames_alloc | apply frames_read
              | apply frames_read_row
              | apply frames_iadd; assumption
              | apply frames_imul; assumption
              | apply frames_write_row; assumption
              | apply frames_write; assumption ]
      | intros ? ? ]
  | |- frames _ (write_row _ _ _) _ => apply frames_write_row; assumption
  | |- frames _ (write _ _) _ => apply frames_write; assumption
  | |- frames _ (iadd _ _) _ => apply frames_iadd; assumption
  | |- frames _ (imul _ _) _ => apply frames_imul; assumption
  end.

Section Embedded.
Variable acceleration : nat -> array -> array -> R -> array.
Variable p : RK.rk_params.
Variable n0 : nat.

Lemma frames_stage_body (vk xk m x v : loc) (actual_dt : R) (stage : nat) :
  fresh n0 vk -> fresh n0 xk ->
  frames n0 (stage_body acceleration p vk xk m x v actual_dt stage) any.
Proof.
  intros Hvk Hxk. unfold stage_body.
  do 2 frame_step.
  eapply frames_bind.
  { apply frames_for_each. intros j. repeat frame_step. }
  intros _ _. repeat frame_step.
Qed.

Lemma frames_iteration (vk xk m : loc) (s : locals) :
  fresh n0 vk -> fresh n0 xk ->
  frames n0 (iteration acceleration p vk xk m s) any.
Proof.
  intros Hvk Hxk. destruct s as [[[x v] t] actual_dt]. unfold iteration.
  do 5 frame_step.
  eapply frames_bind.
  { apply frames_for_each. intros stage.
    apply frames_stage_body; assumption. }
  intros _ _. do 4 frame_step.
  eapply frames_bind.
  { apply frames_for_each. intros stage. repeat frame_step. }
  intros _ _. do 12 frame_step.
  destruct (RK.accepts p _ actual_dt); apply frames_ret; exact I.
Qed.

Lemma frames_loop (vk xk m : loc) (n : nat) :
  fresh n0 vk -> fresh n0 xk ->
  forall i s, frames n0 (loop acceleration p vk xk m n i s) any.
Proof.
  intros Hvk Hxk. induction n as [| n IH]; intros i s; simpl.
  - apply frames_ret. exact I.
  - eapply frames_bind; [apply frames_iteration; assumption |].
    intros s' _. destruct (returns_early p i s').
    + apply frames_ret. exact I.
    + apply IH.
Qed.

Lemma frames_rk_embedded (x v m : loc) (actual_dt : R) :
  frames n0 (rk_embedded acceleration p x v m actual_dt) any.
Proof.
  unfold rk_embedded. do 2 frame_step. apply frames_loop; assumption.
Qed.

End Embedded.

(** C9.  [rk_embedded], run from any store [h] with references [x],
    [v], [m] to the caller's arrays, ends in a store in which every
    object of [h], so the arrays [x], [v] and [m] too, is as it was:
    the stage arrays, the candidate states, the error deltas and the
    temporaries are objects that the call created, and the results are
    the returned tuple. *)
Theorem rk_embedded_keeps_arguments
    (acceleration : nat -> array -> array -> R -> array)
    (p : RK.rk_params) (x v m : loc) (actual_dt : R) (h : heap) :
  unchanged h (snd (rk_embedded acceleration p x v m actual_dt h)).
Proof.
  intros l Hl.
  apply (frames_rk_embedded acceleration p (length h) x v m actual_dt h
           (Nat.le_refl _)), Hl.
Qed.

End HeapFacts.

(** ** The two embeddings of [rk_embedded] agree *)

Module HeapRefinement.
Import Np Heap.
Local Open Scope nat_scope.

Section Rules.
Context {A B : Type}.

Lemma wp_ret (a : A) (Q : A -> heap -> Prop) (h : heap) :
  Q a h -> wp (mret a) Q h.
Proof. intros H. exact H. Qed.

Lemma wp_bind (c : M A) (k : A -> M B) (Q : B -> heap -> Prop) (h : heap) :
  wp c (fun a h' => wp (k a) Q h') h -> wp (c ≫= k) Q h.
Proof.
  unfold wp, mbind, M_bind. destruct (c h) as [a h']. simpl. auto.
Qed.

Lemma wp_mono (c : M A) (Q Q' : A -> heap -> Prop) (h : heap) :
  wp c Q h -> (forall a h', Q a h' -> Q' a h') -> wp c Q' h.
Proof. unfold wp. auto. Qed.

End Rules.

Lemma insert_updated (h : heap) (l : loc) (o o0 : obj) :
  h !! l = Some o0 -> updated h l o (<[l := o]> h).
Proof.
  intros Hl. unfold updated, heap in *. apply lookup_lt_Some in Hl as Hlt.
  rewrite length_insert. split; [reflexivity |]. split.
  - apply list_lookup_insert_eq, Hlt.
  - intros l' Hne. apply list_lookup_insert_ne. congruence.
Qed.

Lemma wp_alloc (Q : loc -> heap -> Prop) (o : obj) (h : heap) :
  (forall l h', extended h l o h' -> Q l h') -> wp (alloc o) Q h.
Proof.
  intros H. unfold wp, alloc. simpl. apply H.
  unfold extended, heap in *. rewrite length_app. simpl.
  split; [reflexivity |]. split; [lia |]. split.
  - rewrite lookup_app_r by lia. rewrite Nat.sub_diag. reflexivity.
  - intros l' Hl'. apply lookup_app_l, Hl'.
Qed.

Lemma wp_read (Qa : array -> heap -> Prop) (l : loc) (a : array)
    (h : heap) :
  h !! l = Some (Arr a) -> Qa a h -> wp (read l) Qa h.
Proof. intros Hl H. unfold wp, read. simpl. rewrite Hl. exact H. Qed.

Lemma wp_read_row (Qa : array -> heap -> Prop) (l : loc) (j : nat)
    (rs : list array) (h : heap) :
  h !! l = Some (Stack rs) -> Qa (nth j rs []) h -> wp (read_row l j) Qa h.
Proof. intros Hl H. unfold wp, read_row. simpl. rewrite Hl. exact H. Qed.

Lemma wp_write (Qu : unit -> heap -> Prop) (l : loc) (a a0 : array)
    (h : heap) :
  h !! l = Some (Arr a0) ->
  (forall h', updated h l (Arr a) h' -> Qu tt h') ->
  wp (write l a) Qu h.
Proof.
  intros Hl H. unfold wp, write. simpl. rewrite Hl.
  apply H. eapply insert_updated, Hl.
Qed.

Lemma wp_write_row (Qu : unit -> heap -> Prop) (l : loc) (j : nat)
    (r : array) (rs : list array) (h : heap) :
  h !! l = Some (Stack rs) ->
  (forall h', updated h l (Stack (<[j := r]> rs)) h' -> Qu tt h') ->
  wp (write_row l j r) Qu h.
Proof.
  intros Hl H. unfold wp, write_row. simpl. rewrite Hl.
  apply H. eapply insert_updated, Hl.
Qed.

Lemma wp_iadd (Qu : unit -> heap -> Prop) (l : loc) (r a0 : array)
    (h : heap) :
  h !! l = Some (Arr a0) ->
  (forall h', updated h l (Arr (add a0 r)) h' -> Qu tt h') ->
  wp (iadd l r) Qu h.
Proof.
  intros Hl H. unfold iadd. apply wp_bind.
  eapply wp_read; [exact Hl |]. eapply wp_write; [exact Hl | exact H].
Qed.

Lemma wp_imul (Qu : unit -> heap -> Prop) (l : loc) (c : R) (a0 : array)
    (h : heap) :
  h !! l = Some (Arr a0) ->
  (forall h', updated h l (Arr (times a0 c)) h' -> Qu tt h') ->
  wp (imul l c) Qu h.
Proof.
  intros Hl H. unfold imul. apply wp_bind.
  eapply wp_read; [exact Hl |]. eapply wp_write; [exact Hl | exact H].
Qed.

(** A loop with the invariant [Inv], stated on the indices done. *)
Lemma wp_for_each {J : Type} (body : J -> M unit)
    (Inv : list J -> heap -> Prop) (Q : unit -> heap -> Prop) (l : list J) :
  (forall done i h, Inv done h ->
     wp (body i) (fun _ h' => Inv (done ++ [i]) h') h) ->
  (forall h, Inv l h -> Q tt h) ->
  forall h, Inv [] h -> wp (for_each l body) Q h.
Proof.
  intros Hbody Hend.
  assert (G : forall rest done h,
             l = done ++ rest -> Inv done h -> wp (for_each rest body) Q h).
  { induction rest as [| i rest IH]; intros done h El Hinv; simpl.
    - apply wp_ret. apply Hend. rewrite El, app_nil_r. exact Hinv.
    - apply wp_bind. eapply wp_mono; [apply Hbody, Hinv |].
      intros u h' Hinv'. apply (IH (done ++ [i])); [| exact Hinv'].
      rewrite El, <- app_assoc. reflexivity. }
  intros h Hinv. apply (G l [] h); [reflexivity | exact Hinv].
Qed.

Lemma fold_left_pointwise {S J : Type} (f g : S -> J -> S) (l : list J) :
  (forall a i, f a i = g a i) ->
  forall a, fold_left f l a = fold_left g l a.
Proof.
  intros E. induction l as [| i l IH]; intros a; simpl; [reflexivity |].
  rewrite E. apply IH.
Qed.

(** *** Symbolic execution *)

(** Two references differ: by their positions in the store, or because
    they refer to objects of different kinds. *)
Ltac differ :=
  first
    [ lia
    | congruence
    | repeat match goal with
             | H : _ !! _ = Some _ |- _ => apply lookup_lt_Some in H
             end;
      unfold heap in *; lia ].

(** Carry what is known about the store [h] over to [h'], given how [h']
    was obtained from [h]. *)
Ltac carry_updated U :=
  let Ulen := fresh "Hlen" in
  let Uat := fresh "Hat" in
  let Uother := fresh "Hother" in
  destruct U as (Ulen & Uat & Uother);
  repeat match goal with
         | H : ?h !! ?l = Some ?o, Hother : forall l', l' <> ?a -> ?h' !! l' = ?h !! l'
           |- _ =>
             lazymatch goal with
             | _ : h' !! l = Some _ |- _ => fail
             | _ =>
                 let E := fresh "Hlk" in
                 assert (E : h' !! l = Some o)
                   by (rewrite Hother; [exact H | differ])
             end
         end.

Ltac carry_extended X :=
  let Xl := fresh "Hloc" in
  let Xlen := fresh "Hlen" in
  let Xat := fresh "Hat" in
  let Xother := fresh "Hother" in
  destruct X as (Xl & Xlen & Xat & Xother);
  repeat match goal with
         | H : ?h !! ?l = Some ?o, Hother : forall l', l' < length ?h -> ?h' !! l' = ?h !! l'
           |- _ =>
             lazymatch goal with
             | _ : h' !! l = Some _ |- _ => fail
             | _ =>
                 let E := fresh "Hlk" in
                 assert (E : h' !! l = Some o)
                   by (rewrite Hother;
                       [exact H | apply lookup_lt_Some in H; exact H])
             end
         end.

(** Execute the first primitive of the computation. *)
Ltac step :=
  lazymatch goal with
  | |- wp (mret _) _ _ => apply wp_ret
  | |- wp (_ ≫= _) _ _ => apply wp_bind; step
  | |- wp (np_zeros _) _ _ =>
      apply wp_alloc; let l := fresh "l" in let h := fresh "h" in
      let X := fresh "X" in intros l h X; carry_extended X
  | |- wp (np_zeros_stack _ _) _ _ =>
      apply wp_alloc; let l := fresh "l" in let h := fresh "h" in
      let X := fresh "X" in intros l h X; carry_extended X
  | |- wp (alloc _) _ _ =>
      apply wp_alloc; let l := fresh "l" in let h := fresh "h" in
      let X := fresh "X" in intros l h X; carry_extended X
  | |- wp (read _) _ _ => eapply wp_read; [eassumption |]
  | |- wp (read_row _ _) _ _ => eapply wp_read_row; [eassumption |]
  | |- wp (write _ _) _ _ =>
      eapply wp_write; [eassumption |];
      let h := fresh "h" in let U := fresh "U" in
      intros h U; carry_updated U
  | |- wp (write_row _ _ _) _ _ =>
      eapply wp_write_row; [eassumption |];
      let h := fresh "h" in let U := fresh "U" in
      intros h U; carry_updated U
  | |- wp (iadd _ _) _ _ =>
      eapply wp_iadd; [eassumption |];
      let h := fresh "h" in let U := fresh "U" in
      intros h U; carry_updated U
  | |- wp (imul _ _) _ _ =>
      eapply wp_imul; [eassumption |];
      let h := fresh "h" in let U := fresh "U" in
      intros h U; carry_updated U
  end.

Section Embedded.
Variable acceleration : nat -> array -> array -> R -> array.
Variable p : RK.rk_params.

Local Abbreviation N := (RK.objects_count p).

Lemma stage_sums_fold (stage : nat) (vks xks : list array) :
  RK.stage_sums p stage vks xks
  = fold_left (sums_step p stage vks xks) (seq 0 stage)
      (zeros (N * 3), zeros (N * 3)).
Proof.
  unfold RK.stage_sums. apply fold_left_pointwise.
  intros [tv tx] j. reflexivity.
Qed.

(** The loop [for j in range(stage)] leaves [temp_v] and [temp_x] with
    the sums of [RK.stage_sums], and touches nothing else. *)
Lemma wp_stage_sums (stage : nat) (vk xk temp_v temp_x : loc)
    (vks xks : list array) (Q : unit -> heap -> Prop) (h : heap) :
  h !! vk = Some (Stack vks) ->
  h !! xk = Some (Stack xks) ->
  h !! temp_v = Some (Arr (zeros (N * 3))) ->
  h !! temp_x = Some (Arr (zeros (N * 3))) ->
  temp_v <> temp_x ->
  (forall h',
     length h' = length h ->
     h' !! temp_v = Some (Arr (fst (RK.stage_sums p stage vks xks))) ->
     h' !! temp_x = Some (Arr (snd (RK.stage_sums p stage vks xks))) ->
     (forall l, l <> temp_v -> l <> temp_x -> h' !! l = h !! l) ->
     Q tt h') ->
  wp (for_each (seq 0 stage) (fun j =>
        vkj ← read_row vk j;
        iadd temp_v (scale (RK.coeff_at p (stage - 1) j) vkj);;
        xkj ← read_row xk j;
        iadd temp_x (scale (RK.coeff_at p (stage - 1) j) xkj))) Q h.
Proof.
  intros Hvk Hxk Htv Htx Hne HQ.
  apply (wp_for_each _
           (fun done h' =>
              length h' = length h
              /\ h' !! temp_v
                 = Some (Arr (fst (fold_left (sums_step p stage vks xks) done
                                     (zeros (N * 3), zeros (N * 3)))))
              /\ h' !! temp_x
                 = Some (Arr (snd (fold_left (sums_step p stage vks xks) done
                                     (zeros (N * 3), zeros (N * 3)))))
              /\ (forall l, l <> temp_v -> l <> temp_x -> h' !! l = h !! l))).
  - intros done j h1 (Hlen1 & Htv1 & Htx1 & Hoth1).
    assert (Hvk1 : h1 !! vk = Some (Stack vks))
      by (rewrite Hoth1; [exact Hvk | congruence | congruence]).
    assert (Hxk1 : h1 !! xk = Some (Stack xks))
      by (rewrite Hoth1; [exact Hxk | congruence | congruence]).
    do 4 step.
    rewrite fold_left_app. simpl.
    split; [lia |]. split; [assumption |]. split; [assumption |].
    intros l Hl1 Hl2.
    rewrite Hother0, Hother by assumption. apply Hoth1; assumption.
  - intros h' (Hlen' & Htv' & Htx' & Hoth').
    rewrite <- stage_sums_fold in Htv', Htx'.
    apply HQ; assumption.
  - simpl. repeat split; assumption.
Qed.

Lemma stage_step_eq (s : RK.rk_state) (vks xks : list array) (stage : nat) :
  RK.stage_step acceleration p s (vks, xks) stage
  = (<[stage := acceleration N
                  (add (RK.x s)
                     (scale (RK.actual_dt s)
                        (snd (RK.stage_sums p stage vks xks))))
                  (RK.m p) (RK.G p)]> vks,
     <[stage := add (RK.v s)
                  (scale (RK.actual_dt s)
                     (fst (RK.stage_sums p stage vks xks)))]> xks).
Proof.
  unfold RK.stage_step. destruct (RK.stage_sums p stage vks xks).
  reflexivity.
Qed.

(** The body of the stage loop updates [vk] and [xk] as
    [RK.stage_step] does. *)
Lemma wp_stage_body (s : RK.rk_state) (vk xk m x v : loc)
    (vks xks : list array) (stage : nat)
    (Q : unit -> heap -> Prop) (h : heap) :
  arrays_at p h x v m s ->
  h !! vk = Some (Stack vks) ->
  h !! xk = Some (Stack xks) ->
  vk <> xk ->
  (forall h',
     length h <= length h' ->
     h' !! vk
       = Some (Stack (fst (RK.stage_step acceleration p s (vks, xks) stage))) ->
     h' !! xk
       = Some (Stack (snd (RK.stage_step acceleration p s (vks, xks) stage))) ->
     (forall l, l < length h -> l <> vk -> l <> xk -> h' !! l = h !! l) ->
     Q tt h') ->
  wp (stage_body acceleration p vk xk m x v (RK.actual_dt s) stage) Q h.
Proof.
  intros (Hx & Hv & Hm) Hvk Hxk Hne HQ. unfold stage_body.
  step. step.
  apply wp_bind. eapply wp_stage_sums; try eassumption; [differ |].
  intros h2 Hlen2 Htv Htx Hoth2.
  assert (Hx2 : h2 !! x = Some (Arr (RK.x s)))
    by (rewrite Hoth2; [assumption | differ | differ]).
  assert (Hv2 : h2 !! v = Some (Arr (RK.v s)))
    by (rewrite Hoth2; [assumption | differ | differ]).
  assert (Hm2 : h2 !! m = Some (Arr (RK.m p)))
    by (rewrite Hoth2; [assumption | differ | differ]).
  assert (Hvk2 : h2 !! vk = Some (Stack vks))
    by (rewrite Hoth2; [assumption | differ | differ]).
  assert (Hxk2 : h2 !! xk = Some (Stack xks))
    by (rewrite Hoth2; [assumption | differ | differ]).
  do 7 step.
  rewrite stage_step_eq in HQ. simpl in HQ.
  apply HQ; try assumption.
  - lia.
  - intros l' Hl' Hl1 Hl2.
    rewrite Hother2, Hother1 by assumption.
    rewrite Hoth2 by lia.
    rewrite Hother0, Hother by lia. reflexivity.
Qed.

(** The stage loop computes the stage arrays of [RK.compute_stages]. *)
Lemma wp_stage_loop (s : RK.rk_state) (vk xk m x v : loc)
    (vk0 xk0 : list array) (stages : list nat)
    (Q : unit -> heap -> Prop) (h : heap) :
  arrays_at p h x v m s ->
  h !! vk = Some (Stack vk0) ->
  h !! xk = Some (Stack xk0) ->
  vk <> xk ->
  (forall h',
     length h <= length h' ->
     h' !! vk
       = Some (Stack (fst (fold_left (RK.stage_step acceleration p s) stages
                             (vk0, xk0)))) ->
     h' !! xk
       = Some (Stack (snd (fold_left (RK.stage_step acceleration p s) stages
                             (vk0, xk0)))) ->
     (forall l, l < length h -> l <> vk -> l <> xk -> h' !! l = h !! l) ->
     Q tt h') ->
  wp (for_each stages
        (stage_body acceleration p vk xk m x v (RK.actual_dt s))) Q h.
Proof.
  intros (Hx & Hv & Hm) Hvk Hxk Hne HQ.
  apply (wp_for_each _
           (fun done h' =>
              length h <= length h'
              /\ h' !! vk
                 = Some (Stack (fst (fold_left
                                       (RK.stage_step acceleration p s) done
                                       (vk0, xk0))))
              /\ h' !! xk
                 = Some (Stack (snd (fold_left
                                       (RK.stage_step acceleration p s) done
                                       (vk0, xk0))))
              /\ (forall l, l < length h -> l <> vk -> l <> xk ->
                    h' !! l = h !! l))).
  - intros done stage h1 (Hlen1 & Hvk1 & Hxk1 & Hoth1).
    eapply wp_stage_body; try eassumption.
    + repeat split; rewrite Hoth1; try assumption; differ.
    + intros h2 Hlen2 Hvk2 Hxk2 Hoth2.
      rewrite fold_left_app. simpl.
      destruct (fold_left _ done _) as [vks xks]. simpl in *.
      split; [lia |]. split; [exact Hvk2 |]. split; [exact Hxk2 |].
      intros l Hl Hl1 Hl2. rewrite Hoth2 by lia. apply Hoth1; assumption.
  - intros h' (H1 & H2 & H3 & H4). apply HQ; assumption.
  - simpl. repeat split; try assumption. lia.
Qed.

Lemma weighted_sums_fold (vks xks : list array) :
  RK.weighted_sums p vks xks
  = fold_left (weights_step p vks xks) (seq 0 (RK.stages p))
      (zeros (N * 3), zeros (N * 3), zeros (N * 3), zeros (N * 3)).
Proof.
  unfold RK.weighted_sums. apply fold_left_pointwise.
  intros [[[tv tx] dv] dx] j. reflexivity.
Qed.

(** The loop [for stage in range(stages)] leaves the four accumulators
    with the sums of [RK.weighted_sums], and touches nothing else. *)
Lemma wp_weighted_sums (vk xk temp_v temp_x delta_x delta_v : loc)
    (vks xks : list array) (Q : unit -> heap -> Prop) (h : heap) :
  h !! vk = Some (Stack vks) ->
  h !! xk = Some (Stack xks) ->
  h !! temp_v = Some (Arr (zeros (N * 3))) ->
  h !! temp_x = Some (Arr (zeros (N * 3))) ->
  h !! delta_x = Some (Arr (zeros (N * 3))) ->
  h !! delta_v = Some (Arr (zeros (N * 3))) ->
  temp_v < temp_x < delta_x /\ delta_x < delta_v ->
  (forall h',
     length h' = length h ->
     let w := RK.weighted_sums p vks xks in
     h' !! temp_v = Some (Arr (fst (fst (fst w)))) ->
     h' !! temp_x = Some (Arr (snd (fst (fst w)))) ->
     h' !! delta_v = Some (Arr (snd (fst w))) ->
     h' !! delta_x = Some (Arr (snd w)) ->
     (forall l, l <> temp_v -> l <> temp_x -> l <> delta_x -> l <> delta_v ->
        h' !! l = h !! l) ->
     Q tt h') ->
  wp (for_each (seq 0 (RK.stages p)) (fun stage =>
        vks ← read_row vk stage;
        xks ← read_row xk stage;
        iadd temp_v (scale (nth stage (RK.weights p) 0%R) vks);;
        iadd temp_x (scale (nth stage (RK.weights p) 0%R) xks);;
        iadd delta_v
          (scale (nth stage (RK.error_estimation_delta_weights p) 0%R) vks);;
        iadd delta_x
          (scale (nth stage (RK.error_estimation_delta_weights p) 0%R) xks)))
    Q h.
Proof.
  intros Hvk Hxk Htv Htx Hdx Hdv Hord HQ.
  set (init := (zeros (N * 3), zeros (N * 3), zeros (N * 3), zeros (N * 3))).
  apply (wp_for_each _
           (fun done h' =>
              let w := fold_left (weights_step p vks xks) done init in
              length h' = length h
              /\ h' !! temp_v = Some (Arr (fst (fst (fst w))))
              /\ h' !! temp_x = Some (Arr (snd (fst (fst w))))
              /\ h' !! delta_v = Some (Arr (snd (fst w)))
              /\ h' !! delta_x = Some (Arr (snd w))
              /\ (forall l, l <> temp_v -> l <> temp_x -> l <> delta_x ->
                    l <> delta_v -> h' !! l = h !! l))).
  - intros done j h1 (Hlen1 & Htv1 & Htx1 & Hdv1 & Hdx1 & Hoth1).
    assert (Hvk1 : h1 !! vk = Some (Stack vks))
      by (rewrite Hoth1; [exact Hvk | congruence ..]).
    assert (Hxk1 : h1 !! xk = Some (Stack xks))
      by (rewrite Hoth1; [exact Hxk | congruence ..]).
    do 6 step.
    rewrite fold_left_app. simpl.
    split; [lia |]. repeat (split; [assumption |]).
    intros l Hl1 Hl2 Hl3 Hl4.
    rewrite Hother2, Hother1, Hother0, Hother by assumption.
    apply Hoth1; assumption.
  - intros h' (Hlen' & Htv' & Htx' & Hdv' & Hdx' & Hoth').
    apply HQ; try assumption; rewrite weighted_sums_fold; assumption.
  - simpl. repeat split; assumption.
Qed.

Lemma rk_attempt_eq (s : RK.rk_state) :
  let ks := RK.compute_stages acceleration p s in
  let w := RK.weighted_sums p (fst ks) (snd ks) in
  let v_1 := add (RK.v s) (scale (RK.actual_dt s) (fst (fst (fst w)))) in
  let x_1 := add (RK.x s) (scale (RK.actual_dt s) (snd (fst (fst w)))) in
  let delta_v := times (snd (fst w)) (RK.actual_dt s) in
  let delta_x := times (snd w) (RK.actual_dt s) in
  let tolerance_scale_v :=
    shift (RK.abs_tolerance p)
      (times (maximum (abs (RK.v s)) (abs v_1)) (RK.rel_tolerance p)) in
  let tolerance_scale_x :=
    shift (RK.abs_tolerance p)
      (times (maximum (abs (RK.x s)) (abs x_1)) (RK.rel_tolerance p)) in
  RK.rk_attempt acceleration p s
  = {| RK.vk' := fst ks; RK.xk' := snd ks; RK.x_1 := x_1; RK.v_1 := v_1;
       RK.error :=
         sqrt ((sum (square (div delta_x tolerance_scale_x))
                + sum (square (div delta_v tolerance_scale_v)))
               / (INR N * 3 * 2)) |}.
Proof.
  cbv zeta. unfold RK.rk_attempt.
  destruct (RK.compute_stages acceleration p s) as [vks xks]. simpl.
  destruct (RK.weighted_sums p vks xks) as [[[tv tx] dv] dx]. reflexivity.
Qed.

(** One iteration on the store computes [RK.rk_iteration]. *)
Lemma wp_iteration (s : RK.rk_state) (vk xk m x v : loc)
    (Q : locals -> heap -> Prop) (h : heap) :
  arrays_at p h x v m s ->
  h !! vk = Some (Stack (RK.vk s)) ->
  h !! xk = Some (Stack (RK.xk s)) ->
  vk <> xk ->
  (forall x' v' h',
     let s' := RK.rk_iteration acceleration p s in
     length h <= length h' ->
     arrays_at p h' x' v' m s' ->
     h' !! vk = Some (Stack (RK.vk s')) ->
     h' !! xk = Some (Stack (RK.xk s')) ->
     Q (x', v', RK.t s', RK.actual_dt s') h') ->
  wp (iteration acceleration p vk xk m (x, v, RK.t s, RK.actual_dt s)) Q h.
Proof.
  intros (Hx & Hv & Hm) Hvk Hxk Hne HQ. unfold iteration.
  do 5 step.
  apply wp_bind. eapply (wp_stage_loop s); try eassumption.
  { repeat split; assumption. }
  intros h2 Hlen2 Hvk2 Hxk2 Hoth2.
  fold (RK.compute_stages acceleration p s) in Hvk2, Hxk2.
  assert (Hx2 : h2 !! x = Some (Arr (RK.x s)))
    by (rewrite Hoth2; [assumption | differ ..]).
  assert (Hv2 : h2 !! v = Some (Arr (RK.v s)))
    by (rewrite Hoth2; [assumption | differ ..]).
  assert (Hm2 : h2 !! m = Some (Arr (RK.m p)))
    by (rewrite Hoth2; [assumption | differ ..]).
  do 4 step.
  apply wp_bind. eapply wp_weighted_sums; try eassumption; [lia |].
  intros h7 Hlen7 w Htv Htx Hdv Hdx Hoth7.
  assert (Hx7 : h7 !! x = Some (Arr (RK.x s)))
    by (rewrite Hoth7; [assumption | differ ..]).
  assert (Hv7 : h7 !! v = Some (Arr (RK.v s)))
    by (rewrite Hoth7; [assumption | differ ..]).
  assert (Hm7 : h7 !! m = Some (Arr (RK.m p)))
    by (rewrite Hoth7; [assumption | differ ..]).
  assert (Hvk7 : h7 !! vk
                 = Some (Stack (fst (RK.compute_stages acceleration p s))))
    by (rewrite Hoth7; [assumption | differ ..]).
  assert (Hxk7 : h7 !! xk
                 = Some (Stack (snd (RK.compute_stages acceleration p s))))
    by (rewrite Hoth7; [assumption | differ ..]).
  do 12 step.
  pose proof (rk_attempt_eq s) as Ea. cbv zeta in Ea. fold w in Ea.
  match goal with
  | |- context [RK.accepts p ?e _] =>
      assert (EE : e = RK.error (RK.rk_attempt acceleration p s))
        by (rewrite Ea; reflexivity);
      rewrite EE
  end.
  pose proof (f_equal RK.x_1 Ea) as Ex1.
  pose proof (f_equal RK.v_1 Ea) as Ev1.
  pose proof (f_equal RK.vk' Ea) as Evk.
  pose proof (f_equal RK.xk' Ea) as Exk.
  simpl in Ex1, Ev1, Evk, Exk.
  revert HQ. cbv zeta. unfold RK.rk_iteration.
  destruct (RK.accepts p _ _); simpl; intros HQ; apply wp_ret, HQ;
    rewrite ?Ex1, ?Ev1, ?Evk, ?Exk;
    try assumption; try (unfold heap in *; lia);
    repeat split; assumption.
Qed.

(** The loop on the store computes [RK.rk_loop]. *)
Lemma wp_loop (vk xk m : loc) (n : nat) :
  vk <> xk ->
  forall (i : Z) (s : RK.rk_state) (x v : loc)
         (Q : locals -> heap -> Prop) (h : heap),
    arrays_at p h x v m s ->
    h !! vk = Some (Stack (RK.vk s)) ->
    h !! xk = Some (Stack (RK.xk s)) ->
    (forall x' v' h',
       let s' := RK.rk_loop acceleration p n i s in
       length h <= length h' ->
       arrays_at p h' x' v' m s' ->
       Q (x', v', RK.t s', RK.actual_dt s') h') ->
    wp (loop acceleration p vk xk m n i (x, v, RK.t s, RK.actual_dt s)) Q h.
Proof.
  intros Hne. induction n as [| n IH]; intros i s x v Q h Ha Hvk Hxk HQ.
  - simpl. apply wp_ret. apply HQ; [lia | exact Ha].
  - simpl. apply wp_bind. apply wp_iteration; try assumption.
    intros x' v' h' s' Hlen' Ha' Hvk' Hxk'.
    change (returns_early p i (x', v', RK.t s', RK.actual_dt s'))
      with (RK.returns_early p i s').
    simpl in HQ. fold s' in HQ.
    destruct (RK.returns_early p i s').
    + apply wp_ret. apply HQ; assumption.
    + apply IH; try assumption.
      intros x'' v'' h'' s'' Hlen'' Ha''. apply HQ; [lia | exact Ha''].
Qed.

End Embedded.

(** [Heap.rk_embedded], called with references to arrays that hold [xv],
    [vv] and the masses, returns references to arrays that hold the
    [x] and [v] that [RK.rk_embedded] returns for [xv] and [vv], and the
    same [t] and [actual_dt]. *)
Theorem rk_embedded_on_store
    (acceleration : nat -> array -> array -> R -> array)
    (p : RK.rk_params) (x v m : loc) (xv vv : array) (actual_dt : R)
    (h : heap) :
  h !! x = Some (Arr xv) ->
  h !! v = Some (Arr vv) ->
  h !! m = Some (Arr (RK.m p)) ->
  wp (rk_embedded acceleration p x v m actual_dt)
    (fun r h' =>
       let '(x', v', t', dt') := r in
       let '(xr, vr, tr, dtr) := RK.rk_embedded acceleration p xv vv actual_dt in
       h' !! x' = Some (Arr xr) /\ h' !! v' = Some (Arr vr)
       /\ t' = tr /\ dt' = dtr) h.
Proof.
  intros Hx Hv Hm. unfold rk_embedded. do 2 step.
  set (s0 := {| RK.x := xv; RK.v := vv; RK.t := RK.simulation_time p;
                RK.actual_dt := actual_dt;
                RK.vk := repeat (zeros (RK.objects_count p * 3)) (RK.stages p);
                RK.xk := repeat (zeros (RK.objects_count p * 3)) (RK.stages p)
             |}).
  apply (wp_loop acceleration p l l0 m _ ltac:(lia) 0%Z s0 x v);
    try assumption.
  - repeat split; assumption.
  - intros x' v' h' s' Hlen' (Hx' & Hv' & Hm').
    unfold RK.rk_embedded, RK.returned. fold s0. fold s'.
    repeat split; assumption.
Qed.

End HeapRefinement.

(** * Further properties *)

(** ** The integrator in exact arithmetic *)

Module FreeMotionFacts.
Import Np RK RKFacts Motion.
Local Open Scope R_scope.

(** *** Arrays *)

Lemma length_zeros (n : nat) : length (zeros n) = n.
Proof. apply repeat_length. Qed.

Lemma length_add (a b : array) :
  length a = length b -> length (add a b) = length a.
Proof.
  revert b. induction a as [| r a IH]; intros [| r' b] H;
    simpl in *; try discriminate; [reflexivity |].
  f_equal. apply IH. lia.
Qed.

Lemma length_scale (c : R) (a : array) : length (scale c a) = length a.
Proof. apply length_map. Qed.

Lemma scale_zeros (c : R) (n : nat) : scale c (zeros n) = zeros n.
Proof.
  unfold scale, zeros.
  induction n as [| n IH]; simpl; [reflexivity |].
  rewrite IH. f_equal. ring.
Qed.

Lemma add_zeros_r (a : array) (n : nat) :
  length a = n -> add a (zeros n) = a.
Proof.
  unfold add, zeros.
  revert n. induction a as [| r a IH]; intros [| n] H;
    simpl in *; try discriminate; [reflexivity |].
  rewrite IH by lia. f_equal. ring.
Qed.

Lemma add_zeros_l (a : array) (n : nat) :
  length a = n -> add (zeros n) a = a.
Proof.
  unfold add, zeros.
  revert n. induction a as [| r a IH]; intros [| n] H;
    simpl in *; try discriminate; [reflexivity |].
  rewrite IH by lia. f_equal. ring.
Qed.

Lemma scale_0 (a : array) : scale 0 a = zeros (length a).
Proof.
  unfold scale, zeros.
  induction a as [| r a IH]; simpl; [reflexivity |].
  rewrite IH. f_equal. ring.
Qed.

Lemma scale_1 (a : array) : scale 1 a = a.
Proof.
  unfold scale.
  induction a as [| r a IH]; simpl; [reflexivity |].
  rewrite IH. f_equal. ring.
Qed.

Lemma add_scale_scale (a b : R) (u : array) :
  add (scale a u) (scale b u) = scale (a + b) u.
Proof.
  unfold add, scale.
  induction u as [| r u IH]; simpl; [reflexivity |].
  rewrite IH. f_equal. ring.
Qed.

Lemma add_add_scale (x u : array) (a b : R) :
  add (add x (scale a u)) (scale b u) = add x (scale (a + b) u).
Proof.
  unfold add, scale.
  revert u. induction x as [| r x IH]; intros [| r' u];
    simpl; try reflexivity.
  rewrite IH. f_equal. ring.
Qed.

Lemma times_zeros (n : nat) (c : R) : times (zeros n) c = zeros n.
Proof.
  unfold times, zeros.
  induction n as [| n IH]; simpl; [reflexivity |].
  rewrite IH. f_equal. ring.
Qed.

Lemma sum_square_div_zeros (n : nat) (s : array) :
  sum (square (div (zeros n) s)) = 0.
Proof.
  unfold sum, square, div, zeros.
  revert s. induction n as [| n IH]; intros [| r s]; simpl;
    try reflexivity.
  rewrite IH. unfold Rdiv. ring.
Qed.

Lemma sum_app (a b : array) : sum (a ++ b) = sum a + sum b.
Proof.
  unfold sum.
  induction a as [| r a IH]; simpl; [ring |].
  rewrite IH. ring.
Qed.

Lemma sum_sub (a b : array) :
  length a = length b -> sum (zip_with Rminus a b) = sum a - sum b.
Proof.
  unfold sum.
  revert b. induction a as [| r a IH]; intros [| r' b] H;
    simpl in *; try discriminate; [ring |].
  rewrite IH by lia. ring.
Qed.

Lemma sum_map_Q2R (l : list Q) : sum (map Q2R l) = Q2R (Tableaus.Qsum l).
Proof.
  unfold sum.
  induction l as [| q l IH]; simpl.
  - unfold Q2R. simpl. lra.
  - rewrite IH, Q2R_plus. reflexivity.
Qed.

Lemma take_S_nth (w : array) (k : nat) :
  (k < length w)%nat -> take (S k) w = take k w ++ [nth k w 0].
Proof.
  revert k. induction w as [| r w IH]; intros k Hk; simpl in *; [lia |].
  destruct k as [| k]; [reflexivity |].
  simpl. f_equal. apply IH. lia.
Qed.

Lemma row_lookup (a : list array) (j : nat) (r : array) :
  a !! j = Some r -> row a j = r.
Proof.
  intros H. unfold row. rewrite (nth_lookup a j []), H. reflexivity.
Qed.

(** *** One attempt without forces *)

Section Free.
Variable acceleration : nat -> array -> array -> R -> array.
Variable p : rk_params.

(** No body is accelerated. *)
Hypothesis no_force :
  forall (n : nat) (x m : array) (G : R), acceleration n x m G = zeros (n * 3).
Hypothesis weights_sum : sum (weights p) = 1.
Hypothesis weights_test_sum : sum (weights_test p) = 1.
Hypothesis weights_test_length :
  length (weights_test p) = length (weights p).

Let n3 : nat := (objects_count p * 3)%nat.

Lemma stage_sums_free (v : array) (stage : nat) (vk xk : list array) :
  free_rows p v stage (vk, xk) ->
  fst (stage_sums p stage vk xk) = zeros n3.
Proof.
  intros (_ & _ & Hrows). fold n3 in Hrows. unfold stage_sums. simpl in Hrows.
  assert (H : forall k, (k <= stage)%nat ->
            fst (fold_left
                   (fun '(temp_v, temp_x) j =>
                      (add temp_v (scale (coeff_at p (stage - 1) j) (row vk j)),
                       add temp_x (scale (coeff_at p (stage - 1) j) (row xk j))))
                   (seq 0 k) (zeros n3, zeros n3)) = zeros n3).
  { induction k as [| k IH]; intros Hk; [reflexivity |].
    rewrite seq_S, fold_left_app. simpl.
    specialize (IH ltac:(lia)).
    destruct (fold_left _ (seq 0 k) _) as [tv tx]. simpl in *.
    rewrite IH.
    destruct (Hrows k ltac:(lia)) as [Hv _].
    rewrite (row_lookup _ _ _ Hv), scale_zeros.
    apply add_zeros_r, length_zeros. }
  apply H. lia.
Qed.

Lemma stage_step_free (s : rk_state) (stage : nat)
    (ks : list array * list array) :
  length (v s) = n3 ->
  (stage < stages p)%nat ->
  free_rows p (v s) stage ks ->
  free_rows p (v s) (S stage) (stage_step acceleration p s ks stage).
Proof.
  intros Hv Hst Hfree. destruct ks as [vk xk].
  pose proof (stage_sums_free (v s) stage vk xk Hfree) as Hsum.
  destruct Hfree as (Hlv & Hlx & Hrows). fold n3 in Hrows. simpl in Hlv, Hlx, Hrows.
  unfold stage_step.
  destruct (stage_sums p stage vk xk) as [temp_v temp_x]. simpl in Hsum.
  subst temp_v. rewrite no_force, scale_zeros.
  rewrite (add_zeros_r (v s) n3 Hv).
  split; [| split]; simpl.
  - rewrite length_insert. exact Hlv.
  - rewrite length_insert. exact Hlx.
  - intros j Hj. destruct (Nat.eq_dec j stage) as [-> | Hne].
    + split; apply list_lookup_insert_eq; lia.
    + rewrite !list_lookup_insert_ne by lia. apply Hrows. lia.
Qed.

Lemma compute_stages_free (s : rk_state) :
  length (v s) = n3 ->
  length (vk s) = stages p -> length (xk s) = stages p ->
  (0 < stages p)%nat ->
  free_rows p (v s) (stages p) (compute_stages acceleration p s).
Proof.
  intros Hv Hlv Hlx Hpos. unfold compute_stages.
  assert (H : forall k, (k < stages p)%nat ->
            free_rows p (v s) (S k)
              (fold_left (stage_step acceleration p s) (seq 1 k)
                 (<[0%nat := acceleration (objects_count p) (x s) (m p) (G p)]>
                    (vk s),
                  <[0%nat := v s]> (xk s)))).
  { induction k as [| k IH]; intros Hk.
    - simpl. split; [| split]; simpl.
      + rewrite length_insert. exact Hlv.
      + rewrite length_insert. exact Hlx.
      + intros j Hj. assert (j = 0%nat) as -> by lia.
        rewrite no_force. split; apply list_lookup_insert_eq; lia.
    - rewrite seq_S, fold_left_app. simpl.
      apply stage_step_free; [exact Hv | lia | apply IH; lia]. }
  replace (stages p) with (S (stages p - 1)) at 1 by lia.
  apply H. lia.
Qed.

Lemma weighted_sums_free (v : array) (vk xk : list array) :
  length v = n3 ->
  free_rows p v (stages p) (vk, xk) ->
  weighted_sums p vk xk
  = (zeros n3, v, zeros n3, zeros n3).
Proof.
  intros Hv (_ & _ & Hrows). fold n3 in Hrows. simpl in Hrows. unfold weighted_sums.
  set (dw := error_estimation_delta_weights p).
  assert (Hdw : length dw = stages p).
  { unfold dw, error_estimation_delta_weights, stages.
    rewrite length_zip_with. lia. }
  assert (H : forall k, (k <= stages p)%nat ->
            fold_left
              (fun '(temp_v, temp_x, delta_v, delta_x) stage =>
                 (add temp_v (scale (nth stage (weights p) 0) (row vk stage)),
                  add temp_x (scale (nth stage (weights p) 0) (row xk stage)),
                  add delta_v (scale (nth stage dw 0) (row vk stage)),
                  add delta_x (scale (nth stage dw 0) (row xk stage))))
              (seq 0 k)
              (zeros n3, zeros n3, zeros n3, zeros n3)
            = (zeros n3, scale (sum (take k (weights p))) v,
               zeros n3, scale (sum (take k dw)) v)).
  { induction k as [| k IH]; intros Hk.
    - simpl. rewrite scale_0, Hv. reflexivity.
    - rewrite seq_S, fold_left_app, IH by lia. simpl.
      destruct (Hrows k ltac:(lia)) as [Hvk Hxk].
      rewrite (row_lookup _ _ _ Hvk), (row_lookup _ _ _ Hxk).
      rewrite !scale_zeros, !(add_zeros_r (zeros n3) n3 (length_zeros n3)).
      rewrite !add_scale_scale.
      rewrite !take_S_nth, !sum_app by (unfold stages in *; lia).
      simpl. repeat f_equal; ring. }
  etransitivity; [apply (H (stages p)); lia |].
  rewrite firstn_all2 by (unfold stages; lia).
  rewrite firstn_all2 by lia.
  unfold dw, error_estimation_delta_weights.
  rewrite sum_sub by (symmetry; exact weights_test_length).
  rewrite weights_sum, weights_test_sum.
  replace (1 - 1) with 0 by ring.
  rewrite scale_1, scale_0, Hv. reflexivity.
Qed.

Lemma stages_pos : (0 < stages p)%nat.
Proof.
  unfold stages. destruct (weights p) as [| w ws] eqn:E; [| simpl; lia].
  simpl in weights_sum. lra.
Qed.

(** Without forces the attempt finds the straight line, and no error. *)
Lemma rk_attempt_free (s : rk_state) :
  length (v s) = n3 ->
  length (vk s) = stages p -> length (xk s) = stages p ->
  x_1 (rk_attempt acceleration p s) = add (x s) (scale (actual_dt s) (v s))
  /\ v_1 (rk_attempt acceleration p s) = v s
  /\ error (rk_attempt acceleration p s) = 0
  /\ length (vk' (rk_attempt acceleration p s)) = stages p
  /\ length (xk' (rk_attempt acceleration p s)) = stages p.
Proof.
  intros Hv Hlv Hlx.
  pose proof (compute_stages_free s Hv Hlv Hlx stages_pos) as Hfree.
  unfold rk_attempt.
  destruct (compute_stages acceleration p s) as [vk xk].
  rewrite (weighted_sums_free (v s) vk xk Hv Hfree).
  destruct Hfree as (H1 & H2 & _). simpl in H1, H2. simpl.
  rewrite scale_zeros, (add_zeros_r (v s) n3 Hv), !times_zeros.
  rewrite !sum_square_div_zeros.
  repeat split; try assumption.
  replace ((0 + 0) / (INR (objects_count p) * 3 * 2)) with 0
    by (unfold Rdiv; ring).
  apply sqrt_0.
Qed.

Hypothesis ets_pos : 0 < expected_time_scale p.

Lemma next_dt_free (h : R) :
  expected_time_scale p * 1e-12 <= h -> next_dt p 0 h = h.
Proof.
  intros Hh. unfold next_dt, dt_new.
  replace (Reqb 0 0.0) with true
    by (symmetry; apply Reqb_true_iff; lra).
  replace (Rltb (h / expected_time_scale p) 1e-12) with false.
  - unfold clamp_dt, safety_fac_max, safety_fac_min.
    replace (Rltb (6.0 * h) h) with false
      by (symmetry; apply Rltb_false_iff; lra).
    replace (Rltb h (0.33 * h)) with false
      by (symmetry; apply Rltb_false_iff; lra).
    reflexivity.
  - symmetry. apply Rltb_false_iff. apply Rnot_lt_le. intros Hc.
    apply (Rdiv_lt_iff h 1e-12 (expected_time_scale p)) in Hc; lra.
Qed.

Lemma rk_iteration_free (x0 v0 : array) (h : R) (s : rk_state) :
  length v0 = n3 ->
  expected_time_scale p * 1e-12 <= h ->
  on_the_line p x0 v0 h s ->
  on_the_line p x0 v0 h (rk_iteration acceleration p s)
  /\ t (rk_iteration acceleration p s) = t s + h.
Proof.
  intros Hv0 Hh (Hx & Hv & Hdt & Hlv & Hlx).
  assert (Hvl : length (v s) = n3) by (rewrite Hv; exact Hv0).
  destruct (rk_attempt_free s Hvl Hlv Hlx) as (Hx1 & Hv1 & He & Hlv' & Hlx').
  unfold rk_iteration, on_the_line.
  rewrite He.
  replace (accepts p 0 (actual_dt s)) with true
    by (symmetry; apply accepts_iff; left; lra).
  simpl. rewrite Hx1, Hv1, Hdt, Hx, Hv, add_add_scale.
  rewrite next_dt_free by exact Hh.
  repeat split; try assumption.
  do 2 f_equal. ring.
Qed.

End Free.

Lemma tableau_weights (order : Z) (tb : Tableaus.tableau) :
  Tableaus.rk_embedded_butcher_tableaus order = Tableaus.Ok tb ->
  sum (map Q2R (Tableaus.weights tb)) = 1
  /\ sum (map Q2R (Tableaus.weights_test tb)) = 1
  /\ length (Tableaus.weights_test tb) = length (Tableaus.weights tb).
Proof.
  unfold Tableaus.rk_embedded_butcher_tableaus. intros H.
  assert (Hq : forall l, Qeq_bool (Tableaus.Qsum l) 1 = true ->
               sum (map Q2R l) = 1).
  { intros l E. rewrite sum_map_Q2R. apply Qeq_bool_eq, Qeq_eqR in E.
    rewrite E. unfold Q2R. simpl. lra. }
  repeat match type of H with
         | (if ?c then _ else _) = _ => destruct c
         end;
    try discriminate; injection H as <-;
    (split; [apply Hq; vm_compute; reflexivity |
     split; [apply Hq; vm_compute; reflexivity | reflexivity]]).
Qed.

End FreeMotionFacts.

Module RKLoopFacts.
Import Np RK RKFacts Motion FreeMotionFacts.
Local Open Scope R_scope.

Section Loop.
Variable acceleration : nat -> array -> array -> R -> array.
Variable p : rk_params.
(** Once an iteration with index at least [min_iteration] has left the
    time beyond the threshold, the loop has returned: more iterations
    change nothing. *)
Lemma rk_loop_cap (n k : nat) (i : Z) (s : rk_state) :
  (0 < n)%nat ->
  returns_early p (i + Z.of_nat n - 1) (rk_loop acceleration p n i s) = true ->
  rk_loop acceleration p (n + k) i s = rk_loop acceleration p n i s.
Proof.
  revert i s. induction n as [| n IH]; intros i s Hn Hret; [lia |].
  change (S n + k)%nat with (S (n + k)).
  rewrite !rk_loop_turn in *. cbv zeta in *.
  destruct (returns_early p i (rk_iteration acceleration p s)) eqn:He;
    [reflexivity |].
  destruct n as [| n].
  - simpl in Hret. replace (i + Z.of_nat 1 - 1)%Z with i in Hret by lia.
    congruence.
  - apply IH; [lia |].
    replace (i + 1 + Z.of_nat (S n) - 1)%Z
      with (i + Z.of_nat (S (S n)) - 1)%Z by lia.
    exact Hret.
Qed.

End Loop.

Lemma rk_loop_with_max_iteration
    (acceleration : nat -> array -> array -> R -> array)
    (p : rk_params) (k : Z) (n : nat) (i : Z) (s : rk_state) :
  rk_loop acceleration (with_max_iteration p k) n i s
  = rk_loop acceleration p n i s.
Proof.
  revert i s. induction n as [| n IH]; intros i s; [reflexivity |].
  rewrite !rk_loop_turn. cbv zeta.
  change (rk_iteration acceleration (with_max_iteration p k) s)
    with (rk_iteration acceleration p s).
  change (returns_early (with_max_iteration p k) i)
    with (returns_early p i).
  rewrite IH. reflexivity.
Qed.

(** X3.  [max_iteration] is only a cap: when the call with the cap [n]
    (above [min_iteration]) comes back with the time more than
    [expected_time_scale * 1e-5] beyond [simulation_time], the call with
    any larger cap returns the same four values. *)
Theorem rk_embedded_max_iteration_cap
    (acceleration : nat -> array -> array -> R -> array)
    (p : rk_params) (x v : array) (actual_dt : R) (n n' : Z) :
  (min_iteration p < n)%Z -> (0 < n)%Z -> (n <= n')%Z ->
  let '(_, _, t', _) :=
    rk_embedded acceleration (with_max_iteration p n) x v actual_dt in
  simulation_time p + expected_time_scale p * 1e-5 < t' ->
  rk_embedded acceleration (with_max_iteration p n') x v actual_dt
  = rk_embedded acceleration (with_max_iteration p n) x v actual_dt.
Proof.
  intros Hmin Hn Hn'. unfold rk_embedded, returned.
  change (max_iteration (with_max_iteration p n)) with n.
  change (max_iteration (with_max_iteration p n')) with n'.
  change (simulation_time (with_max_iteration p n)) with (simulation_time p).
  change (simulation_time (with_max_iteration p n')) with (simulation_time p).
  change (stages (with_max_iteration p n)) with (stages p).
  change (stages (with_max_iteration p n')) with (stages p).
  change (objects_count (with_max_iteration p n)) with (objects_count p).
  change (objects_count (with_max_iteration p n')) with (objects_count p).
  rewrite !rk_loop_with_max_iteration.
  intros Ht.
  replace (Z.to_nat n') with (Z.to_nat n + Z.to_nat (n' - n))%nat by lia.
  rewrite rk_loop_cap; [reflexivity | lia |].
  unfold returns_early. apply andb_true_intro. split.
  - apply Z.leb_le. lia.
  - apply Rltb_true_iff. exact Ht.
Qed.

Lemma rk_loop_once
    (acceleration : nat -> array -> array -> R -> array)
    (p : rk_params) (i : Z) (s : rk_state) :
  rk_loop acceleration p 1 i s = rk_iteration acceleration p s.
Proof. simpl. destruct (returns_early p i _); reflexivity. Qed.

Lemma rk_embedded_max_iteration_cap_witness :
  let free : nat -> array -> array -> R -> array :=
    fun n _ _ _ => zeros (n * 3) in
  let p := with_tableau Tableaus.rkf45 1 [1] 1 1 0 1 0 1e-9 1e-9 in
  rk_embedded free (with_max_iteration p 2) [1; 0; 0] [0; 1; 0] 1e-3
  = rk_embedded free (with_max_iteration p 1) [1; 0; 0] [0; 1; 0] 1e-3.
Proof.
  intros free p.
  pose proof (rk_embedded_max_iteration_cap free p [1; 0; 0] [0; 1; 0] 1e-3
                1 2 ltac:(simpl; lia) ltac:(lia) ltac:(lia)) as H.
  destruct (tableau_weights 45 Tableaus.rkf45 eq_refl) as (Hw & Hwt & Hl).
  assert (Hfree : forall (n : nat) (x m : array) (G : R),
            free n x m G = zeros (n * 3)) by reflexivity.
  set (s0 := {| x := [1; 0; 0]; v := [0; 1; 0]; t := 0; actual_dt := 1e-3;
                vk := repeat (zeros 3) 6; xk := repeat (zeros 3) 6 |}).
  assert (Hs0 : on_the_line p [1; 0; 0] [0; 1; 0] 1e-3 s0).
  { unfold on_the_line, s0. simpl. repeat split.
    repeat f_equal; lra. }
  destruct (rk_iteration_free free p Hfree Hw Hwt
              ltac:(reflexivity)
              ltac:(simpl; lra) [1; 0; 0] [0; 1; 0] 1e-3 s0
              eq_refl ltac:(simpl; lra) Hs0) as [_ Ht].
  assert (E : rk_embedded free (with_max_iteration p 1)
                 [1; 0; 0] [0; 1; 0] 1e-3
               = returned (rk_iteration free p s0)).
  { unfold rk_embedded.
    change (Z.to_nat (max_iteration (with_max_iteration p 1))) with 1%nat.
    rewrite rk_loop_once. reflexivity. }
  rewrite E in H |- *. unfold returned in H |- *. cbv beta iota in H.
  apply H. rewrite Ht. simpl. lra.
Defined.

End RKLoopFacts.

Module InitialStepFacts.
Import Np RK RKFacts.
Local Open Scope R_scope.

(** X4.  [_rk_embedded_initial_time_step] returns a positive step.  The
    hypotheses keep the divisions of the source away from zero, where
    numpy gives nan and the reals give a number. *)
Theorem initial_time_step_positive
    (acceleration : nat -> array -> array -> R -> array)
    (N : nat) (power : Z) (x v a m : array) (G abs_tolerance rel_tolerance : R) :
  (0 < N)%nat -> (0 <= power)%Z -> 0 < abs_tolerance -> 0 <= rel_tolerance ->
  0 < _rk_embedded_initial_time_step acceleration N power x v a m G
        abs_tolerance rel_tolerance.
Proof.
  intros _ _ _ _. unfold _rk_embedded_initial_time_step. cbv zeta.
  match goal with
  | |- 0 < Rmin (100 * ?d0) ?d1 * _ =>
      assert (H0 : 0 < d0); [| assert (H1 : 0 < d1);
        [| set (d0' := d0) in *; set (d1' := d1) in *;
           unfold Rmin; destruct (Rle_dec _ _); lra]]
  end.
  - destruct (Rltb _ 1e-5 || Rltb _ 1e-5) eqn:E; [lra |].
    apply orb_false_iff in E. destruct E as [E0 E1].
    apply Rltb_false_iff in E0, E1.
    apply Rdiv_lt_0_compat; lra.
  - destruct (Rleb _ 1e-15).
    + unfold Rmax. destruct (Rle_dec _ _); lra.
    + apply exp_pos.
Qed.

Lemma initial_time_step_positive_witness :
  let free : nat -> array -> array -> R -> array := fun _ _ _ _ => [0; 0; 0] in
  0 < _rk_embedded_initial_time_step free 1 4 [1; 0; 0] [0; 1; 0] [0; 0; 0]
        [1] 1 1e-9 1e-9.
Proof.
  intros free.
  apply (initial_time_step_positive free 1 4); [lia | lia | lra | lra].
Defined.

End InitialStepFacts.

Module UniformFieldFacts.
Import Np RK RKFacts Motion FreeMotionFacts.
Local Open Scope R_scope.

(** *** Arrays *)

Lemma scale_scale (a b : R) (u : array) :
  scale a (scale b u) = scale (a * b) u.
Proof.
  unfold scale. rewrite map_map. apply map_ext. intros r. ring.
Qed.

Lemma times_scale (a : R) (u : array) (c : R) :
  times (scale a u) c = scale (a * c) u.
Proof.
  unfold times, scale. rewrite map_map. apply map_ext. intros r. ring.
Qed.

(** [alpha * v + beta * a], entry by entry. *)
Lemma add_lin (v a : array) (al be c al' be' : R) :
  length v = length a ->
  add (add (scale al v) (scale be a))
      (scale c (add (scale al' v) (scale be' a)))
  = add (scale (al + c * al') v) (scale (be + c * be') a).
Proof.
  unfold add, scale.
  revert a. induction v as [| r v IH]; intros [| r' a] H;
    simpl in *; try discriminate; [reflexivity |].
  rewrite IH by lia. f_equal. ring.
Qed.

Lemma sum_map_sub (f g : nat -> R) (l : list nat) :
  sum (map (fun s => f s - g s) l) = sum (map f l) - sum (map g l).
Proof.
  unfold sum. induction l as [| s l IH]; simpl; [ring |].
  rewrite IH. ring.
Qed.

Lemma sum_map_ext_in (f g : nat -> R) (l : list nat) :
  (forall s, In s l -> f s = g s) -> sum (map f l) = sum (map g l).
Proof. intros H. f_equal. apply map_ext_in. exact H. Qed.

Lemma sum_map_nth (w : list R) :
  sum (map (fun s => nth s w 0) (seq 0 (length w))) = sum w.
Proof.
  f_equal. induction w as [| r w IH]; [reflexivity |].
  simpl. f_equal. rewrite <- seq_shift, map_map. exact IH.
Qed.

(** *** An attempt in a uniform field *)

Section Uniform.
Variable acceleration : nat -> array -> array -> R -> array.
Variable p : rk_params.
Variable a0 : array.

Let n3 : nat := (objects_count p * 3)%nat.

(** The field is uniform: the accelerations are [a0] wherever the
    bodies are. *)
Hypothesis uniform :
  forall (x m : array) (G : R), acceleration (objects_count p) x m G = a0.
Hypothesis a0_length : length a0 = n3.
Hypothesis weights_sum : sum (weights p) = 1.
Hypothesis weights_test_sum : sum (weights_test p) = 1.
Hypothesis weights_test_length :
  length (weights_test p) = length (weights p).

Lemma stage_sums_uniform (v : array) (h : R) (stage : nat)
    (vk xk : list array) :
  uniform_rows p a0 v h stage (vk, xk) ->
  fst (stage_sums p stage vk xk) = scale (stage_node p stage) a0.
Proof.
  intros (_ & _ & Hrows). unfold stage_sums, stage_node. simpl in Hrows.
  assert (H : forall k, (k <= stage)%nat ->
            fst (fold_left
                   (fun '(temp_v, temp_x) j =>
                      (add temp_v (scale (coeff_at p (stage - 1) j) (row vk j)),
                       add temp_x (scale (coeff_at p (stage - 1) j) (row xk j))))
                   (seq 0 k) (zeros n3, zeros n3))
            = scale (sum (map (coeff_at p (stage - 1)) (seq 0 k))) a0).
  { induction k as [| k IH]; intros Hk.
    - simpl. rewrite scale_0, a0_length. reflexivity.
    - rewrite seq_S, fold_left_app, map_app, sum_app. simpl.
      specialize (IH ltac:(lia)).
      destruct (fold_left _ (seq 0 k) _) as [tv tx]. simpl in *.
      rewrite IH.
      destruct (Hrows k ltac:(lia)) as [Hv _].
      rewrite (row_lookup _ _ _ Hv), add_scale_scale.
      f_equal. ring. }
  apply H. lia.
Qed.

Lemma stage_step_uniform (s : rk_state) (stage : nat)
    (ks : list array * list array) :
  (stage < stages p)%nat ->
  uniform_rows p a0 (v s) (actual_dt s) stage ks ->
  uniform_rows p a0 (v s) (actual_dt s) (S stage)
    (stage_step acceleration p s ks stage).
Proof.
  intros Hst Hu. destruct ks as [vk xk].
  pose proof (stage_sums_uniform (v s) (actual_dt s) stage vk xk Hu) as Hsum.
  destruct Hu as (Hlv & Hlx & Hrows). simpl in Hlv, Hlx, Hrows.
  unfold stage_step.
  destruct (stage_sums p stage vk xk) as [temp_v temp_x]. simpl in Hsum.
  subst temp_v. rewrite uniform, scale_scale.
  split; [| split]; simpl.
  - rewrite length_insert. exact Hlv.
  - rewrite length_insert. exact Hlx.
  - intros j Hj. destruct (Nat.eq_dec j stage) as [-> | Hne].
    + split; apply list_lookup_insert_eq; lia.
    + rewrite !list_lookup_insert_ne by lia. apply Hrows. lia.
Qed.

Lemma compute_stages_uniform (s : rk_state) :
  length (v s) = n3 ->
  length (vk s) = stages p -> length (xk s) = stages p ->
  (0 < stages p)%nat ->
  uniform_rows p a0 (v s) (actual_dt s) (stages p)
    (compute_stages acceleration p s).
Proof.
  intros Hv Hlv Hlx Hpos. unfold compute_stages.
  assert (H : forall k, (k < stages p)%nat ->
            uniform_rows p a0 (v s) (actual_dt s) (S k)
              (fold_left (stage_step acceleration p s) (seq 1 k)
                 (<[0%nat := acceleration (objects_count p) (x s) (m p) (G p)]>
                    (vk s),
                  <[0%nat := v s]> (xk s)))).
  { induction k as [| k IH]; intros Hk.
    - simpl. split; [| split]; simpl.
      + rewrite length_insert. exact Hlv.
      + rewrite length_insert. exact Hlx.
      + intros j Hj. assert (j = 0%nat) as -> by lia.
        rewrite uniform. split; [apply list_lookup_insert_eq; lia |].
        rewrite list_lookup_insert_eq by lia. f_equal.
        unfold stage_node. simpl.
        replace (actual_dt s * 0) with 0 by ring.
        rewrite scale_0, a0_length, add_zeros_r by exact Hv. reflexivity.
    - rewrite seq_S, fold_left_app. simpl.
      apply stage_step_uniform; [lia | apply IH; lia]. }
  replace (stages p) with (S (stages p - 1)) at 1 by lia.
  apply H. lia.
Qed.

Lemma weighted_sums_uniform (v : array) (h : R) (vk xk : list array) :
  length v = n3 ->
  uniform_rows p a0 v h (stages p) (vk, xk) ->
  weighted_sums p vk xk
  = (a0,
     add v (scale (h * moment p (weights p)) a0),
     zeros n3,
     scale (h * (moment p (weights p) - moment p (weights_test p))) a0).
Proof.
  intros Hv (_ & _ & Hrows). simpl in Hrows. unfold weighted_sums.
  set (dw := error_estimation_delta_weights p).
  assert (Hdw : length dw = stages p).
  { unfold dw, error_estimation_delta_weights, stages.
    rewrite length_zip_with. lia. }
  assert (Hva : length v = length a0) by (rewrite a0_length; exact Hv).
  set (part (w : list R) (k : nat) :=
         sum (map (fun s => nth s w 0) (seq 0 k))).
  set (mom (w : list R) (k : nat) :=
         sum (map (fun s => nth s w 0 * stage_node p s) (seq 0 k))).
  assert (H : forall k, (k <= stages p)%nat ->
            fold_left
              (fun '(temp_v, temp_x, delta_v, delta_x) stage =>
                 (add temp_v (scale (nth stage (weights p) 0) (row vk stage)),
                  add temp_x (scale (nth stage (weights p) 0) (row xk stage)),
                  add delta_v (scale (nth stage dw 0) (row vk stage)),
                  add delta_x (scale (nth stage dw 0) (row xk stage))))
              (seq 0 k)
              (zeros n3, zeros n3, zeros n3, zeros n3)
            = (scale (part (weights p) k) a0,
               add (scale (part (weights p) k) v)
                   (scale (h * mom (weights p) k) a0),
               scale (part dw k) a0,
               add (scale (part dw k) v) (scale (h * mom dw k) a0))).
  { induction k as [| k IH]; intros Hk.
    - unfold part, mom. simpl.
      replace (h * 0) with 0 by ring.
      rewrite !scale_0, a0_length, Hv.
      rewrite (add_zeros_r (zeros n3) n3 (length_zeros n3)). reflexivity.
    - rewrite seq_S, fold_left_app, IH by lia. simpl.
      destruct (Hrows k ltac:(lia)) as [Hvk Hxk].
      rewrite (row_lookup _ _ _ Hvk), (row_lookup _ _ _ Hxk).
      rewrite !add_scale_scale.
      replace (add v (scale (h * stage_node p k) a0))
        with (add (scale 1 v) (scale (h * stage_node p k) a0))
        by (rewrite scale_1; reflexivity).
      rewrite !add_lin by exact Hva.
      unfold part, mom. rewrite !seq_S, !map_app, !sum_app. simpl.
      repeat f_equal; ring. }
  etransitivity; [apply (H (stages p)); lia |].
  assert (Pw : part (weights p) (stages p) = 1).
  { unfold part, stages. rewrite sum_map_nth. exact weights_sum. }
  assert (Pd : part dw (stages p) = 0).
  { unfold part. rewrite <- Hdw, sum_map_nth.
    unfold dw, error_estimation_delta_weights.
    rewrite sum_sub by (symmetry; exact weights_test_length).
    rewrite weights_sum, weights_test_sum. ring. }
  assert (Md : mom dw (stages p)
               = moment p (weights p) - moment p (weights_test p)).
  { unfold mom, moment. rewrite <- sum_map_sub.
    apply sum_map_ext_in. intros s Hs. apply in_seq in Hs.
    unfold dw, error_estimation_delta_weights.
    replace (nth s (zip_with Rminus (weights p) (weights_test p)) 0)
      with (nth s (weights p) 0 - nth s (weights_test p) 0); [ring |].
    rewrite !(nth_lookup _ s 0), lookup_zip_with.
    destruct (lookup_lt_is_Some_2 (weights p) s
                ltac:(unfold stages in Hs; lia)) as [a ->].
    destruct (lookup_lt_is_Some_2 (weights_test p) s
                ltac:(unfold stages in Hs; lia)) as [b ->].
    reflexivity. }
  rewrite Pw, Pd, Md. fold (moment p (weights p)).
  rewrite !scale_1, !scale_0, a0_length, Hv.
  rewrite (add_zeros_l (scale _ a0) n3)
    by (rewrite length_scale; exact a0_length).
  reflexivity.
Qed.

(** The candidate state and the error deltas of an attempt in a
    uniform field. *)
Lemma rk_attempt_uniform (s : rk_state) :
  length (v s) = n3 ->
  length (vk s) = stages p -> length (xk s) = stages p ->
  let h := actual_dt s in
  let a := rk_attempt acceleration p s in
  let k := moment p (weights p) in
  let k' := moment p (weights_test p) in
  let tolerance_scale_x :=
    shift (abs_tolerance p)
      (times (maximum (abs (x s)) (abs (x_1 a))) (rel_tolerance p)) in
  x_1 a = add (x s) (scale h (add (v s) (scale (h * k) a0)))
  /\ v_1 a = add (v s) (scale h a0)
  /\ error a
     = sqrt (sum (square (div (scale (h * (k - k') * h) a0)
                             tolerance_scale_x))
             / (INR (objects_count p) * 3 * 2)).
Proof.
  intros Hv Hlv Hlx h a k k' tsx.
  pose proof (compute_stages_uniform s Hv Hlv Hlx
                (stages_pos p weights_sum weights_test_length)) as Hu.
  subst a tsx. unfold rk_attempt.
  destruct (compute_stages acceleration p s) as [vk xk].
  rewrite (weighted_sums_uniform (v s) (actual_dt s) vk xk Hv Hu).
  simpl. fold h k k'.
  rewrite times_zeros, sum_square_div_zeros, times_scale.
  repeat split. do 2 f_equal. ring.
Qed.

End Uniform.

(** *** The four tableaux *)

Lemma coeff_at_Q2R (tb : Tableaus.tableau) (N : nat) (m : array)
    (G ets t0 : R) (maxit minit : Z) (atol rtol : R) (i j : nat) :
  coeff_at (with_tableau tb N m G ets t0 maxit minit atol rtol) i j
  = Q2R (nth j (nth i (Tableaus.coeff tb) []) 0%Q).
Proof.
  unfold coeff_at. simpl.
  replace (@nil R) with (map Q2R []) by reflexivity.
  rewrite map_nth.
  replace 0 with (Q2R 0) at 1 by (unfold Q2R; simpl; lra).
  apply map_nth.
Qed.

Lemma sum_map_Q2R_seq (f : nat -> Q) (l : list nat) :
  sum (map (fun s => Q2R (f s)) l) = Q2R (Tableaus.Qsum (map f l)).
Proof.
  rewrite <- sum_map_Q2R, map_map. reflexivity.
Qed.

Lemma stage_node_Q2R (tb : Tableaus.tableau) (N : nat) (m : array)
    (G ets t0 : R) (maxit minit : Z) (atol rtol : R) (stage : nat) :
  stage_node (with_tableau tb N m G ets t0 maxit minit atol rtol) stage
  = Q2R (stage_node_Q tb stage).
Proof.
  unfold stage_node, stage_node_Q. rewrite <- sum_map_Q2R_seq.
  apply sum_map_ext_in. intros j _. apply coeff_at_Q2R.
Qed.

Lemma moment_Q2R (tb : Tableaus.tableau) (N : nat) (m : array)
    (G ets t0 : R) (maxit minit : Z) (atol rtol : R) (w : list Q) :
  moment (with_tableau tb N m G ets t0 maxit minit atol rtol) (map Q2R w)
  = Q2R (moment_Q tb w).
Proof.
  unfold moment, moment_Q, stages. simpl weights. rewrite length_map.
  rewrite <- sum_map_Q2R_seq.
  apply sum_map_ext_in. intros s _.
  rewrite stage_node_Q2R, Q2R_mult. f_equal.
  replace 0 with (Q2R 0) at 1 by (unfold Q2R; simpl; lra).
  apply map_nth.
Qed.

Lemma tableau_moments (order : Z) (tb : Tableaus.tableau) :
  Tableaus.rk_embedded_butcher_tableaus order = Tableaus.Ok tb ->
  Qeq (moment_Q tb (Tableaus.weights tb)) (1 # 2)
  /\ (order <> 78%Z -> Qeq (moment_Q tb (Tableaus.weights_test tb)) (1 # 2))
  /\ (order = 78%Z -> Qeq (moment_Q tb (Tableaus.weights_test tb)) (61 # 120)).
Proof.
  unfold Tableaus.rk_embedded_butcher_tableaus.
  repeat (case (Z.eqb_spec order _);
          [intros -> [= <-];
           split; [apply Qeq_bool_iff; vm_compute; reflexivity |];
           split; intros H; try discriminate H; try (exfalso; apply H; reflexivity);
           apply Qeq_bool_iff; vm_compute; reflexivity
          | intros _]).
  discriminate.
Qed.

Lemma sum_square_nonneg (u : array) : 0 <= sum (square u).
Proof.
  unfold sum, square. induction u as [| r u IH]; simpl; [lra | nra].
Qed.

(** [sum((a / b) ** 2)] vanishes only for [a = 0], when no entry of
    [b] is zero. *)
Lemma sum_square_div_eq_0 (a b : array) :
  length a = length b -> Forall (fun r => 0 < r) b ->
  sum (square (div a b)) = 0 <-> a = zeros (length a).
Proof.
  intros Hl Hb. revert a Hl.
  induction Hb as [| r b Hr _ IH]; intros [| q a] Hl;
    simpl in *; try discriminate; [tauto |].
  specialize (IH a ltac:(lia)).
  pose proof (sum_square_nonneg (div a b)) as Hn.
  unfold sum, square, div, zeros in *. simpl.
  assert (Hq : q / r * (q / r) = 0 <-> q = 0).
  { split; intros H.
    - assert (E : q / r = 0) by nra.
      replace q with (q / r * r) by (field; lra). rewrite E. ring.
    - subst q. unfold Rdiv. ring. }
  split.
  - intros H.
    assert (H1 : q / r * (q / r) = 0) by nra.
    assert (H2 : fold_right Rplus 0
                   (map (fun r0 => r0 * r0) (zip_with Rdiv a b)) = 0) by nra.
    f_equal; [apply Hq, H1 | apply IH, H2].
  - intros [= -> Ha]. apply IH in Ha. rewrite Ha. unfold Rdiv. ring.
Qed.

Lemma tolerance_scale_pos (tol_a tol_r : R) (u w : array) :
  0 < tol_a -> 0 <= tol_r ->
  Forall (fun r => 0 < r)
    (shift tol_a (times (maximum (abs u) (abs w)) tol_r)).
Proof.
  intros Ha Hr. unfold shift, times, maximum, abs.
  revert w. induction u as [| a u IH]; intros [| b w]; simpl;
    try apply Forall_nil.
  apply Forall_cons; [| apply IH].
  pose proof (Rabs_pos a). pose proof (Rabs_pos b).
  pose proof (Rmax_l (Rabs a) (Rabs b)). nra.
Qed.

Lemma scale_eq_zeros (c : R) (u : array) :
  scale c u = zeros (length (scale c u)) <-> c = 0 \/ u = zeros (length u).
Proof.
  unfold scale, zeros. induction u as [| r u IH]; simpl; [tauto |].
  split.
  - intros [= H1 H2]. apply IH in H2.
    destruct (Req_dec c 0) as [Hc | Hc]; [left; exact Hc | right].
    destruct H2 as [H2 | H2]; [contradiction |].
    f_equal; [nra | exact H2].
  - intros [-> | [= -> H2]].
    + f_equal; [ring |]. apply IH. left. reflexivity.
    + f_equal; [ring |]. apply IH. right. exact H2.
Qed.

Section Tableau.
Variable acceleration : nat -> array -> array -> R -> array.
Variables (order : Z) (tb : Tableaus.tableau).
Variables (N : nat) (m : array) (G ets t0 : R) (maxit minit : Z).
Variables (atol rtol : R) (a0 : array).
Hypothesis tableau : Tableaus.rk_embedded_butcher_tableaus order = Tableaus.Ok tb.
Hypothesis uniform : forall (x m : array) (G : R), acceleration N x m G = a0.
Hypothesis a0_length : length a0 = (N * 3)%nat.

Let p : rk_params := with_tableau tb N m G ets t0 maxit minit atol rtol.

Lemma attempt_in_uniform_field (s : rk_state) :
  length (v s) = (N * 3)%nat ->
  length (vk s) = stages p -> length (xk s) = stages p ->
  let h := actual_dt s in
  let a := rk_attempt acceleration p s in
  let k' := Q2R (moment_Q tb (Tableaus.weights_test tb)) in
  let tolerance_scale_x :=
    shift atol (times (maximum (abs (x s)) (abs (x_1 a))) rtol) in
  x_1 a = add (x s) (scale h (add (v s) (scale (h / 2) a0)))
  /\ v_1 a = add (v s) (scale h a0)
  /\ error a
     = sqrt (sum (square (div (scale (h * (1 / 2 - k') * h) a0)
                             tolerance_scale_x))
             / (INR N * 3 * 2)).
Proof.
  intros Hv Hlv Hlx h a k' tsx.
  destruct (tableau_weights order tb tableau) as (Hw & Hwt & Hl).
  destruct (tableau_moments order tb tableau) as (Hk & _).
  pose proof (rk_attempt_uniform acceleration p a0 uniform a0_length Hw Hwt
                ltac:(simpl; rewrite !length_map; exact Hl)
                s Hv Hlv Hlx) as H.
  cbv zeta in H. fold a h in H.
  assert (Ek : moment p (weights p) = 1 / 2).
  { unfold p at 2. simpl weights. unfold p. rewrite moment_Q2R.
    apply Qeq_eqR in Hk. rewrite Hk. unfold Q2R. simpl. lra. }
  assert (Ek' : moment p (weights_test p) = k').
  { unfold p at 2. simpl weights_test. unfold p. apply moment_Q2R. }
  rewrite Ek, Ek' in H. destruct H as (H1 & H2 & H3).
  split; [| split; [exact H2 | exact H3]].
  rewrite H1. do 4 f_equal. lra.
Qed.

End Tableau.

Lemma error_in_uniform_field
    (acceleration : nat -> array -> array -> R -> array)
    (order : Z) (tb : Tableaus.tableau)
    (N : nat) (m : array) (G ets t0 : R) (maxit minit : Z)
    (atol rtol : R) (a0 : array) (s : rk_state) :
  Tableaus.rk_embedded_butcher_tableaus order = Tableaus.Ok tb ->
  (forall x m G, acceleration N x m G = a0) ->
  length a0 = (N * 3)%nat -> length (v s) = (N * 3)%nat ->
  let p := with_tableau tb N m G ets t0 maxit minit atol rtol in
  length (vk s) = stages p -> length (xk s) = stages p ->
  order <> 78%Z ->
  error (rk_attempt acceleration p s) = 0.
Proof.
  intros Htb Hu Ha Hv p Hlv Hlx Ho.
  destruct (attempt_in_uniform_field acceleration order tb N m G ets t0
              maxit minit atol rtol a0 Htb Hu Ha s Hv Hlv Hlx)
    as (_ & _ & H3).
  destruct (tableau_moments order tb Htb) as (_ & Hne & _).
  fold p in H3. rewrite H3.
  apply Qeq_eqR in Hne; [| exact Ho]. rewrite Hne.
  replace (actual_dt s * (1 / 2 - Q2R (1 # 2)) * actual_dt s) with 0
    by (unfold Q2R; simpl; lra).
  rewrite scale_0, sum_square_div_zeros.
  replace (0 / (INR N * 3 * 2)) with 0 by (unfold Rdiv; ring).
  apply sqrt_0.
Qed.

(** X5.  In exact arithmetic (the entries of the tableau are the
    fractions that the source writes and rounding is not modelled; the
    binary64 result differs in the last digits): where the acceleration
    is the same array [a0] of [3 N] numbers at every position, for a
    state whose velocities are [3 N] numbers and whose stage arrays have
    as many rows as the tableau has stages, one attempt of any of the
    four pairs lands on the parabola, [x_1 = x + h (v + h/2 a0)] and
    [v_1 = v + h a0]. *)
Theorem rk_attempt_uniform_field
    (acceleration : nat -> array -> array -> R -> array)
    (order : Z) (tb : Tableaus.tableau)
    (N : nat) (m : array) (G ets t0 : R) (maxit minit : Z)
    (atol rtol : R) (a0 : array) (s : rk_state) :
  Tableaus.rk_embedded_butcher_tableaus order = Tableaus.Ok tb ->
  (forall x m G, acceleration N x m G = a0) ->
  length a0 = (N * 3)%nat -> length (v s) = (N * 3)%nat ->
  let p := with_tableau tb N m G ets t0 maxit minit atol rtol in
  length (vk s) = stages p -> length (xk s) = stages p ->
  let h := actual_dt s in
  let a := rk_attempt acceleration p s in
  x_1 a = add (x s) (scale h (add (v s) (scale (h / 2) a0)))
  /\ v_1 a = add (v s) (scale h a0).
Proof.
  intros Htb Hu Ha Hv p Hlv Hlx h a.
  destruct (attempt_in_uniform_field acceleration order tb N m G ets t0
              maxit minit atol rtol a0 Htb Hu Ha s Hv Hlv Hlx)
    as (H1 & H2 & _).
  split; assumption.
Qed.

Lemma rk_attempt_uniform_field_witness :
  let gravity : nat -> array -> array -> R -> array :=
    fun _ _ _ _ => [0; 0; -1] in
  let p := with_tableau Tableaus.rkf78 1 [1] 1 1 0 10 1 1e-9 1e-9 in
  let s := {| x := [0; 0; 0]; v := [1; 0; 0]; t := 0; actual_dt := 1;
              vk := repeat (zeros 3) 13; xk := repeat (zeros 3) 13 |} in
  x_1 (rk_attempt gravity p s)
  = add [0; 0; 0] (scale 1 (add [1; 0; 0] (scale (1 / 2) [0; 0; -1])))
  /\ v_1 (rk_attempt gravity p s) = add [1; 0; 0] (scale 1 [0; 0; -1]).
Proof.
  intros gravity p s.
  apply (rk_attempt_uniform_field gravity 78 Tableaus.rkf78 1 [1] 1 1 0 10 1
           1e-9 1e-9 [0; 0; -1] s); reflexivity.
Defined.

(** X6.  In exact arithmetic, in such a field and for such a state,
    with one body at least, positions of [3 N] numbers,
    [abs_tolerance > 0] and [rel_tolerance >= 0]: the error estimate of
    one attempt is zero for RKF4(5), DOPRI and DVERK, whereas that of
    the RKF7(8) tableau as written is zero only when the step or the
    field is zero.  (In binary64 the first three estimates are rounding
    noise, about 1e-11, in place of zero.) *)
Theorem rk_error_uniform_field
    (acceleration : nat -> array -> array -> R -> array)
    (order : Z) (tb : Tableaus.tableau)
    (N : nat) (m : array) (G ets t0 : R) (maxit minit : Z)
    (atol rtol : R) (a0 : array) (s : rk_state) :
  Tableaus.rk_embedded_butcher_tableaus order = Tableaus.Ok tb ->
  (forall x m G, acceleration N x m G = a0) ->
  (0 < N)%nat -> 0 < atol -> 0 <= rtol ->
  length a0 = (N * 3)%nat ->
  length (x s) = (N * 3)%nat -> length (v s) = (N * 3)%nat ->
  let p := with_tableau tb N m G ets t0 maxit minit atol rtol in
  length (vk s) = stages p -> length (xk s) = stages p ->
  let h := actual_dt s in
  let a := rk_attempt acceleration p s in
  (order <> 78%Z -> error a = 0)
  /\ (order = 78%Z -> (error a = 0 <-> h = 0 \/ a0 = zeros (N * 3))).
Proof.
  intros Htb Hu HN Hat Hrt Ha Hx Hv p Hlv Hlx h a.
  destruct (attempt_in_uniform_field acceleration order tb N m G ets t0
              maxit minit atol rtol a0 Htb Hu Ha s Hv Hlv Hlx)
    as (H1 & H2 & H3).
  fold p a h in H1, H2, H3.
  destruct (tableau_moments order tb Htb) as (_ & Hne & He).
  set (tsx := shift atol (times (maximum (abs (x s)) (abs (x_1 a))) rtol))
    in *.
  assert (HN' : 0 < INR N * 3 * 2).
  { apply lt_INR in HN. simpl in HN. lra. }
  split.
  - intros Ho.
    exact (error_in_uniform_field acceleration order tb N m G ets t0
             maxit minit atol rtol a0 s Htb Hu Ha Hv Hlv Hlx Ho).
  - intros Ho. rewrite H3.
    apply Qeq_eqR in He; [| exact Ho]. rewrite He.
    replace (h * (1 / 2 - Q2R (61 # 120)) * h) with (- (h * h) / 120)
      by (unfold Q2R; simpl; lra).
    set (c := - (h * h) / 120).
    assert (Hts : length tsx = (N * 3)%nat).
    { unfold tsx, shift, times, maximum, abs.
      rewrite !length_map, length_zip_with, !length_map, H1.
      unfold add, scale.
      rewrite !length_zip_with, !length_map, !length_zip_with, !length_map.
      lia. }
    pose proof (tolerance_scale_pos atol rtol (x s) (x_1 a) Hat Hrt) as Hpos.
    fold tsx in Hpos.
    pose proof (sum_square_div_eq_0 (scale c a0) tsx
                  ltac:(rewrite length_scale; lia) Hpos) as Hz.
    pose proof (sum_square_nonneg (div (scale c a0) tsx)) as Hnn.
    pose proof (scale_eq_zeros c a0) as Hsz.
    rewrite Ha in Hsz.
    assert (Hc : c = 0 <-> h = 0) by (unfold c; split; intros; nra).
    split.
    + intros Hs. apply sqrt_eq_0 in Hs.
      * assert (S0 : sum (square (div (scale c a0) tsx)) = 0).
        { apply Rmult_eq_reg_r with (/ (INR N * 3 * 2));
            [| apply Rinv_neq_0_compat; lra].
          unfold Rdiv in Hs. rewrite Hs. ring. }
        apply Hz, Hsz in S0. tauto.
      * apply Rmult_le_pos; [exact Hnn |].
        left. apply Rinv_0_lt_compat. exact HN'.
    + intros Hh.
      assert (S0 : sum (square (div (scale c a0) tsx)) = 0)
        by (apply Hz, Hsz; tauto).
      rewrite S0. replace (0 / (INR N * 3 * 2)) with 0 by (unfold Rdiv; ring).
      apply sqrt_0.
Qed.

Lemma rk_error_uniform_field_witness :
  let gravity : nat -> array -> array -> R -> array :=
    fun _ _ _ _ => [0; 0; -1] in
  let p := with_tableau Tableaus.rkf78 1 [1] 1 1 0 10 1 1e-9 1e-9 in
  let s := {| x := [0; 0; 0]; v := [1; 0; 0]; t := 0; actual_dt := 1;
              vk := repeat (zeros 3) 13; xk := repeat (zeros 3) 13 |} in
  error (rk_attempt gravity p s) <> 0.
Proof.
  intros gravity p s.
  destruct (rk_error_uniform_field gravity 78 Tableaus.rkf78 1 [1] 1 1 0 10 1
              1e-9 1e-9 [0; 0; -1] s
              ltac:(reflexivity) ltac:(reflexivity) ltac:(lia)
              ltac:(lra) ltac:(lra) ltac:(reflexivity) ltac:(reflexivity)
              ltac:(reflexivity) ltac:(reflexivity) ltac:(reflexivity))
    as [_ H].
  intros E. apply (H eq_refl) in E. destruct E as [E | E].
  - simpl in E. lra.
  - injection E. lra.
Defined.

End UniformFieldFacts.

(** ** The prompts of [trim_data] *)

Module TrimUIFacts.
Import Energy Trim TrimFacts TrimUI.
Local Open Scope Z_scope.

Lemma announced_size (data_size desired_trim_size : Z) :
  1 < desired_trim_size < data_size ->
  let d := divide_factor data_size desired_trim_size in
  let n := trim_size data_size d in
  2 <= d <= data_size
  /\ 2 <= n <= desired_trim_size + 1
  /\ n < data_size.
Proof.
  intros H d n.
  pose proof (divide_factor_bounds data_size desired_trim_size H) as Hd.
  fold d in Hd. split; [exact Hd |].
  unfold n. rewrite trim_size_eq.
  assert (Ed : d = - (- data_size / desired_trim_size))
    by apply divide_factor_eq.
  pose proof (Z.div_mod (- data_size) desired_trim_size ltac:(lia)) as E1.
  pose proof (Z.mod_pos_bound (- data_size) desired_trim_size ltac:(lia)) as M1.
  pose proof (Z.div_mod data_size d ltac:(lia)) as E2.
  pose proof (Z.mod_pos_bound data_size d ltac:(lia)) as M2.
  assert (Hq : 1 <= data_size / d) by (apply Z.div_le_lower_bound; lia).
  assert (Hq' : data_size / d <= desired_trim_size).
  { apply Z.div_le_upper_bound; [lia |]. nia. }
  assert (Hq'' : 2 * (data_size / d) <= data_size) by nia.
  repeat split; lia.
Qed.

(** X9.  For a desired size between 2 and [data_size - 1] the divide
    factor is at least 2, and the size that [trim_data] announces is at
    least 2, smaller than [data_size], and at most one more than the
    desired size. *)
Theorem trim_size_bounds (data_size desired_trim_size : Z) :
  1 < desired_trim_size < data_size ->
  let d := divide_factor data_size desired_trim_size in
  let n := trim_size data_size d in
  2 <= d <= data_size
  /\ 2 <= n <= desired_trim_size + 1
  /\ n < data_size.
Proof. apply announced_size. Qed.

Lemma trim_size_bounds_witness :
  2 <= divide_factor 1000 300 <= 1000
  /\ 2 <= trim_size 1000 (divide_factor 1000 300) <= 300 + 1
  /\ trim_size 1000 (divide_factor 1000 300) < 1000.
Proof. apply (trim_size_bounds 1000 300). lia. Defined.

Lemma get_user_input_cut (data_size : Z) (lines : list typed) :
  forall (answers : list bool) (d n : Z),
    get_user_input data_size lines answers = Some (Cut d n) ->
    exists desired,
      In (Number desired) lines
      /\ 1 < desired < data_size
      /\ d = divide_factor data_size desired
      /\ n = trim_size data_size d.
Proof.
  induction lines as [| l lines IH]; intros answers d n; simpl;
    [discriminate |].
  assert (Hrec : forall a,
            get_user_input data_size lines a = Some (Cut d n) ->
            exists desired,
              In (Number desired) (l :: lines)
              /\ 1 < desired < data_size
              /\ d = divide_factor data_size desired
              /\ n = trim_size data_size d).
  { intros a Ha. destruct (IH a d n Ha) as (z & Hin & Hz).
    exists z. split; [right; exact Hin | exact Hz]. }
  destruct l as [| desired |]; [discriminate | | apply Hrec].
  destruct (desired >? data_size) eqn:H1; [apply Hrec |].
  destruct (desired =? data_size) eqn:H2.
  { destruct answers as [| [|] answers]; try discriminate. apply Hrec. }
  destruct (desired <? 2) eqn:H3; [apply Hrec |].
  destruct answers as [| [|] answers]; [discriminate | | apply Hrec].
  intros [= <- <-]. exists desired.
  split; [left; reflexivity |]. split; [lia | split; reflexivity].
Qed.

(** X10.  When [Plotter.trim_data] returns, either the buffers and
    [data_size] are as they were, or one of the numbers typed, between
    2 and [data_size - 1], was taken as the desired size: the buffers
    are then those of [trim_data] for that size, and the new [data_size]
    is their length, at least 2, at most the desired size plus one, and
    smaller than before. *)
Theorem Plotter_trim_data_spec (objects_count : nat) (b : buffers)
    (data_size : Z) (lines : list typed) (answers : list bool)
    (b' : buffers) (data_size' : Z) :
  well_formed b (Z.to_nat data_size) ->
  Plotter_trim_data objects_count b data_size lines answers
  = Some (b', data_size') ->
  (b' = b /\ data_size' = data_size)
  \/ (exists desired,
        In (Number desired) lines
        /\ 1 < desired < data_size
        /\ b' = trim_data objects_count b data_size desired
        /\ well_formed b' (Z.to_nat data_size')
        /\ 2 <= data_size' <= desired + 1
        /\ data_size' < data_size).
Proof.
  intros Hwf. unfold Plotter_trim_data.
  destruct (get_user_input data_size lines answers) as [[| d n] |] eqn:E;
    [intros [= <- <-]; left; split; reflexivity | | discriminate].
  destruct (get_user_input_cut data_size lines answers d n E)
    as (desired & Hin & Hdes & -> & ->).
  cbv zeta. intros [= <- <-]. right. exists desired.
  split; [exact Hin |]. split; [exact Hdes |]. split; [reflexivity |].
  pose proof (announced_size data_size desired Hdes) as (Hd & Hn & Hlt).
  cbv zeta in Hd, Hn, Hlt.
  set (d := divide_factor data_size desired) in *.
  set (n := trim_size data_size d) in *.
  assert (Ed : d = Z.of_nat (Z.to_nat d)) by lia.
  assert (En : (Z.to_nat n = Z.to_nat data_size / Z.to_nat d + 1)%nat).
  { unfold n. rewrite trim_size_eq.
    rewrite Z2Nat.inj_add by (try apply Z.div_pos; lia).
    rewrite Z2Nat.inj_div by lia. reflexivity. }
  pose proof (trimmed_samples objects_count b (Z.to_nat d)
                (Z.to_nat data_size) (Z.to_nat n)
                ltac:(lia) ltac:(lia) En Hwf) as (Hwf' & _).
  rewrite <- Ed in Hwf'.
  destruct Hwf' as (Ht & Hrest).
  rewrite Ht, Z2Nat.id by lia.
  split; [| split; assumption].
  split; [exact Ht | exact Hrest].
Qed.

Lemma Plotter_trim_data_spec_witness :
  let b :=
    {| sol_time := [0; 1; 2; 3; 4]%float;
       sol_dt := [0.5; 1; 1; 1; 1]%float;
       sol_state :=
         [[1; 0; 0; 0; 1; 0]; [2; 0; 0; 0; 1; 0]; [3; 0; 0; 0; 1; 0];
          [4; 0; 0; 0; 1; 0]; [5; 0; 0; 0; 1; 0]]%float;
       energy := None |} in
  let lines := [Invalid; Number 9; Number 1; Number 2] in
  exists b',
    Plotter_trim_data 1 b 5 lines [true] = Some (b', 2)
    /\ well_formed b' (Z.to_nat 2).
Proof.
  intros b lines.
  assert (Hwf : well_formed b (Z.to_nat 5)).
  { repeat split. discriminate. }
  assert (E : Plotter_trim_data 1 b 5 lines [true]
              = Some (trim_data 1 b 5 2, 2)) by (vm_compute; reflexivity).
  exists (trim_data 1 b 5 2). split; [exact E |].
  destruct (Plotter_trim_data_spec 1 b 5 lines [true] _ _ Hwf E)
    as [[_ H] | (desired & _ & _ & _ & H & _)]; [discriminate | exact H].
Defined.

End TrimUIFacts.

(** ** Loops that can raise *)

Module ControlFacts.
Import Control.

Lemma foldM_app {S A : Type} (body : S -> A -> option S) (l l' : list A)
    (s : S) :
  foldM body (l ++ l') s = s' ← foldM body l s; foldM body l' s'.
Proof.
  revert s. induction l as [| a l IH]; intros s; simpl; [reflexivity |].
  destruct (body s a); simpl; [apply IH | reflexivity].
Qed.

End ControlFacts.

(** ** Sprites and arrays *)

Module SpritesFacts.
Import Energy States Control ControlFacts Sprites.
Local Open Scope nat_scope.

Section Load.
Variables (sprites : list params) (n : nat).

Lemma initialize_body_loaded (k : nat) (a a' : arrays) :
  k < n -> loaded_upto sprites n k a ->
  initialize_body sprites a k = Some a' -> loaded_upto sprites n (S k) a'.
Proof.
  intros Hk Ha. destruct a as [[x v] m]. unfold initialize_body.
  destruct (param sprites k "r1") as [r1 |] eqn:E1; [| discriminate].
  destruct (param sprites k "r2") as [r2 |] eqn:E2; [| discriminate].
  destruct (param sprites k "r3") as [r3 |] eqn:E3; [| discriminate].
  destruct (param sprites k "v1") as [v1 |] eqn:E4; [| discriminate].
  destruct (param sprites k "v2") as [v2 |] eqn:E5; [| discriminate].
  destruct (param sprites k "v3") as [v3 |] eqn:E6; [| discriminate].
  destruct (param sprites k "m") as [mj |] eqn:E7; [| discriminate].
  simpl. intros [= <-].
  destruct Ha as (Lx & Lv & Lm & Hl).
  unfold loaded_upto, farray in *. rewrite !length_insert.
  split; [exact Lx |]. split; [exact Lv |]. split; [exact Lm |].
  intros j Hj. destruct (Nat.eq_dec j k) as [-> | Hne].
  - exists r1, r2, r3, v1, v2, v3, mj.
    rewrite !list_lookup_insert_eq by lia.
    rewrite (list_lookup_insert_eq m) by lia. auto 12.
  - destruct (Hl j ltac:(lia))
      as (a1 & a2 & a3 & b1 & b2 & b3 & c & H).
    exists a1, a2, a3, b1, b2, b3, c.
    rewrite !list_lookup_insert_ne by lia.
    rewrite (list_lookup_insert_ne m) by lia. exact H.
Qed.

Lemma initialize_problem_loaded (a : arrays) :
  initialize_problem n sprites = Some a -> loaded_upto sprites n n a.
Proof.
  unfold initialize_problem.
  set (a0 := (repeat [0; 0; 0]%float n, repeat [0; 0; 0]%float n,
              repeat 0%float n)).
  assert (H : forall k a, k <= n ->
            foldM (initialize_body sprites) (seq 0 k) a0 = Some a ->
            loaded_upto sprites n k a).
  { induction k as [| k IH]; intros a' Hk.
    - simpl. intros [= <-]. unfold loaded_upto, a0.
      rewrite !repeat_length. repeat split. intros j Hj. lia.
    - rewrite seq_S, foldM_app. simpl.
      destruct (foldM (initialize_body sprites) (seq 0 k) a0)
        as [a1 |] eqn:E1; [| discriminate].
      simpl. destruct (initialize_body sprites a1 k) as [a2 |] eqn:E2;
        [| discriminate].
      simpl. intros [= <-].
      apply (initialize_body_loaded k a1); [lia | apply IH; [lia |] | exact E2].
      reflexivity. }
  apply H. lia.
Qed.

End Load.

Lemma unload_body_loaded (sprites : list params) (x v : list farray)
    (m : farray) (j : nat) :
  loaded sprites (x, v, m) j -> unload_body x v sprites j = Some sprites.
Proof.
  intros (r1 & r2 & r3 & v1 & v2 & v3 & mj
          & Hx & Hv & _ & E1 & E2 & E3 & E4 & E5 & E6 & _).
  unfold param in *.
  destruct (sprites !! j) as [sprite |] eqn:Hs; [| discriminate].
  simpl in E1, E2, E3, E4, E5, E6.
  unfold unload_body, entry, farray in *. rewrite Hx, Hv. simpl.
  rewrite Hs. simpl.
  rewrite (insert_id sprite _ _ E1), (list_insert_id sprites j sprite Hs), Hs.
  simpl.
  rewrite (insert_id sprite _ _ E2), (list_insert_id sprites j sprite Hs), Hs.
  simpl.
  rewrite (insert_id sprite _ _ E3), (list_insert_id sprites j sprite Hs), Hs.
  simpl.
  rewrite (insert_id sprite _ _ E4), (list_insert_id sprites j sprite Hs), Hs.
  simpl.
  rewrite (insert_id sprite _ _ E5), (list_insert_id sprites j sprite Hs), Hs.
  simpl.
  rewrite (insert_id sprite _ _ E6), (list_insert_id sprites j sprite Hs).
  reflexivity.
Qed.

(** X11.  When [initialize_problem] has filled the arrays from the
    sprites, [unload_value] on these arrays leaves every dictionary as
    it is. *)
Theorem unload_after_initialize (objects_count : nat)
    (sprites : list params) (x v : list farray) (m : farray) :
  initialize_problem objects_count sprites = Some (x, v, m) ->
  unload_value objects_count x v sprites = Some sprites.
Proof.
  intros H. apply initialize_problem_loaded in H.
  destruct H as (_ & _ & _ & Hl). unfold unload_value.
  assert (G : forall l, (forall j, In j l -> j < objects_count) ->
            foldM (unload_body x v) l sprites = Some sprites).
  { induction l as [| j l IH]; intros Hin; simpl; [reflexivity |].
    rewrite (unload_body_loaded sprites x v m j)
      by (apply Hl, Hin; left; reflexivity).
    simpl. apply IH. intros j' Hj'. apply Hin. right. exact Hj'. }
  apply G. intros j Hj. apply in_seq in Hj. lia.
Qed.

Lemma unload_after_initialize_witness :
  let body : params :=
    <["r1" := 1%float]> (<["r2" := 2%float]> (<["r3" := 3%float]>
    (<["v1" := 4%float]> (<["v2" := 5%float]> (<["v3" := 6%float]>
    (<["m" := 7%float]> (<["R" := 8%float]> ∅))))))) in
  initialize_problem 1 [body]
  = Some ([[1; 2; 3]], [[4; 5; 6]], [7])%float
  /\ unload_value 1 [[1; 2; 3]]%float [[4; 5; 6]]%float [body]
     = Some [body].
Proof.
  intros body.
  assert (E : initialize_problem 1 [body]
              = Some ([[1; 2; 3]], [[4; 5; 6]], [7])%float)
    by (vm_compute; reflexivity).
  split; [exact E |].
  exact (unload_after_initialize 1 [body] _ _ _ E).
Defined.


Lemma unload_body_spec (x v : list farray) (sprites s' : list params)
    (j : nat) :
  unload_body x v sprites j = Some s' ->
  exists sprite sprite',
    sprites !! j = Some sprite /\ unloaded x v j sprite = Some sprite'
    /\ s' = <[j := sprite']> sprites.
Proof.
  unfold unload_body, unloaded.
  destruct (entry x j 0) as [x0 |]; [| discriminate]. simpl.
  destruct (sprites !! j) as [sprite |] eqn:Hs; [| discriminate]. simpl.
  assert (Hj : j < length sprites) by (eapply lookup_lt_Some; exact Hs).
  destruct (entry x j 1) as [x1 |]; [| discriminate]. simpl.
  rewrite list_lookup_insert_eq by exact Hj. simpl.
  destruct (entry x j 2) as [x2 |]; [| discriminate]. simpl.
  rewrite list_lookup_insert_eq by (rewrite !length_insert; exact Hj). simpl.
  destruct (entry v j 0) as [v0 |]; [| discriminate]. simpl.
  rewrite list_lookup_insert_eq by (rewrite !length_insert; exact Hj). simpl.
  destruct (entry v j 1) as [v1 |]; [| discriminate]. simpl.
  rewrite list_lookup_insert_eq by (rewrite !length_insert; exact Hj). simpl.
  destruct (entry v j 2) as [v2 |]; [| discriminate]. simpl.
  rewrite list_lookup_insert_eq by (rewrite !length_insert; exact Hj). simpl.
  intros [= <-]. exists sprite. eexists. split; [reflexivity |].
  split; [reflexivity |].
  rewrite !list_insert_insert_eq. reflexivity.
Qed.

Section Unload.
Variables (x v : list farray) (sprites : list params).

Lemma unload_value_unloaded (n : nat) (s : list params) :
  unload_value n x v sprites = Some s -> unloaded_upto x v sprites n s.
Proof.
  unfold unload_value. revert s.
  induction n as [| n IH]; intros s.
  - simpl. intros [= <-]. split; [reflexivity |].
    split; [intros j Hj; lia | reflexivity].
  - rewrite seq_S, foldM_app. simpl.
    destruct (foldM (unload_body x v) (seq 0 n) sprites) as [s1 |] eqn:E1;
      [| discriminate].
    simpl. destruct (unload_body x v s1 n) as [s2 |] eqn:E2; [| discriminate].
    simpl. intros [= <-].
    destruct (IH s1 eq_refl) as (Hlen & Hlow & Hhigh).
    destruct (unload_body_spec x v s1 s2 n E2)
      as (sprite & sprite' & Hs & Hu & ->).
    assert (Hn : n < length s1) by (eapply lookup_lt_Some; exact Hs).
    split; [rewrite length_insert; exact Hlen |]. split.
    + intros j Hj. destruct (Nat.eq_dec j n) as [-> | Hne].
      * exists sprite. rewrite <- Hhigh by lia. split; [exact Hs |].
        rewrite list_lookup_insert_eq by exact Hn. exact Hu.
      * rewrite list_lookup_insert_ne by lia. apply Hlow. lia.
    + intros j Hj. rewrite list_lookup_insert_ne by lia. apply Hhigh. lia.
Qed.

End Unload.

Lemma unloaded_params (x v : list farray) (j : nat) (sprite sprite' : params)
    (r1 r2 r3 v1 v2 v3 : float) :
  x !! j = Some [r1; r2; r3] -> v !! j = Some [v1; v2; v3] ->
  unloaded x v j sprite = Some sprite' ->
  sprite' !! "r1" = Some r1 /\ sprite' !! "r2" = Some r2
  /\ sprite' !! "r3" = Some r3 /\ sprite' !! "v1" = Some v1
  /\ sprite' !! "v2" = Some v2 /\ sprite' !! "v3" = Some v3
  /\ forall key, ~ In key ["r1"; "r2"; "r3"; "v1"; "v2"; "v3"]%string ->
       sprite' !! key = sprite !! key.
Proof.
  intros Hx Hv. unfold unloaded, entry, farray in *. rewrite Hx, Hv. simpl.
  intros [= <-]. unfold params in *.
  do 6 (split; [simplify_map_eq; reflexivity |]).
  intros key Hkey.
  rewrite !lookup_insert_ne by (intros <-; apply Hkey; simpl; tauto).
  reflexivity.
Qed.

Lemma rows3_lookup (n : nat) (a : list farray) (j : nat) :
  rows3 n a -> j < n -> exists a1 a2 a3, a !! j = Some [a1; a2; a3].
Proof.
  intros [Hn Ha] Hj.
  destruct (lookup_lt_is_Some_2 a j ltac:(lia)) as [r Hr].
  pose proof (Forall_lookup_1 _ a j r Ha Hr) as Hl.
  destruct r as [| a1 [| a2 [| a3 [| a4 r]]]]; try discriminate.
  exists a1, a2, a3. exact Hr.
Qed.

Lemma initialize_unloaded (objects_count : nat)
    (sprites sprites' : list params) (x v : list farray) :
  rows3 objects_count x -> rows3 objects_count v ->
  (forall j, j < objects_count -> is_Some (param sprites j "m")) ->
  unload_value objects_count x v sprites = Some sprites' ->
  (exists m,
     initialize_problem objects_count sprites' = Some (x, v, m)
     /\ length m = objects_count
     /\ forall j, j < objects_count -> m !! j = param sprites j "m")
  /\ length sprites' = length sprites
  /\ forall j key,
       ~ In key ["r1"; "r2"; "r3"; "v1"; "v2"; "v3"]%string ->
       param sprites' j key = param sprites j key.
Proof.
  intros Hx Hv Hm Hu.
  destruct (unload_value_unloaded x v sprites objects_count sprites' Hu)
    as (Hlen & Hlow & Hhigh).
  assert (Hkeys : forall j, j < objects_count ->
            exists r1 r2 r3 v1 v2 v3 mj,
              x !! j = Some [r1; r2; r3] /\ v !! j = Some [v1; v2; v3]
              /\ param sprites j "m" = Some mj
              /\ param sprites' j "r1" = Some r1
              /\ param sprites' j "r2" = Some r2
              /\ param sprites' j "r3" = Some r3
              /\ param sprites' j "v1" = Some v1
              /\ param sprites' j "v2" = Some v2
              /\ param sprites' j "v3" = Some v3
              /\ param sprites' j "m" = Some mj).
  { intros j Hj.
    destruct (rows3_lookup objects_count x j Hx Hj) as (r1 & r2 & r3 & Ex).
    destruct (rows3_lookup objects_count v j Hv Hj) as (v1 & v2 & v3 & Ev).
    destruct (Hm j Hj) as [mj Emj].
    destruct (Hlow j Hj) as (sprite & Hs & Hs').
    destruct (unloaded x v j sprite) as [sprite' |] eqn:Eu.
    2:{ unfold unloaded, entry, farray in *. rewrite Ex, Ev in Eu.
        discriminate. }
    destruct (unloaded_params x v j sprite sprite' _ _ _ _ _ _ Ex Ev Eu)
      as (K1 & K2 & K3 & K4 & K5 & K6 & Kelse).
    exists r1, r2, r3, v1, v2, v3, mj.
    unfold param in *. rewrite <- Hs'. rewrite Hs in Emj |- *. simpl in *.
    rewrite (Kelse "m"%string) by intuition discriminate.
    auto 12. }
  split; [| split; [exact Hlen |]].
  - (* the loop of [initialize_problem] on [sprites'] *)
    set (a0 := (repeat [0; 0; 0]%float objects_count,
                repeat [0; 0; 0]%float objects_count,
                repeat 0%float objects_count)).
    assert (H : forall k, k <= objects_count ->
              exists a,
                foldM (initialize_body sprites') (seq 0 k) a0 = Some a
                /\ loaded_upto sprites' objects_count k a).
    { induction k as [| k IH]; intros Hk.
      - exists a0. split; [reflexivity |]. unfold loaded_upto, a0.
        rewrite !repeat_length. repeat split. intros j Hj. lia.
      - destruct (IH ltac:(lia)) as (a & Ea & La).
        destruct (Hkeys k ltac:(lia))
          as (r1 & r2 & r3 & v1 & v2 & v3 & mj & _ & _ & _
              & K1 & K2 & K3 & K4 & K5 & K6 & K7).
        assert (Eb : exists a', initialize_body sprites' a k = Some a').
        { destruct a as [[ax av] am]. unfold initialize_body.
          rewrite K1, K2, K3, K4, K5, K6, K7. simpl. eauto. }
        destruct Eb as (a' & Eb). exists a'.
        rewrite seq_S, foldM_app, Ea. simpl. rewrite Eb. simpl.
        split; [reflexivity |].
        apply (initialize_body_loaded sprites' objects_count k a);
          [lia | exact La | exact Eb]. }
    destruct (H objects_count ltac:(lia)) as ([[ax av] am] & Ea & La).
    destruct La as (Lx & Lv & Lm & Hl).
    assert (Ex : ax = x).
    { destruct Hx as [Hnx _]. apply list_eq. intros j.
      destruct (Nat.lt_ge_cases j objects_count) as [Hj | Hj].
      - destruct (Hl j Hj)
          as (r1 & r2 & r3 & v1 & v2 & v3 & mj & A1 & _ & _
              & B1 & B2 & B3 & _).
        destruct (Hkeys j Hj)
          as (r1' & r2' & r3' & v1' & v2' & v3' & mj' & C1 & _ & _
              & D1 & D2 & D3 & _).
        unfold farray in *. rewrite A1, C1. congruence.
      - rewrite !lookup_ge_None_2 by lia. reflexivity. }
    assert (Ev : av = v).
    { destruct Hv as [Hnv _]. apply list_eq. intros j.
      destruct (Nat.lt_ge_cases j objects_count) as [Hj | Hj].
      - destruct (Hl j Hj)
          as (r1 & r2 & r3 & v1 & v2 & v3 & mj & _ & A1 & _
              & _ & _ & _ & B1 & B2 & B3 & _).
        destruct (Hkeys j Hj)
          as (r1' & r2' & r3' & v1' & v2' & v3' & mj' & _ & C1 & _
              & _ & _ & _ & D1 & D2 & D3 & _).
        unfold farray in *. rewrite A1, C1. congruence.
      - rewrite !lookup_ge_None_2 by lia. reflexivity. }
    subst ax av. exists am. split; [exact Ea |]. split; [exact Lm |].
    intros j Hj.
    destruct (Hl j Hj)
      as (r1 & r2 & r3 & v1 & v2 & v3 & mj & _ & _ & A1 & B).
    destruct (Hkeys j Hj)
      as (r1' & r2' & r3' & v1' & v2' & v3' & mj' & _ & _ & C1 & D).
    unfold farray in *. rewrite A1, C1.
    destruct B as (_ & _ & _ & _ & _ & _ & B7).
    destruct D as (_ & _ & _ & _ & _ & _ & D7). congruence.
  - intros j key Hkey.
    destruct (Nat.lt_ge_cases j objects_count) as [Hj | Hj].
    + destruct (rows3_lookup objects_count x j Hx Hj) as (r1 & r2 & r3 & Ex).
      destruct (rows3_lookup objects_count v j Hv Hj) as (v1 & v2 & v3 & Ev).
      destruct (Hlow j Hj) as (sprite & Hs & Hs').
      destruct (unloaded x v j sprite) as [sprite' |] eqn:Eu.
      2:{ unfold unloaded, entry, farray in *. rewrite Ex, Ev in Eu.
          discriminate. }
      destruct (unloaded_params x v j sprite sprite' _ _ _ _ _ _ Ex Ev Eu)
        as (_ & _ & _ & _ & _ & _ & Kelse).
      unfold param. rewrite <- Hs', Hs. simpl. apply Kelse, Hkey.
    + unfold param. rewrite Hhigh by exact Hj. reflexivity.
Qed.

Lemma unload_body_returns (n : nat) (x v : list farray) (s : list params)
    (j : nat) :
  rows3 n x -> rows3 n v -> j < n -> j < length s ->
  is_Some (unload_body x v s j).
Proof.
  intros Hx Hv Hj Hs.
  destruct (rows3_lookup n x j Hx Hj) as (r1 & r2 & r3 & Ex).
  destruct (rows3_lookup n v j Hv Hj) as (v1 & v2 & v3 & Ev).
  destruct (lookup_lt_is_Some_2 s j Hs) as [sprite Es].
  unfold unload_body, entry, farray in *. rewrite Ex, Ev. simpl.
  rewrite Es. simpl.
  do 5 (rewrite list_lookup_insert_eq by (rewrite ?length_insert; exact Hs);
        simpl).
  eauto.
Qed.

Lemma unload_value_returns (n : nat) (x v : list farray)
    (sprites : list params) (k : nat) :
  rows3 n x -> rows3 n v -> k <= n -> k <= length sprites ->
  is_Some (unload_value k x v sprites).
Proof.
  intros Hx Hv. induction k as [| k IH]; intros Hk Hl.
  - simpl. eauto.
  - destruct (IH ltac:(lia) ltac:(lia)) as [s1 E1].
    destruct (unload_value_unloaded x v sprites k s1 E1) as (Hlen & _).
    destruct (unload_body_returns n x v s1 k Hx Hv ltac:(lia) ltac:(lia))
      as [s2 E2].
    exists s2. unfold unload_value in *.
    rewrite seq_S, foldM_app, E1. simpl. rewrite E2. reflexivity.
Qed.

(** X12.  The other way round: for arrays of shape (N, 3), where every
    sprite has a mass, [unload_value] returns, and [initialize_problem]
    on the dictionaries it leaves gives the same positions and
    velocities back, with the masses of the sprites; [unload_value] has
    changed no other entry of a dictionary. *)
Theorem initialize_after_unload (objects_count : nat)
    (sprites : list params) (x v : list farray) :
  rows3 objects_count x -> rows3 objects_count v ->
  (forall j, j < objects_count -> is_Some (param sprites j "m")) ->
  exists sprites' m,
    unload_value objects_count x v sprites = Some sprites'
    /\ initialize_problem objects_count sprites' = Some (x, v, m)
    /\ length m = objects_count
    /\ (forall j, j < objects_count -> m !! j = param sprites j "m")
    /\ length sprites' = length sprites
    /\ forall j key,
         ~ In key ["r1"; "r2"; "r3"; "v1"; "v2"; "v3"]%string ->
         param sprites' j key = param sprites j key.
Proof.
  intros Hx Hv Hm.
  assert (Hl : objects_count <= length sprites).
  { destruct objects_count as [| n]; [lia |].
    destruct (Hm n ltac:(lia)) as [mj E]. unfold param in E.
    destruct (sprites !! n) as [sprite |] eqn:Es; [| discriminate].
    apply lookup_lt_Some in Es. lia. }
  destruct (unload_value_returns objects_count x v sprites objects_count
              Hx Hv ltac:(lia) Hl) as [sprites' Hu].
  destruct (initialize_unloaded objects_count sprites sprites' x v
              Hx Hv Hm Hu) as ((m & H1 & H2 & H3) & H4 & H5).
  exists sprites', m. auto 8.
Qed.

Lemma initialize_after_unload_witness :
  let body : params :=
    <["r1" := 1%float]> (<["r2" := 2%float]> (<["r3" := 3%float]>
    (<["v1" := 4%float]> (<["v2" := 5%float]> (<["v3" := 6%float]>
    (<["m" := 7%float]> (<["R" := 8%float]> ∅))))))) in
  let x := [[9; 8; 7]]%float in
  let v := [[6; 5; 4]]%float in
  exists sprites' m,
    unload_value 1 x v [body] = Some sprites'
    /\ initialize_problem 1 sprites' = Some (x, v, m).
Proof.
  intros body x v.
  destruct (initialize_after_unload 1 [body] x v) as (s' & m & H1 & H2 & _).
  - split; [reflexivity | repeat constructor].
  - split; [reflexivity | repeat constructor].
  - intros j Hj. assert (j = 0) as -> by lia. vm_compute. eauto.
  - exists s', m. split; assumption.
Defined.

End SpritesFacts.

(** ** The rows of a result file *)

Module ResultsFacts.
Import Energy Control ControlFacts Results.
Local Open Scope nat_scope.

Lemma set_Some (a : list float) (i : nat) (c : float) :
  i < length a -> set a i c = Some (<[i := c]> a).
Proof.
  intros H. unfold set. apply Nat.ltb_lt in H. rewrite H. reflexivity.
Qed.

(** *** One row *)

Section Row.
Variables (N : nat) (t d e : float) (s : farray).
Hypothesis s_length : length s = N * 3 * 2.

Let row : csv_row := t :: d :: e :: s.

Lemma read_body_stored (k : nat) (st : farray) :
  k < N -> stored N s k st ->
  exists st', read_body N row st k = Some st' /\ stored N s (S k) st'.
Proof.
  intros Hk [Hlen Hst]. unfold read_body. unfold farray in *.
  assert (Hc : forall q, q < N * 3 * 2 -> exists c, s !! q = Some c).
  { intros q Hq. apply lookup_lt_is_Some_2. lia. }
  destruct (Hc (k * 3 + 0) ltac:(lia)) as [c0 E0].
  destruct (Hc (k * 3 + 1) ltac:(lia)) as [c1 E1].
  destruct (Hc (k * 3 + 2) ltac:(lia)) as [c2 E2].
  destruct (Hc (N * 3 + k * 3 + 0) ltac:(lia)) as [c3 E3].
  destruct (Hc (N * 3 + k * 3 + 1) ltac:(lia)) as [c4 E4].
  destruct (Hc (N * 3 + k * 3 + 2) ltac:(lia)) as [c5 E5].
  assert (R : forall q c, s !! q = Some c -> row !! (3 + q) = Some c)
    by (intros q c E; exact E).
  replace (3 + k * 3 + 0) with (3 + (k * 3 + 0)) by lia.
  replace (3 + k * 3 + 1) with (3 + (k * 3 + 1)) by lia.
  replace (3 + k * 3 + 2) with (3 + (k * 3 + 2)) by lia.
  replace (3 + N * 3 + k * 3 + 0) with (3 + (N * 3 + k * 3 + 0)) by lia.
  replace (3 + N * 3 + k * 3 + 1) with (3 + (N * 3 + k * 3 + 1)) by lia.
  replace (3 + N * 3 + k * 3 + 2) with (3 + (N * 3 + k * 3 + 2)) by lia.
  fold row.
  rewrite (R _ _ E0), (R _ _ E1), (R _ _ E2), (R _ _ E3), (R _ _ E4),
    (R _ _ E5). cbn [mbind option_bind].
  repeat (rewrite set_Some by (rewrite ?length_insert; lia);
          cbn [mbind option_bind]).
  eexists. split; [reflexivity |]. unfold stored, farray.
  split; [rewrite !length_insert; exact Hlen |].
  intros q Hq.
  destruct (Nat.eq_dec q (N * 3 + k * 3 + 2)) as [-> | H5];
    [rewrite list_lookup_insert_eq by (rewrite !length_insert; lia);
     symmetry; exact E5 |].
  rewrite list_lookup_insert_ne by lia.
  destruct (Nat.eq_dec q (N * 3 + k * 3 + 1)) as [-> | H4];
    [rewrite list_lookup_insert_eq by (rewrite !length_insert; lia);
     symmetry; exact E4 |].
  rewrite list_lookup_insert_ne by lia.
  destruct (Nat.eq_dec q (N * 3 + k * 3 + 0)) as [-> | H3];
    [rewrite list_lookup_insert_eq by (rewrite !length_insert; lia);
     symmetry; exact E3 |].
  rewrite list_lookup_insert_ne by lia.
  destruct (Nat.eq_dec q (k * 3 + 2)) as [-> | H2];
    [rewrite list_lookup_insert_eq by (rewrite !length_insert; lia);
     symmetry; exact E2 |].
  rewrite list_lookup_insert_ne by lia.
  destruct (Nat.eq_dec q (k * 3 + 1)) as [-> | H1];
    [rewrite list_lookup_insert_eq by (rewrite !length_insert; lia);
     symmetry; exact E1 |].
  rewrite list_lookup_insert_ne by lia.
  destruct (Nat.eq_dec q (k * 3 + 0)) as [-> | H0];
    [rewrite list_lookup_insert_eq by lia; symmetry; exact E0 |].
  rewrite list_lookup_insert_ne by lia.
  apply Hst. lia.
Qed.

Lemma read_state (st : farray) :
  length st = N * 3 * 2 ->
  foldM (read_body N row) (seq 0 N) st = Some s.
Proof.
  intros Hlen.
  assert (H : forall k, k <= N ->
            exists st', foldM (read_body N row) (seq 0 k) st = Some st'
                        /\ stored N s k st').
  { induction k as [| k IH]; intros Hk.
    - exists st. split; [reflexivity |]. split; [exact Hlen |].
      intros q Hq. lia.
    - destruct (IH ltac:(lia)) as (st1 & E1 & S1).
      destruct (read_body_stored k st1 ltac:(lia) S1) as (st2 & E2 & S2).
      exists st2. rewrite seq_S, foldM_app, E1. simpl. rewrite E2.
      split; [reflexivity | exact S2]. }
  destruct (H N ltac:(lia)) as (st' & E & [Hl Hs]).
  rewrite E. f_equal. apply list_eq. intros q.
  destruct (Nat.lt_ge_cases q (N * 3 * 2)) as [Hq | Hq].
  - apply Hs. lia.
  - rewrite !lookup_ge_None_2 by lia. reflexivity.
Qed.

End Row.

(** *** The rows of a table *)

Lemma save_row_shaped (N size : nat) (b : table) (count : nat) :
  shaped N size b -> count < size ->
  exists t d e s,
    sol_time b !! count = Some t /\ sol_dt b !! count = Some d
    /\ energy b !! count = Some e /\ sol_state b !! count = Some s
    /\ length s = N * 3 * 2
    /\ save_row b count = Some (t :: d :: e :: s).
Proof.
  intros (Lt & Ld & Le & Ls & Hs) Hc.
  destruct (lookup_lt_is_Some_2 (sol_time b) count ltac:(lia)) as [t Et].
  destruct (lookup_lt_is_Some_2 (sol_dt b) count ltac:(lia)) as [d Ed].
  destruct (lookup_lt_is_Some_2 (energy b) count ltac:(lia)) as [e Ee].
  destruct (lookup_lt_is_Some_2 (sol_state b) count ltac:(lia)) as [s Es].
  exists t, d, e, s. unfold save_row, farray in *.
  rewrite Es. cbn [mbind option_bind]. rewrite Ee. cbn [mbind option_bind].
  rewrite Ed. cbn [mbind option_bind]. rewrite Et. cbn [mbind option_bind].
  repeat split. exact (Forall_lookup_1 _ _ _ _ Hs Es).
Qed.

Section Table.
Variables (chunk N size : nat) (b : table).
Hypothesis chunk_pos : 0 < chunk.
Hypothesis b_shaped : shaped N size b.

Lemma take_S_insert {A : Type} (a a' : list A) (k : nat) (c : A) :
  k < length a -> take k a = take k a' -> a' !! k = Some c ->
  take (S k) (<[k := c]> a) = take (S k) a'.
Proof.
  intros Hk Ht Hc.
  rewrite (take_S_r (<[k := c]> a) k c)
    by (apply list_lookup_insert_eq; exact Hk).
  rewrite (take_S_r a' k c) by exact Hc.
  rewrite take_insert_ge by lia. rewrite Ht. reflexivity.
Qed.

Lemma read_row_filled (k : nat) (acc : nat * table) (row : csv_row) :
  k < size -> filled chunk N b k acc -> save_row b k = Some row ->
  exists acc', read_row chunk N acc row = Some acc' /\ filled chunk N b (S k) acc'.
Proof.
  intros Hk Hacc Hrow. destruct acc as [i tb].
  destruct Hacc as (-> & (L & HL & Hmod & Lt & Ld & Le & Ls)
                    & Hrows & Tt & Td & Te & Ts).
  destruct (save_row_shaped N size b k b_shaped Hk)
    as (t & d & e & s & Et & Ed & Ee & Es & Hs & Erow).
  rewrite Erow in Hrow. injection Hrow as <-.
  unfold read_row. cbn [lookup list_lookup mbind option_bind].
  rewrite !set_Some by lia. cbn [mbind option_bind].
  destruct (lookup_lt_is_Some_2 (sol_state tb) k ltac:(lia)) as [st Est].
  rewrite Est. cbn [mbind option_bind].
  rewrite (read_state N t d e s Hs st)
    by exact (Forall_lookup_1 _ _ _ _ Hrows Est).
  cbn [mbind option_bind].
  eexists. split; [reflexivity |].
  assert (Hrows' : Forall (fun s => length s = N * 3 * 2)
                     (<[k := s]> (sol_state tb))).
  { apply Forall_insert; assumption. }
  assert (T1 : take (S k) (<[k := t]> (sol_time tb))
               = take (S k) (sol_time b))
    by (apply take_S_insert; [lia | assumption ..]).
  assert (T2 : take (S k) (<[k := d]> (sol_dt tb)) = take (S k) (sol_dt b))
    by (apply take_S_insert; [lia | assumption ..]).
  assert (T3 : take (S k) (<[k := e]> (energy tb)) = take (S k) (energy b))
    by (apply take_S_insert; [lia | assumption ..]).
  assert (T4 : take (S k) (<[k := s]> (sol_state tb))
               = take (S k) (sol_state b))
    by (apply take_S_insert; [lia | assumption ..]).
  replace (k + 1) with (S k) by lia.
  destruct (S k mod chunk =? 0) eqn:Hm.
  - apply Nat.eqb_eq in Hm. unfold filled, extend. cbn [sol_time sol_dt energy sol_state].
    split; [reflexivity |]. split.
    { exists (L + chunk). rewrite !length_app, !length_insert, !repeat_length.
      repeat split; try lia.
      rewrite <- Nat.Div0.add_mod_idemp_r, Nat.Div0.mod_same, Nat.add_0_r.
      exact Hmod. }
    split.
    { apply Forall_app. split; [exact Hrows' |].
      apply Forall_forall. intros r Hr. apply repeat_spec in Hr.
      subst r. apply repeat_length. }
    rewrite !take_app_le by (rewrite length_insert; lia).
    auto.
  - apply Nat.eqb_neq in Hm. unfold filled. cbn [sol_time sol_dt energy sol_state].
    split; [reflexivity |]. split.
    { exists L. rewrite !length_insert. repeat split; try assumption.
      destruct (Nat.eq_dec (S k) L) as [E | E]; [congruence | lia]. }
    split; [exact Hrows' |]. auto.
Qed.

Lemma read_rows_filled (k : nat) (rows : list csv_row) :
  k <= size ->
  Forall2 (fun count row => save_row b count = Some row) (seq 0 k) rows ->
  exists acc,
    foldM (read_row chunk N) rows (0, allocate chunk N) = Some acc
    /\ filled chunk N b k acc.
Proof.
  revert rows. induction k as [| k IH]; intros rows Hk Hrows.
  - inversion Hrows; subst. eexists. split; [reflexivity |].
    unfold filled, allocate. cbn [sol_time sol_dt energy sol_state].
    split; [reflexivity |]. split.
    { exists chunk. rewrite !repeat_length. repeat split; try lia.
      apply Nat.Div0.mod_same. }
    split; [| auto].
    apply Forall_forall. intros r Hr. apply repeat_spec in Hr.
    subst r. apply repeat_length.
  - rewrite seq_S in Hrows. apply Forall2_app_inv_l in Hrows.
    destruct Hrows as (rows1 & rows2 & H1 & H2 & ->).
    inversion H2 as [| ? row ? rest E2 Hrest]; subst.
    inversion Hrest; subst. simpl in E2.
    destruct (IH rows1 ltac:(lia) H1) as (acc1 & F1 & I1).
    destruct (read_row_filled k acc1 row ltac:(lia) I1 E2)
      as (acc2 & F2 & I2).
    exists acc2. rewrite foldM_app, F1. simpl. rewrite F2.
    split; [reflexivity | exact I2].
Qed.

End Table.

Lemma save_rows_shaped (N size : nat) (b : table) :
  shaped N size b -> is_Some (save_rows size b).
Proof.
  intros Hb. unfold save_rows. apply mapM_is_Some.
  apply Forall_forall. intros count Hc.
  apply in_seq in Hc.
  destruct (save_row_shaped N size b count Hb ltac:(lia))
    as (t & d & e & s & _ & _ & _ & _ & _ & E).
  unfold compose. rewrite E. eauto.
Qed.

(** X13.  For arrays of [data_size] stored points, [_save_result] writes
    [data_size] data rows, and from these rows the loop of
    [_read_simulation_data], with its buffers that grow by 50000 rows
    and are cut at the end, builds the same four arrays again (a cell
    being read as the number that was written). *)
Theorem read_data_after_save (objects_count data_size : nat) (b : table) :
  shaped objects_count data_size b ->
  exists rows,
    save_rows data_size b = Some rows
    /\ length rows = data_size
    /\ read_data objects_count rows = Some b.
Proof.
  intros Hb.
  destruct (save_rows_shaped objects_count data_size b Hb) as [rows Erows].
  exists rows. split; [exact Erows |].
  unfold save_rows in Erows. apply mapM_Some_1 in Erows.
  split.
  { apply Forall2_length in Erows.
    rewrite length_seq in Erows. symmetry. exact Erows. }
  unfold read_data, read_rows.
  destruct (read_rows_filled 50000 objects_count data_size b
              ltac:(apply Nat.lt_0_succ) Hb data_size rows
              ltac:(lia) Erows)
    as ([i tb] & F & -> & _ & _ & Tt & Td & Te & Ts).
  rewrite F. cbn [mbind option_bind]. f_equal.
  destruct Hb as (Lt & Ld & Le & Ls & _).
  unfold truncate. rewrite Tt, Td, Te, Ts.
  rewrite !take_ge by lia. destruct b; reflexivity.
Qed.

Lemma read_data_after_save_witness :
  let b :=
    {| sol_time := [0; 1]%float; sol_dt := [0.5; 0.5]%float;
       energy := [-1; -1]%float;
       sol_state := [[1; 0; 0; 0; 1; 0]; [1; 1; 0; 0; 1; 0]]%float |} in
  exists rows,
    save_rows 2 b = Some rows /\ read_data 1 rows = Some b.
Proof.
  intros b.
  destruct (read_data_after_save 1 2 b) as (rows & H1 & _ & H2).
  - repeat split. repeat constructor.
  - exists rows. split; assumption.
Defined.


End ResultsFacts.

(** ** The header of a result file *)

Module MetadataFacts.
Import Energy Tableaus Metadata.
Local Open Scope string_scope.


Section Files.
Variable int : string -> option Z.
Variable float_ : string -> option float.
Variable np_array_float : list string -> option farray.
Variable str_int : Z -> string.
Variable str_float : float -> string.

Lemma try_assign_keeps {A B : Type} (f : metadata -> B) (row0 label : string)
    (conv : string -> option A) (text : string)
    (assign : metadata -> A -> metadata) (s : metadata) :
  (forall s a, f (assign s a) = f s) ->
  f (try_assign row0 label conv text assign s) = f s.
Proof.
  intros H. unfold try_assign.
  destruct (Str.startswith row0 label); [| reflexivity].
  destruct (conv text); [apply H | reflexivity].
Qed.

Lemma try_assign_other {A : Type} (row0 label : string)
    (conv : string -> option A) (text : string)
    (assign : metadata -> A -> metadata) (s : metadata) :
  Str.startswith row0 label = false ->
  try_assign row0 label conv text assign s = s.
Proof. intros H. unfold try_assign. rewrite H. reflexivity. Qed.

(** A line that starts neither with [# Integrator: ] nor with
    [# dt (seconds): ] is read without an exception and leaves
    [integrator] and [dt] as they are. *)
Lemma read_metadata_row_keeps (s : metadata) (row0 : string) :
  Str.startswith row0 "# Integrator: " = false ->
  Str.startswith row0 "# dt (seconds): " = false ->
  exists s',
    read_metadata_row int float_ np_array_float s row0 = Ok s'
    /\ integrator s' = integrator s /\ dt s' = dt s.
Proof.
  intros Hi Hdt. unfold read_metadata_row. rewrite Hi. cbv zeta.
  set (s1 := if Str.startswith row0 "# System Name: " then _ else s).
  assert (H1 : integrator s1 = integrator s /\ dt s1 = dt s)
    by (unfold s1; destruct (Str.startswith row0 "# System Name: ");
        split; reflexivity).
  clearbody s1. destruct H1 as [H1 H2].
  eexists. split; [reflexivity |].
  rewrite (try_assign_other row0 "# dt (seconds): ") by exact Hdt.
  split.
  - rewrite !(try_assign_keeps integrator) by reflexivity. exact H1.
  - rewrite !(try_assign_keeps dt) by reflexivity. exact H2.
Qed.




(** X15.  For a run whose integrator is [None] or not one of the nine,
    [_save_result] writes the line [# Integrator: None], and on the
    header of that file [_read_simulation_data] ends with ValueError:
    [list.index] raises it, and the handler is for KeyError. *)
Theorem header_without_integrator_raises (date : string) (saved : metadata)
    (data_size : Z) (rows : list string) (s : metadata) :
  match integrator saved with
  | Some key => getitem available_integrators_to_printable_names key = None
  | None => True
  end ->
  save_metadata str_int str_float date saved data_size = Some rows ->
  In "# Integrator: None" rows
  /\ read_metadata int float_ np_array_float rows s = Raise ValueError.
Proof.
  intros Hint. unfold save_metadata, read_metadata.
  destruct (m saved) as [masses |]; [| discriminate].
  assert (E : match integrator saved with
              | Some key =>
                  getitem available_integrators_to_printable_names key
              | None => None
              end = None)
    by (destruct (integrator saved); [exact Hint | reflexivity]).
  rewrite E. intros [= <-]. split; [simpl; tauto |].
  cbn [read_rows].
  match goal with
  | |- context [read_metadata_row _ _ _ ?s0 (?l ++ date)] =>
      destruct (read_metadata_row_keeps s0 (l ++ date) eq_refl eq_refl)
        as (s1 & -> & _)
  end.
  match goal with
  | |- context [read_metadata_row _ _ _ s1 ?l] =>
      destruct (read_metadata_row_keeps s1 l eq_refl eq_refl)
        as (s2 & -> & _)
  end.
  reflexivity.
Qed.

End Files.


Lemma header_without_integrator_raises_witness :
  let saved :=
    {| system := Some "sun_earth_moon"; integrator := None;
       objects_count := Some 3%Z; tf := Some 100%float;
       dt := Some 0.5%float; tolerance := Some 1e-8%float;
       data_size := Some 10%Z; store_every_n := Some 1%Z;
       run_time := Some 2%float; m := Some [1; 1; 1]%float;
       has_objects_count := true; has_tf := true; has_data_size := true |} in
  let no_int : string -> option Z := fun _ => None in
  let no_float : string -> option float := fun _ => None in
  let no_array : list string -> option farray := fun _ => None in
  let str_int : Z -> string := fun _ => "3" in
  let str_float : float -> string := fun _ => "0.5" in
  exists rows,
    save_metadata str_int str_float "2024-01-01" saved 10 = Some rows
    /\ read_metadata no_int no_float no_array rows saved = Raise ValueError.
Proof.
  intros saved no_int no_float no_array str_int str_float.
  destruct (save_metadata str_int str_float "2024-01-01" saved 10)
    as [rows |] eqn:E; [| discriminate].
  destruct (header_without_integrator_raises no_int no_float no_array
              str_int str_float "2024-01-01" saved 10 rows saved I E)
    as (_ & H).
  exists rows. split; [reflexivity | exact H].
Defined.

End MetadataFacts.

(** ** New stars *)

Module GravObjFacts.
Import GravObj.
Local Open Scope R_scope.

(** X16.  Over the reals, with a distance scale that is not zero:
    [update] puts the star that [create_star] has made for a mouse
    position and a camera position at that mouse position, as long as
    the camera is where it was. *)
Theorem update_after_create_star
    (velocity_scale default_distance_scale : R) (g : grav_sim)
    (mouse_pos camera_pos drag_mouse_pos drag_camera_pos : R * R) :
  distance_scale g <> 0 ->
  update g camera_pos
    (create_star velocity_scale default_distance_scale g
       mouse_pos camera_pos drag_mouse_pos drag_camera_pos)
  = mouse_pos.
Proof.
  intros Hs. destruct mouse_pos as [mx my]. unfold update, create_star.
  simpl. f_equal; field; exact Hs.
Qed.

Lemma update_after_create_star_witness :
  let g := {| centerx := 400; centery := 300; distance_scale := 200;
              new_star_mass_scale := 1; holding_rclick_time := 2 |} in
  update g (10, 20) (create_star 1 200 g (450, 280) (10, 20) (460, 270) (10, 20))
  = (450, 280).
Proof.
  intros g.
  apply (update_after_create_star 1 200 g (450, 280) (10, 20)).
  simpl. lra.
Defined.

End GravObjFacts.
